(** * generate-subtitles.py: WebVTT subtitle generation, verified model

    A shallow embedding of [src/generate-subtitles.py] and the proofs of its
    specification.  Python values are modelled as follows.

    - [str] is a sequence of Unicode code points: [pystr := list N].
    - [float] is IEEE 754 binary64, as specified by the Standard Library's
      [SpecFloat] ([prec = 53], [emax = 1024]); arithmetic and comparisons
      are the correctly rounded ones of that file.
    - [int] is [Z].
    - a raised exception is the left summand of [exn + A].
    - files, directories, the two standard streams and the calls made to
      the transcription library form an explicit [world]; a file is found
      under the name the system resolves its path to, and opening, writing
      and closing it can fail. *)

From Stdlib Require Import ZArith NArith Lia Ascii String SpecFloat.
From stdpp Require Import base option list gmap.

Local Open Scope Z_scope.

(** ** Python strings *)

Definition pystr := list N.

(** An ASCII literal of the source as a Python string. *)
Definition py (s : string) : pystr :=
  map N_of_ascii (list_ascii_of_string s).

(** The line feed, written [\n] in the source. *)
Definition nl : pystr := [10%N].

(** ** Exceptions *)

Inductive exn_kind :=
  | ValueError | OverflowError | UnicodeEncodeError | ImportError | OSError
  | RuntimeError.

(** An exception: its class and [str(error)]. *)
Record exn := Exn { exn_kind_of : exn_kind; exn_str : pystr }.

Definition result (A : Type) := (exn + A)%type.

Definition ok {A} (a : A) : result A := inr a.
Definition raise {A} (e : exn) : result A := inl e.

Definition rbind {A B} (r : result A) (k : A -> result B) : result B :=
  match r with
  | inl e => inl e
  | inr a => k a
  end.

Notation "'do' x <- r ; k" := (rbind r (fun x => k))
  (at level 10, x name, r at level 100, k at level 200).

(** ** Floats (binary64) *)

Definition float := spec_float.

Module F64.

Definition prec : Z := 53.
Definition emax : Z := 1024.

Definition mul : float -> float -> float := SFmul prec emax.
Definition add : float -> float -> float := SFadd prec emax.
Definition div : float -> float -> float := SFdiv prec emax.
Definition leb : float -> float -> bool := SFleb.
Definition ltb : float -> float -> bool := SFltb.
Definition valid : float -> bool := valid_binary prec emax.

(** [float(z)] for an integer [z], correctly rounded. *)
Definition of_Z (z : Z) : float := binary_normalize prec emax z 0 false.

(** The decimal literal [n / 10^k] (as in [0.2], [3661.5]): the literal
    denotes the double nearest to that rational, which is what the
    correctly rounded division of the two exactly representable integers
    yields. *)
Definition lit (n : Z) (k : Z) : float := div (of_Z n) (of_Z (10 ^ k)).

Definition is_nan (x : float) : bool :=
  match x with S754_nan => true | _ => false end.

(** Zero or a finite non-zero number. *)
Definition is_finite (x : float) : bool :=
  match x with S754_zero _ | S754_finite _ _ _ => true | _ => false end.

(** [abs(x)] *)
Definition abs : float -> float := SFabs.

End F64.

(** The float constants of the source. *)
Definition f0_0 : float := F64.of_Z 0.
Definition f0_2 : float := F64.lit 2 1.
Definition f1000_0 : float := F64.of_Z 1000.

(** ** Built-ins: [round], [max], integer formatting *)

(** Magnitude of [m * 2^e] rounded to the nearest integer, ties to even. *)
Definition round_half_even_mag (m : positive) (e : Z) : Z :=
  match e with
  | Zneg p =>
      let d := 2 ^ Zpos p in
      let q := Zpos m / d in
      let r := Zpos m mod d in
      match 2 * r ?= d with
      | Lt => q
      | Gt => q + 1
      | Eq => if Z.even q then q else q + 1
      end
  | _ => Zpos m * 2 ^ e
  end.

(** [round(x)] for a float [x] and no [ndigits]: the nearest [int], ties to
    even; NaN raises [ValueError], an infinity raises [OverflowError]. *)
Definition py_round (x : float) : result Z :=
  match x with
  | S754_nan => raise (Exn ValueError (py "cannot convert float NaN to integer"))
  | S754_infinity _ =>
      raise (Exn OverflowError (py "cannot convert float infinity to integer"))
  | S754_zero _ => ok 0
  | S754_finite s m e =>
      ok (if s then - round_half_even_mag m e else round_half_even_mag m e)
  end.

(** One decimal digit as a character. *)
Definition digit_char (d : Z) : N := (48 + Z.to_N d)%N.

(** Decimal digits of a non-negative integer, most significant first. *)
Fixpoint dec_digits (fuel : nat) (n : Z) (acc : pystr) : pystr :=
  match fuel with
  | O => acc
  | S fuel' =>
      let acc' := digit_char (n mod 10) :: acc in
      if n / 10 =? 0 then acc' else dec_digits fuel' (n / 10) acc'
  end.

Definition dec_nonneg (n : Z) : pystr :=
  dec_digits (S (Z.to_nat (Z.log2 n))) n [].

(** [format(n, "0<width>d")]: sign-aware zero padding up to [width]. *)
Definition fmt_0d (width : nat) (n : Z) : pystr :=
  let ds := dec_nonneg (Z.abs n) in
  if n <? 0
  then py "-" ++ replicate (width - 1 - length ds) 48%N ++ ds
  else replicate (width - length ds) 48%N ++ ds.

(** [str(n)] / [f"{n}"] for an integer. *)
Definition str_of_int (n : Z) : pystr := fmt_0d 0 n.

(** ** format_timestamp (lines 31-39) *)

(** The arithmetic on the integer number of milliseconds. *)
Definition hms_of_millis (total : Z) : Z * Z * Z * Z :=
  let total_milliseconds := total in
  let hours := total_milliseconds / 3600000 in
  let total_milliseconds := total_milliseconds - hours * 3600000 in
  let minutes := total_milliseconds / 60000 in
  let total_milliseconds := total_milliseconds - minutes * 60000 in
  let secs := total_milliseconds / 1000 in
  let milliseconds := total_milliseconds - secs * 1000 in
  (hours, minutes, secs, milliseconds).

Definition format_hms (hmsm : Z * Z * Z * Z) : pystr :=
  let '(hours, minutes, secs, milliseconds) := hmsm in
  fmt_0d 2 hours ++ py ":" ++ fmt_0d 2 minutes ++ py ":" ++ fmt_0d 2 secs
    ++ py "." ++ fmt_0d 3 milliseconds.

Definition format_timestamp (seconds : float) : result pystr :=
  do r <- py_round (F64.mul seconds f1000_0);
  let total_milliseconds := Z.max 0 r in
  ok (format_hms (hms_of_millis total_milliseconds)).

(** ** normalize_text (lines 48-49) *)

(** The characters [str.strip()] and [str.split()] treat as whitespace
    ([Py_UNICODE_ISSPACE]). *)
Definition is_space (c : N) : bool :=
  ((9 <=? c) && (c <=? 13) || (28 <=? c) && (c <=? 32)
   || (c =? 133) || (c =? 160) || (c =? 5760)
   || (8192 <=? c) && (c <=? 8202)
   || (c =? 8232) || (c =? 8233) || (c =? 8239) || (c =? 8287)
   || (c =? 12288))%N.

Fixpoint drop_while {A} (p : A -> bool) (l : list A) : list A :=
  match l with
  | [] => []
  | x :: l' => if p x then drop_while p l' else l
  end.

Definition lstrip (s : pystr) : pystr := drop_while is_space s.
Definition rstrip (s : pystr) : pystr := reverse (drop_while is_space (reverse s)).

(** [s.strip()] *)
Definition strip (s : pystr) : pystr := rstrip (lstrip s).

(** [s.split()]: maximal runs of non-whitespace, scanning left to right;
    [cur] is the word being read. *)
Fixpoint split_go (cur : pystr) (s : pystr) : list pystr :=
  match s with
  | [] => match cur with [] => [] | _ => [cur] end
  | c :: s' =>
      if is_space c
      then match cur with
           | [] => split_go [] s'
           | _ => cur :: split_go [] s'
           end
      else split_go (cur ++ [c]) s'
  end.

Definition split (s : pystr) : list pystr := split_go [] s.

(** [sep.join(parts)] *)
Fixpoint join (sep : pystr) (parts : list pystr) : pystr :=
  match parts with
  | [] => []
  | [p] => p
  | p :: ps => p ++ sep ++ join sep ps
  end.

(** [value or ""], where [None] is Python's [None]. *)
Definition or_empty (value : option pystr) : pystr := default [] value.

Definition normalize_text (value : option pystr) : pystr :=
  join (py " ") (split (strip (or_empty value))).

(** The normalizer in the words of the specification: leading and trailing
    whitespace removed, every remaining run of whitespace replaced by one
    space.  [in_run] tells whether the previous character was whitespace. *)
Fixpoint collapse_runs (in_run : bool) (s : pystr) : pystr :=
  match s with
  | [] => []
  | c :: s' =>
      if is_space c
      then if in_run then collapse_runs true s' else 32%N :: collapse_runs true s'
      else c :: collapse_runs false s'
  end.

Definition spec_normalize (s : pystr) : pystr := collapse_runs false (strip s).

(** ** The cue builder (lines 100-109) *)

(** A raw segment of the transcription library; [None] is an attribute the
    object does not have ([getattr] then takes its default). *)
Record segment := Segment {
  seg_text : option pystr;
  seg_start : option float;
  seg_end : option float
}.

(** A cue, the tuple [(start, end, text)]. *)
Definition cue := (float * float * pystr)%type.

Definition cue_start (c : cue) : float := c.1.1.
Definition cue_end (c : cue) : float := c.1.2.
Definition cue_text (c : cue) : pystr := c.2.

(** [not text] *)
Definition is_empty (s : pystr) : bool :=
  match s with [] => true | _ => false end.

(** One iteration of the loop over [segments_iterable]. *)
Definition build_step (cues : list cue) (seg : segment) : list cue :=
  let text := normalize_text (seg_text seg) in
  if is_empty text then cues
  else
    let start := default f0_0 (seg_start seg) in
    let end_ := default start (seg_end seg) in
    let end_ := if F64.leb end_ start then F64.add start f0_2 else end_ in
    cues ++ [(start, end_, text)].

Definition build_cues (segments : list segment) : list cue :=
  fold_left build_step segments [].

(** The cue of one segment in the words of the specification, [None] when
    the segment is skipped. *)
Definition spec_cue_of (seg : segment) : option cue :=
  let text := normalize_text (seg_text seg) in
  match text with
  | [] => None
  | _ =>
      let start := match seg_start seg with Some s => s | None => f0_0 end in
      let given_end := match seg_end seg with Some e => e | None => start end in
      Some (start,
            if F64.leb given_end start then F64.add start f0_2 else given_end,
            text)
  end.

(** ** The world: files, streams and the transcription library *)

(** A text file as [open(path, "w", encoding=..., newline=...)] leaves it:
    the text written through the handle.  With [newline="\n"] the handle
    translates nothing, so the text is the file's content before encoding. *)
Record file := File {
  f_encoding : pystr;
  f_newline : pystr;
  f_text : pystr
}.

(** A call into [faster_whisper]. *)
Inductive call :=
  | CallImport
  | CallLoad (model device compute_type : pystr)
  | CallTranscribe (input : pystr) (language : option pystr) (beam_size : Z)
      (vad_filter condition_on_previous_text : bool).

(** The files are kept under their resolved names ([realpath] below), so
    that two paths naming one file reach the same entry. *)
Record world := World {
  w_files : gmap pystr file;
  w_dirs : gset pystr;
  w_stdout : pystr;
  w_stderr : pystr;
  w_calls : list call
}.

(** The summary object returned by [transcribe]; [None] is a missing
    attribute or [None]. *)
Record info := Info {
  info_language : option pystr;
  info_language_probability : option float;
  info_duration : option float
}.

(** The segment iterable: the segments it yields and, when iteration
    raises instead of ending, the exception. *)
Definition stream := (list segment * option exn)%type.

(** What the program does not define itself: [os.path], the file a path
    names, the outcome of system calls, [float.__repr__] and
    [faster_whisper].

    - [realpath path] is the name under which the system finds the file
      [path] names: two paths name the same file exactly when their
      [realpath] is the same ([in.mp4], [./in.mp4] and an absolute spelling
      of it, or a link to it).
    - [write_error path content] tells whether growing the file opened at
      [path] to [content] fails, with the exception raised and the text the
      system kept in the file; [close_error path content] does the same for
      closing the file when it holds [content]. *)
Record env := Env {
  abspath : pystr -> pystr;
  dirname : pystr -> pystr;
  realpath : pystr -> pystr;
  makedirs_error : pystr -> option exn;
  open_error : pystr -> option exn;
  write_error : pystr -> pystr -> option (exn * pystr);
  close_error : pystr -> pystr -> option (exn * pystr);
  float_repr : float -> pystr;
  import_error : option exn;
  load_error : pystr -> pystr -> pystr -> option exn;
  transcribe :
    pystr -> option pystr -> Z -> bool -> bool -> result (stream * info)
}.

(** Parsed command line ([argparse.Namespace]). *)
Record args := Args {
  a_input : pystr;
  a_output : pystr;
  a_meta_output : option pystr;
  a_language : option pystr;
  a_model : pystr;
  a_device : pystr;
  a_compute_type : pystr;
  a_beam_size : Z;
  a_no_vad_filter : bool
}.

(** The defaults of [parse_args] for the two required options alone. *)
Definition default_args (input output : pystr) : args :=
  Args input output None None (py "small") (py "cpu") (py "int8") 5 false.

(** State and exceptions. *)
Definition M (A : Type) := world -> result A * world.

Definition mret {A} (a : A) : M A := fun w => (ok a, w).

Definition mbind {A B} (m : M A) (k : A -> M B) : M B :=
  fun w =>
    match m w with
    | (inl e, w') => (inl e, w')
    | (inr a, w') => k a w'
    end.

Definition mraise {A} (e : exn) : M A := fun w => (raise e, w).

Definition lift {A} (r : result A) : M A := fun w => (r, w).

(** [try: m  except Exception as error: h error] *)
Definition try_except {A} (m : M A) (h : exn -> M A) : M A :=
  fun w =>
    match m w with
    | (inl e, w') => h e w'
    | r => r
    end.

Notation "'run' x <- m ; k" := (mbind m (fun x => k))
  (at level 10, x name, m at level 100, k at level 200).
Notation "'exec' m ; k" := (mbind m (fun _ => k))
  (at level 10, m at level 100, k at level 200).

Definition set_files (f : gmap pystr file -> gmap pystr file) (w : world) : world :=
  World (f (w_files w)) (w_dirs w) (w_stdout w) (w_stderr w) (w_calls w).

(** [os.path.isfile] *)
Definition isfile (E : env) (path : pystr) (w : world) : bool :=
  bool_decide (is_Some (w_files w !! realpath E path)).

(** [print(text)] and [print(text, file=sys.stderr)] *)
Definition print_stdout (text : pystr) : M unit :=
  fun w =>
    (ok tt, World (w_files w) (w_dirs w) (w_stdout w ++ text ++ nl)
              (w_stderr w) (w_calls w)).

Definition print_stderr (text : pystr) : M unit :=
  fun w =>
    (ok tt, World (w_files w) (w_dirs w) (w_stdout w)
              (w_stderr w ++ text ++ nl) (w_calls w)).

Definition record_call (c : call) : M unit :=
  fun w =>
    (ok tt, World (w_files w) (w_dirs w) (w_stdout w) (w_stderr w)
              (w_calls w ++ [c])).

(** ** JSON ([json.dumps] / [json.dump] with [ensure_ascii=True]) *)

Inductive jvalue :=
  | JNull
  | JStr (s : pystr)
  | JInt (n : Z)
  | JFloat (x : float).

(** A [dict] with string keys, in insertion order. *)
Definition payload := list (pystr * jvalue).

Definition hex_char (d : N) : N :=
  (if d <? 10 then 48 + d else 87 + d)%N.

(** [format(n, "04x")] for [n < 0x10000]. *)
Definition hex4 (n : N) : pystr :=
  [hex_char (n / 4096 mod 16); hex_char (n / 256 mod 16);
   hex_char (n / 16 mod 16); hex_char (n mod 16)]%N.

Definition json_escape_char (c : N) : pystr :=
  (if c =? 34 then py "\" ++ [34]
   else if c =? 92 then py "\\"
   else if c =? 8 then py "\b"
   else if c =? 12 then py "\f"
   else if c =? 10 then py "\n"
   else if c =? 13 then py "\r"
   else if c =? 9 then py "\t"
   else if (32 <=? c) && (c <=? 126) then [c]
   else if c <? 65536 then py "\u" ++ hex4 c
   else
     let n := c - 65536 in
     py "\u" ++ hex4 (N.lor 55296 (N.land (N.shiftr n 10) 1023))
       ++ py "\u" ++ hex4 (N.lor 56320 (N.land n 1023)))%N.

Definition json_string (s : pystr) : pystr :=
  [34%N] ++ concat (map json_escape_char s) ++ [34%N].

(** ** Encoding to UTF-8 *)

(** A surrogate code point: a Python [str] may hold one, UTF-8 cannot. *)
Definition is_surrogate (c : N) : bool := ((55296 <=? c) && (c <=? 57343))%N.

(** The number of surrogates a text starts with. *)
Fixpoint surrogate_run (text : pystr) : nat :=
  match text with
  | c :: rest => if is_surrogate c then S (surrogate_run rest) else O
  | [] => O
  end.

(** [text.encode("utf-8")] with strict error handling: the
    [UnicodeEncodeError] it raises, if any.  The encoder stops at the
    first surrogate and reports it together with those that follow it
    directly; [pos] is the index of the first character of [text]. *)
Fixpoint encode_error_from (pos : Z) (text : pystr) : option exn :=
  match text with
  | [] => None
  | c :: rest =>
      if is_surrogate c
      then
        Some (Exn UnicodeEncodeError
                (match surrogate_run rest with
                 | O =>
                     py "'utf-8' codec can't encode character '\u" ++ hex4 c
                       ++ py "' in position " ++ str_of_int pos
                       ++ py ": surrogates not allowed"
                 | S more =>
                     py "'utf-8' codec can't encode characters in position "
                       ++ str_of_int pos ++ py "-"
                       ++ str_of_int (pos + Z.of_nat (S more))
                       ++ py ": surrogates not allowed"
                 end))
      else encode_error_from (pos + 1) rest
  end.

Definition encode_error (text : pystr) : option exn := encode_error_from 0 text.

Section Program.

Variable E : env.

Definition json_float (x : float) : pystr :=
  match x with
  | S754_nan => py "NaN"
  | S754_infinity false => py "Infinity"
  | S754_infinity true => py "-Infinity"
  | _ => float_repr E x
  end.

Definition json_value (v : jvalue) : pystr :=
  match v with
  | JNull => py "null"
  | JStr s => json_string s
  | JInt n => str_of_int n
  | JFloat x => json_float x
  end.

Definition json_item (kv : pystr * jvalue) : pystr :=
  json_string kv.1 ++ py ": " ++ json_value kv.2.

(** [json.dumps(payload, ensure_ascii=True)] *)
Definition json_dumps (p : payload) : pystr :=
  py "{" ++ join (py ", ") (map json_item p) ++ py "}".

(** The text [json.dump(payload, handle, ensure_ascii=True, indent=2)]
    writes. *)
Definition json_dump_indent2 (p : payload) : pystr :=
  match p with
  | [] => py "{}"
  | _ =>
      py "{" ++ nl ++ py "  "
        ++ join (py "," ++ nl ++ py "  ") (map json_item p)
        ++ nl ++ py "}"
  end.

(** *** File operations *)

(** [os.makedirs(parent, exist_ok=True)]; of the directories it creates
    the world records [parent]. *)
Definition makedirs (parent : pystr) : M unit :=
  fun w =>
    match makedirs_error E parent with
    | Some e => (raise e, w)
    | None =>
        (ok tt, World (w_files w) ({[parent]} ∪ w_dirs w) (w_stdout w)
                  (w_stderr w) (w_calls w))
    end.

(** Lines 42-45. *)
Definition ensure_parent_dir (file_path : pystr) : M unit :=
  let parent := dirname E (abspath E file_path) in
  if is_empty parent then mret tt else makedirs parent.

(** [open(path, "w", encoding=encoding, newline=newline)]: the file the
    path names is created or truncated. *)
Definition open_w (path encoding newline : pystr) : M unit :=
  fun w =>
    match open_error E path with
    | Some e => (raise e, w)
    | None =>
        (ok tt, set_files <[realpath E path := File encoding newline []]> w)
    end.

(** The text of the file opened at [path], and the world in which it has
    become [text]. *)
Definition handle_text (path : pystr) (w : world) : pystr :=
  match w_files w !! realpath E path with
  | Some f => f_text f
  | None => []
  end.

Definition set_text (path text : pystr) (w : world) : world :=
  set_files
    (alter (fun f => File (f_encoding f) (f_newline f) text) (realpath E path))
    w.

(** [handle.write(text)] on the handle opened for [path] with
    [encoding="utf-8"]: the text is encoded, which raises on a surrogate
    before anything of it is written, and appended to the file, unless the
    system fails to write. *)
Definition handle_write (path text : pystr) : M unit :=
  fun w =>
    match encode_error text with
    | Some e => (raise e, w)
    | None =>
        let content := handle_text path w ++ text in
        match write_error E path content with
        | Some (e, kept) => (raise e, set_text path kept w)
        | None => (ok tt, set_text path content w)
        end
    end.

(** [handle.close()], which flushes what is still buffered. *)
Definition handle_close (path : pystr) : M unit :=
  fun w =>
    match close_error E path (handle_text path w) with
    | Some (e, kept) => (raise e, set_text path kept w)
    | None => (ok tt, w)
    end.

(** [with open(path, "w", encoding=..., newline=...) as handle: body]: the
    handle is closed however the body ends, and an exception raised by
    closing replaces the one of the body. *)
Definition with_open (path encoding newline : pystr) (body : M unit) : M unit :=
  exec open_w path encoding newline;
  fun w =>
    match body w with
    | (inl e, w1) =>
        match handle_close path w1 with
        | (inl e', w2) => (inl e', w2)
        | (inr _, w2) => (inl e, w2)
        end
    | (inr _, w1) => handle_close path w1
    end.

(** *** write_webvtt (lines 52-59) *)

(** The body of the loop for the cue numbered [index], then the rest of
    the [enumerate]. *)
Fixpoint write_cues (path : pystr) (index : Z) (cues : list cue) : M unit :=
  match cues with
  | [] => mret tt
  | (start, end_, text) :: rest =>
      exec handle_write path (str_of_int index ++ nl);
      run s <- lift (format_timestamp start);
      run e <- lift (format_timestamp end_);
      exec handle_write path (s ++ py " --> " ++ e ++ nl);
      exec handle_write path (text ++ nl ++ nl);
      write_cues path (index + 1) rest
  end.

Definition write_webvtt (output_path : pystr) (cues : list cue) : M unit :=
  exec ensure_parent_dir output_path;
  with_open output_path (py "utf-8") nl
    (exec handle_write output_path (py "WEBVTT" ++ nl ++ nl);
     write_cues output_path 1 cues).

(** *** write_metadata (lines 62-67) *)

(** [not meta_output] *)
Definition no_path (meta_output : option pystr) : bool :=
  match meta_output with
  | None | Some [] => true
  | Some _ => false
  end.

(** [json.dump] hands the text to [handle.write] piece by piece; the
    pieces are taken as one write, the text the system keeps when a write
    fails being up to [write_error] either way. *)
Definition write_metadata (meta_output : option pystr) (p : payload) : M unit :=
  if no_path meta_output then mret tt
  else
    let path := or_empty meta_output in
    exec ensure_parent_dir path;
    with_open path (py "utf-8") nl (handle_write path (json_dump_indent2 p)).

(** *** main (lines 70-132) *)

Definition jopt {A} (f : A -> jvalue) (o : option A) : jvalue :=
  match o with Some a => f a | None => JNull end.

(** The [metadata] dict of lines 116-126. *)
Definition metadata_of (a : args) (i : info) (cues : list cue) : payload :=
  [ (py "language", jopt JStr (info_language i));
    (py "language_probability", jopt JFloat (info_language_probability i));
    (py "duration_seconds", jopt JFloat (info_duration i));
    (py "cue_count", JInt (Z.of_nat (length cues)));
    (py "input", JStr (abspath E (a_input a)));
    (py "output", JStr (abspath E (a_output a)));
    (py "model", JStr (a_model a));
    (py "device", JStr (a_device a));
    (py "compute_type", JStr (a_compute_type a)) ].

(** [WhisperModel(model, device=..., compute_type=...)] *)
Definition load_model (a : args) : M unit :=
  exec record_call (CallLoad (a_model a) (a_device a) (a_compute_type a));
  match load_error E (a_model a) (a_device a) (a_compute_type a) with
  | Some e => mraise e
  | None => mret tt
  end.

(** [args.language or None] *)
Definition language_or_none (language : option pystr) : option pystr :=
  match language with
  | Some [] => None
  | l => l
  end.

(** [model.transcribe(...)] of lines 92-98 *)
Definition call_transcribe (a : args) : M (stream * info) :=
  let language := language_or_none (a_language a) in
  let beam_size := Z.max 1 (a_beam_size a) in
  let vad_filter := negb (a_no_vad_filter a) in
  exec record_call (CallTranscribe (a_input a) language beam_size vad_filter false);
  lift (transcribe E (a_input a) language beam_size vad_filter false).

(** The loop of lines 100-109 over the iterable: the cues when the
    iteration ends, the exception when it raises. *)
Definition collect_cues (s : stream) : result (list cue) :=
  let cues := build_cues s.1 in
  match s.2 with
  | Some e => raise e
  | None => ok cues
  end.

(** Lines 86-129, the body of the second [try]. *)
Definition generate (a : args) : M Z :=
  exec load_model a;
  run si <- call_transcribe a;
  run cues <- lift (collect_cues si.1);
  exec write_webvtt (a_output a) cues;
  let metadata := metadata_of a si.2 cues in
  exec write_metadata (a_meta_output a) metadata;
  exec print_stdout (json_dumps metadata);
  mret 0.

(** [main]: the exit code and the world it leaves. *)
Definition main (a : args) (w : world) : Z * world :=
  if negb (isfile E (a_input a) w)
  then
    let '(_, w1) :=
      print_stderr (py "Input file does not exist: " ++ a_input a) w in
    (1, w1)
  else
    let '(_, w1) := record_call CallImport w in
    match import_error E with
    | Some error =>
        let '(_, w2) :=
          print_stderr
            (py "Failed to import faster_whisper. Install dependency first. Error: "
               ++ exn_str error) w1 in
        (1, w2)
    | None =>
        match
          try_except (generate a)
            (fun error =>
               exec print_stderr (py "Subtitle generation failed: " ++ exn_str error);
               mret 1) w1
        with
        | (inr code, w2) => (code, w2)
        | (inl _, w2) => (1, w2)
        end
    end.

End Program.

(** ** Specification-side renderings *)

(** Exactly two decimal digits, for [0 <= n < 100]. *)
Definition two_digits (n : Z) : pystr :=
  [digit_char (n / 10); digit_char (n mod 10)].

(** Exactly three decimal digits, for [0 <= n < 1000]. *)
Definition three_digits (n : Z) : pystr :=
  [digit_char (n / 100); digit_char (n / 10 mod 10); digit_char (n mod 10)].

(** A word: non-empty and free of whitespace. *)
Definition is_word (w : pystr) : Prop :=
  w <> [] /\ forallb (fun c => negb (is_space c)) w = true.

(** No whitespace at the end. *)
Definition ends_nonspace (s : pystr) : Prop :=
  match last s with
  | Some c => is_space c = false
  | None => True
  end.

(** No whitespace at the beginning. *)
Definition starts_nonspace (s : pystr) : Prop :=
  match head s with
  | Some c => is_space c = false
  | None => True
  end.

(** The start and end a segment gives, with the defaults of [getattr]. *)
Definition given_start (seg : segment) : float := default f0_0 (seg_start seg).
Definition given_end (seg : segment) : float :=
  default (given_start seg) (seg_end seg).

(** Timing that the repair can handle: the start is a double of magnitude
    below [2^51] seconds and the end is not NaN. *)
Definition timing_ok (seg : segment) : Prop :=
  F64.valid (given_start seg) = true /\
  F64.ltb (F64.abs (given_start seg)) (F64.of_Z (2 ^ 51)) = true /\
  F64.is_nan (given_end seg) = false.

(** A time that [format_timestamp] accepts: its product with [1000.0] is
    zero or a finite number. *)
Definition formattable (t : float) : Prop :=
  F64.is_finite (F64.mul t f1000_0) = true.

(** The timestamp of a formattable time. *)
Definition timestamp (t : float) : pystr :=
  match format_timestamp t with
  | inr text => text
  | inl _ => []
  end.

(** The four lines of the cue numbered [index]. *)
Definition vtt_cue_lines (index : Z) (c : cue) : list pystr :=
  [ str_of_int index;
    timestamp (cue_start c) ++ py " --> " ++ timestamp (cue_end c);
    cue_text c;
    [] ].

(** The lines of a subtitle file: header, blank line, then the cues
    numbered from 1. *)
Definition vtt_lines (cues : list cue) : list pystr :=
  [py "WEBVTT"; []]
    ++ concat (imap (fun i c => vtt_cue_lines (Z.of_nat i + 1) c) cues).

(** A text made of lines, each ended by a line feed. *)
Definition unlines (lines : list pystr) : pystr :=
  concat (map (fun line => line ++ nl) lines).

(** The parent directory of [path] exists or can be created: when
    [ensure_parent_dir] calls [os.makedirs], the call succeeds. *)
Definition parent_ok (E : env) (path : pystr) : Prop :=
  is_empty (dirname E (abspath E path)) = false ->
  makedirs_error E (dirname E (abspath E path)) = None.

(** The text of the cues numbered from [index] on. *)
Fixpoint blocks (index : Z) (cues : list cue) : pystr :=
  match cues with
  | [] => []
  | c :: rest => unlines (vtt_cue_lines index c) ++ blocks (index + 1) rest
  end.

(** The world [w] with the files [m] and, under [name], a file opened with
    [encoding] and [newline] that holds [text]. *)
Definition holding (name encoding newline text : pystr) (m : gmap pystr file)
    (w : world) : world :=
  World (<[name := File encoding newline text]> m) (w_dirs w) (w_stdout w)
    (w_stderr w) (w_calls w).

(** A text the UTF-8 encoder accepts: no surrogate. *)
Definition encodable (s : pystr) : Prop :=
  Forall (fun c => ~ (55296 <= c <= 57343)%N) s.

(** The system fails neither to write to the file opened at [path] nor to
    close it. *)
Definition writes_ok (E : env) (path : pystr) : Prop :=
  (forall content, write_error E path content = None) /\
  (forall content, close_error E path content = None).

(** A cue the writer can write: both times can be formatted and the text
    encoded. *)
Definition writable_cue (c : cue) : Prop :=
  formattable (cue_start c) /\ formattable (cue_end c) /\
  encodable (cue_text c).

(** [os.path.abspath] for examples, also the file a path names: the
    working directory is [/work]; an absolute path is itself, and one
    leading [./] is dropped. *)
Definition example_abspath (path : pystr) : pystr :=
  match path with
  | [] => py "/work"
  | c :: rest =>
      if (c =? 47)%N then path
      else
        match rest with
        | d :: rest' =>
            if ((c =? 46) && (d =? 47))%N then py "/work/" ++ rest'
            else py "/work/" ++ path
        | [] => py "/work/" ++ path
        end
  end.

(** An environment for examples: files live in [/work], no system call
    fails, the library imports and loads, and [transcribe] returns [t]. *)
Definition example_env (t : result (stream * info)) : env :=
  Env example_abspath (fun _ => py "/work") example_abspath
    (fun _ => None) (fun _ => None) (fun _ _ => None) (fun _ _ => None)
    (fun _ => py "1.0")
    None (fun _ _ _ => None) (fun _ _ _ _ _ => t).

(** A world holding the media file [/work/in.mp4] and nothing else. *)
Definition example_world : world :=
  World {[ py "/work/in.mp4" := File [] [] [] ]} ∅ [] [] [].

(** The calls [main] makes into the library after the import. *)
Definition load_call (a : args) : call :=
  CallLoad (a_model a) (a_device a) (a_compute_type a).

Definition transcribe_call (a : args) : call :=
  CallTranscribe (a_input a) (language_or_none (a_language a))
    (Z.max 1 (a_beam_size a)) (negb (a_no_vad_filter a)) false.

(** What [transcribe] answers to the call of [main]. *)
Definition transcribe_result (E : env) (a : args) : result (stream * info) :=
  transcribe E (a_input a) (language_or_none (a_language a))
    (Z.max 1 (a_beam_size a)) (negb (a_no_vad_filter a)) false.

(** The world after one more line on standard error. *)
Definition with_stderr (line : pystr) (w : world) : world :=
  World (w_files w) (w_dirs w) (w_stdout w) (w_stderr w ++ line ++ nl)
    (w_calls w).

(** The world after more calls into the library. *)
Definition with_calls (cs : list call) (w : world) : world :=
  World (w_files w) (w_dirs w) (w_stdout w) (w_stderr w) (w_calls w ++ cs).

(** A text without line feed. *)
Definition one_line (s : pystr) : Prop := Forall (fun c => c <> 10%N) s.

(** ** Readers of the texts the program writes *)

(** The value of a string of decimal digits, as [int(text)] reads it. *)
Definition undec (text : pystr) : Z :=
  fold_left (fun a c => 10 * a + (Z.of_N c - 48)) text 0.

(** The milliseconds a timestamp [H..H:MM:SS.mmm] denotes: the last three
    characters, the two before the dot, the two before the second colon and
    everything before the first colon. *)
Definition parse_timestamp (t : pystr) : Z :=
  let n := length t in
  let hours := undec (take (n - 10) t) in
  let minutes := undec (take 2 (drop (n - 9) t)) in
  let secs := undec (take 2 (drop (n - 6) t)) in
  let milliseconds := undec (drop (n - 3) t) in
  hours * 3600000 + minutes * 60000 + secs * 1000 + milliseconds.

(** The lines of a text, split at line feeds; a last line without line
    feed counts when it is not empty.  [cur] is the line being read. *)
Fixpoint lines_go (cur : pystr) (s : pystr) : list pystr :=
  match s with
  | [] => match cur with [] => [] | _ => [cur] end
  | c :: s' =>
      if (c =? 10)%N then cur :: lines_go [] s' else lines_go (cur ++ [c]) s'
  end.

Definition split_lines (s : pystr) : list pystr := lines_go [] s.

(** Whitespace in a normalized text: never at the start (or after other
    whitespace, when [after_space] holds), and always U+0020. *)
Fixpoint single_spaced (after_space : bool) (s : pystr) : bool :=
  match s with
  | [] => true
  | c :: s' =>
      if is_space c
      then negb after_space && (c =? 32)%N && single_spaced true s'
      else single_spaced false s'
  end.

(** A segment without visible text: no text, or whitespace only. *)
Definition blank (seg : segment) : bool :=
  forallb is_space (or_empty (seg_text seg)).

(** A cue handed back to the cue builder as a segment. *)
Definition segment_of_cue (c : cue) : segment :=
  Segment (Some (cue_text c)) (Some (cue_start c)) (Some (cue_end c)).

(** Where the block of the cue numbered [index] stops when the cue cannot
    be written: the exception raised and the lines of the block completed
    before.  A time that cannot be formatted stops it after the number, a
    text that cannot be encoded after the line of the times. *)
Definition cue_failure (index : Z) (c : cue) : option (exn * list pystr) :=
  match format_timestamp (cue_start c), format_timestamp (cue_end c) with
  | inl e, _ => Some (e, [str_of_int index])
  | inr _, inl e => Some (e, [str_of_int index])
  | inr s, inr t =>
      match encode_error (cue_text c ++ nl ++ nl) with
      | Some e => Some (e, [str_of_int index; s ++ py " --> " ++ t])
      | None => None
      end
  end.


(** Printable ASCII only. *)
Definition ascii_printable (s : pystr) : Prop :=
  Forall (fun c => (32 <= c <= 126)%N) s.

(** Printable ASCII and line feeds only. *)
Definition ascii_lines (s : pystr) : Prop :=
  Forall (fun c => (32 <= c <= 126)%N \/ c = 10%N) s.

(** A text of printable ASCII without quote and backslash: one that JSON
    writes between quotes as it is. *)
Definition plain (s : pystr) : Prop :=
  Forall (fun c => (32 <= c <= 126)%N /\ c <> 34%N /\ c <> 92%N) s.

(** A text between double quotes. *)
Definition quoted (s : pystr) : pystr := [34%N] ++ s ++ [34%N].

(** The member [key: value] of a JSON object, the key between quotes. *)
Definition member (key : string) (value : pystr) : pystr :=
  quoted (py key) ++ py ": " ++ value.

(** The JSON text of an optional value: [null] for [None]. *)
Definition json_opt {A} (f : A -> pystr) (o : option A) : pystr :=
  match o with Some x => f x | None => py "null" end.

(** The metadata record on one line, given the JSON text of each value. *)
Definition metadata_line
    (language probability duration cue_count input output model device
       compute_type : pystr) : pystr :=
  py "{" ++ member "language" language
    ++ py ", " ++ member "language_probability" probability
    ++ py ", " ++ member "duration_seconds" duration
    ++ py ", " ++ member "cue_count" cue_count
    ++ py ", " ++ member "input" input
    ++ py ", " ++ member "output" output
    ++ py ", " ++ member "model" model
    ++ py ", " ++ member "device" device
    ++ py ", " ++ member "compute_type" compute_type
    ++ py "}".

(** The metadata record as the lines of the metadata file: one member on
    each line, indented by two spaces; the last line has no line feed. *)
Definition metadata_file_lines
    (language probability duration cue_count input output model device
       compute_type : pystr) : list pystr :=
  [ py "{";
    py "  " ++ member "language" language ++ py ",";
    py "  " ++ member "language_probability" probability ++ py ",";
    py "  " ++ member "duration_seconds" duration ++ py ",";
    py "  " ++ member "cue_count" cue_count ++ py ",";
    py "  " ++ member "input" input ++ py ",";
    py "  " ++ member "output" output ++ py ",";
    py "  " ++ member "model" model ++ py ",";
    py "  " ++ member "device" device ++ py ",";
    py "  " ++ member "compute_type" compute_type;
    py "}" ].

(** The metadata of a run as [main] prints it: the arguments [a], the
    summary [i] of the transcription and [n] cues. *)
Definition metadata_line_of (E : env) (a : args) (i : info) (n : nat) : pystr :=
  metadata_line
    (json_opt json_string (info_language i))
    (json_opt (json_float E) (info_language_probability i))
    (json_opt (json_float E) (info_duration i))
    (str_of_int (Z.of_nat n))
    (json_string (abspath E (a_input a)))
    (json_string (abspath E (a_output a)))
    (json_string (a_model a))
    (json_string (a_device a))
    (json_string (a_compute_type a)).

(** The same metadata as the text of the metadata file: its lines joined
    by line feeds. *)
Definition metadata_file_of (E : env) (a : args) (i : info) (n : nat) : pystr :=
  join nl
    (metadata_file_lines
       (json_opt json_string (info_language i))
       (json_opt (json_float E) (info_language_probability i))
       (json_opt (json_float E) (info_duration i))
       (str_of_int (Z.of_nat n))
       (json_string (abspath E (a_input a)))
       (json_string (abspath E (a_output a)))
       (json_string (a_model a))
       (json_string (a_device a))
       (json_string (a_compute_type a))).

(** What a file operation on the files [allowed] may change: nothing on the
    standard streams, nothing in the calls, and no other file.  Files go
    by the names the system resolves their paths to. *)
Definition io_frame (allowed : list pystr) (w w' : world) : Prop :=
  w_stdout w' = w_stdout w /\
  w_stderr w' = w_stderr w /\
  w_calls w' = w_calls w /\
  forall name, name ∉ allowed -> w_files w' !! name = w_files w !! name.

(** The files [main] may write: the one [--output] names and the one a
    non-empty [--meta-output] names. *)
Definition output_files (E : env) (a : args) : list pystr :=
  realpath E (a_output a)
    :: (if no_path (a_meta_output a) then []
        else [realpath E (or_empty (a_meta_output a))]).

(** * Proofs *)

(** ** Integer formatting *)

Lemma fmt_0d_two_digits (n : Z) :
  0 <= n < 100 -> fmt_0d 2 n = two_digits n.
Proof.
  intros Hn.
  assert (H : Forall (fun k => fmt_0d 2 k = two_digits k) (seqZ 0 100)).
  { apply (bool_decide_unpack _). vm_compute. exact I. }
  rewrite Forall_forall in H. apply H, elem_of_seqZ. lia.
Qed.

Lemma fmt_0d_three_digits (n : Z) :
  0 <= n < 1000 -> fmt_0d 3 n = three_digits n.
Proof.
  intros Hn.
  assert (H : Forall (fun k => fmt_0d 3 k = three_digits k) (seqZ 0 1000)).
  { apply (bool_decide_unpack _). vm_compute. exact I. }
  rewrite Forall_forall in H. apply H, elem_of_seqZ. lia.
Qed.

Lemma dec_digits_length (fuel : nat) (n : Z) (acc : pystr) :
  (length acc < length (dec_digits (S fuel) n acc))%nat.
Proof.
  revert n acc. induction fuel as [|fuel IH]; intros n acc.
  - simpl. destruct (n / 10 =? 0); simpl; lia.
  - change (dec_digits (S (S fuel)) n acc)
      with (if n / 10 =? 0 then digit_char (n mod 10) :: acc
            else dec_digits (S fuel) (n / 10) (digit_char (n mod 10) :: acc)).
    destruct (n / 10 =? 0); [simpl; lia|].
    specialize (IH (n / 10) (digit_char (n mod 10) :: acc)). simpl in *. lia.
Qed.

(** A number of three digits or more fills the field: no padding. *)
Lemma dec_digits_long (fuel : nat) (n : Z) (acc : pystr) :
  10 <= n -> (0 < fuel)%nat ->
  (length acc + 2 <= length (dec_digits (S fuel) n acc))%nat.
Proof.
  intros Hn Hf. destruct fuel as [|fuel]; [lia|].
  change (dec_digits (S (S fuel)) n acc)
    with (if n / 10 =? 0 then digit_char (n mod 10) :: acc
          else dec_digits (S fuel) (n / 10) (digit_char (n mod 10) :: acc)).
  destruct (Z.eqb_spec (n / 10) 0) as [H0|_].
  - exfalso. assert (1 <= n / 10) by (apply Z.div_le_lower_bound; lia). lia.
  - pose proof (dec_digits_length fuel (n / 10) (digit_char (n mod 10) :: acc)).
    simpl in *. lia.
Qed.

Lemma fmt_0d_wide (n : Z) : 100 <= n -> fmt_0d 2 n = dec_nonneg n.
Proof.
  intros Hn. unfold fmt_0d.
  destruct (Z.ltb_spec n 0) as [?|_]; [lia|].
  rewrite Z.abs_eq by lia.
  assert (Hlen : (2 <= length (dec_nonneg n))%nat).
  { unfold dec_nonneg.
    assert (6 <= Z.log2 n) by (apply Z.log2_le_pow2; simpl; lia).
    pose proof (dec_digits_long (Z.to_nat (Z.log2 n)) n []) as H1.
    simpl length in H1. apply H1; lia. }
  replace (2 - length (dec_nonneg n))%nat with 0%nat by lia.
  reflexivity.
Qed.

(** ** format_timestamp *)

(** The successive subtractions of the source are the usual quotients and
    remainders. *)
Lemma hms_of_millis_divmod (total : Z) :
  hms_of_millis total =
    (total / 3600000, total mod 3600000 / 60000, total mod 60000 / 1000,
     total mod 1000).
Proof.
  unfold hms_of_millis.
  assert (H1 : total - total / 3600000 * 3600000 = total mod 3600000)
    by (rewrite Z.mod_eq by lia; lia).
  rewrite !H1.
  set (t1 := total mod 3600000).
  assert (H2 : t1 - t1 / 60000 * 60000 = total mod 60000).
  { subst t1. transitivity ((total mod 3600000) mod 60000).
    - rewrite (Z.mod_eq (total mod 3600000) 60000) by lia. lia.
    - apply Z.mod_mod_divide. exists 60. lia. }
  rewrite !H2.
  set (t2 := total mod 60000).
  assert (H3 : t2 - t2 / 1000 * 1000 = total mod 1000).
  { subst t2. transitivity ((total mod 60000) mod 1000).
    - rewrite (Z.mod_eq (total mod 60000) 1000) by lia. lia.
    - apply Z.mod_mod_divide. exists 60. lia. }
  rewrite H3. reflexivity.
Qed.

Lemma binary_round_aux_sign (sx : bool) (mx ex : Z) (lx : location) :
  match binary_round_aux F64.prec F64.emax sx mx ex lx with
  | S754_zero s | S754_infinity s | S754_finite s _ _ => s = sx
  | S754_nan => True
  end.
Proof.
  unfold binary_round_aux.
  destruct (shr_fexp F64.prec F64.emax mx ex lx) as [mrs' e'].
  destruct (shr_fexp F64.prec F64.emax _ e' loc_Exact) as [mrs'' e''].
  destruct (shr_m mrs''); [reflexivity | | exact I].
  destruct (e'' <=? F64.emax - F64.prec); reflexivity.
Qed.

Lemma f1000_0_eq : f1000_0 = S754_finite false 8796093022208000 (-43).
Proof. vm_compute. reflexivity. Qed.

Lemma f0_0_eq : f0_0 = S754_zero false.
Proof. reflexivity. Qed.

Lemma f0_2_eq : f0_2 = S754_finite false 7205759403792794 (-55).
Proof. vm_compute. reflexivity. Qed.

Lemma round_half_even_mag_nonneg (m : positive) (e : Z) :
  0 <= round_half_even_mag m e.
Proof.
  unfold round_half_even_mag. destruct e as [|p|p].
  - lia.
  - pose proof (Z.pow_pos_nonneg 2 (Z.pos p)). lia.
  - assert (0 < 2 ^ Z.pos p) by (apply Z.pow_pos_nonneg; lia).
    assert (0 <= Z.pos m / 2 ^ Z.pos p) by (apply Z.div_pos; lia).
    destruct (2 * (Z.pos m mod 2 ^ Z.pos p) ?= 2 ^ Z.pos p);
      [destruct (Z.even _)| |]; lia.
Qed.

(** [round] returns an integer nearest to the float: twice the distance to
    [m * 2^-p] is at most one. *)
Lemma round_half_even_mag_nearest (m : positive) (p : positive) :
  2 * Z.abs (round_half_even_mag m (Z.neg p) * 2 ^ Z.pos p - Z.pos m)
    <= 2 ^ Z.pos p.
Proof.
  unfold round_half_even_mag.
  assert (Hd : 0 < 2 ^ Z.pos p) by (apply Z.pow_pos_nonneg; lia).
  pose proof (Z.div_mod (Z.pos m) (2 ^ Z.pos p) ltac:(lia)) as Hdm.
  pose proof (Z.mod_pos_bound (Z.pos m) (2 ^ Z.pos p) Hd) as Hr.
  set (d := 2 ^ Z.pos p) in *.
  set (q := Z.pos m / d) in *. set (r := Z.pos m mod d) in *.
  destruct (Z.compare_spec (2 * r) d) as [He|Hl|Hg];
    [destruct (Z.even q)| |]; lia.
Qed.

(** A float below [0.0] whose product with [1000.0] is finite rounds to a
    non-positive number of milliseconds. *)
Lemma py_round_negative (s : float) :
  F64.ltb s f0_0 = true ->
  F64.is_finite (F64.mul s f1000_0) = true ->
  exists r, py_round (F64.mul s f1000_0) = ok r /\ r <= 0.
Proof.
  intros Hneg Hfin. rewrite f1000_0_eq in Hfin |- *.
  destruct s as [sx|sx| |sx mx ex]; try discriminate Hneg;
    try discriminate Hfin.
  destruct sx; [|discriminate Hneg].
  unfold F64.mul, SFmul in *.
  pose proof (binary_round_aux_sign (xorb true false)
                (Z.pos (mx * 8796093022208000)) (ex + -43) loc_Exact) as Hs.
  destruct (binary_round_aux _ _ _ _ _ _) as [s|s| |s m e];
    try discriminate Hfin; simpl in Hs; subst s.
  - exists 0. split; [reflexivity | lia].
  - exists (- round_half_even_mag m e). split; [reflexivity|].
    pose proof (round_half_even_mag_nonneg m e). lia.
Qed.

Lemma py_round_finite (x : float) :
  F64.is_finite x = true -> exists r, py_round x = ok r.
Proof. destruct x; try discriminate; intros _; eexists; reflexivity. Qed.

(** C1 (as amended).  For every float [s] whose product with [1000.0] is
    finite, [format_timestamp s] returns
    [H:MM:SS.mmm] built from [total = max(0, round(s * 1000.0))]:
    hours [total / 3600000] zero-padded to at least two digits (exactly two
    below 100 hours), minutes, seconds and milliseconds of exactly two, two
    and three digits, obtained by the integer divisions by 3,600,000,
    60,000 and 1,000; a negative such [s] yields [00:00:00.000];
    [format_timestamp(0)] is [00:00:00.000] and [format_timestamp(3661.5)]
    is [01:01:01.500]. *)
Theorem format_timestamp_finite :
  (forall s : float,
     F64.is_finite (F64.mul s f1000_0) = true ->
     exists r : Z,
       py_round (F64.mul s f1000_0) = ok r /\
       let total := Z.max 0 r in
       let h := total / 3600000 in
       let m := total mod 3600000 / 60000 in
       let sec := total mod 60000 / 1000 in
       let ms := total mod 1000 in
       format_timestamp s =
         ok (fmt_0d 2 h ++ py ":" ++ two_digits m ++ py ":" ++ two_digits sec
               ++ py "." ++ three_digits ms) /\
       (h < 100 -> fmt_0d 2 h = two_digits h) /\
       (100 <= h -> fmt_0d 2 h = dec_nonneg h) /\
       total = h * 3600000 + m * 60000 + sec * 1000 + ms /\
       0 <= h /\ 0 <= m < 60 /\ 0 <= sec < 60 /\ 0 <= ms < 1000 /\
       (F64.ltb s f0_0 = true ->
        format_timestamp s = ok (py "00:00:00.000"))) /\
  format_timestamp f0_0 = ok (py "00:00:00.000") /\
  format_timestamp (F64.lit 36615 1) = ok (py "01:01:01.500").
Proof.
  split; [|split; vm_compute; reflexivity].
  intros s Hfin.
  destruct (py_round_finite _ Hfin) as [r Hr]. exists r. split; [exact Hr|].
  cbv zeta.
  set (total := Z.max 0 r).
  assert (Ht : 0 <= total) by (subst total; lia).
  assert (Hh : 0 <= total / 3600000) by (apply Z.div_pos; lia).
  assert (Hm : 0 <= total mod 3600000 / 60000 < 60).
  { pose proof (Z.mod_pos_bound total 3600000 ltac:(lia)).
    split; [apply Z.div_pos; lia | apply Z.div_lt_upper_bound; lia]. }
  assert (Hs : 0 <= total mod 60000 / 1000 < 60).
  { pose proof (Z.mod_pos_bound total 60000 ltac:(lia)).
    split; [apply Z.div_pos; lia | apply Z.div_lt_upper_bound; lia]. }
  assert (Hms : 0 <= total mod 1000 < 1000) by (apply Z.mod_pos_bound; lia).
  assert (Hfmt : format_timestamp s =
    ok (fmt_0d 2 (total / 3600000) ++ py ":"
          ++ two_digits (total mod 3600000 / 60000) ++ py ":"
          ++ two_digits (total mod 60000 / 1000) ++ py "."
          ++ three_digits (total mod 1000))).
  { unfold format_timestamp. rewrite Hr. unfold rbind, ok. cbv zeta.
    fold total.
    rewrite hms_of_millis_divmod. unfold format_hms.
    rewrite (fmt_0d_two_digits (total mod 3600000 / 60000)) by lia.
    rewrite (fmt_0d_two_digits (total mod 60000 / 1000)) by lia.
    rewrite (fmt_0d_three_digits (total mod 1000)) by exact Hms.
    reflexivity. }
  split; [exact Hfmt|].
  split; [intros; apply fmt_0d_two_digits; lia|].
  split; [apply fmt_0d_wide|].
  split.
  { pose proof (Z.div_mod total 3600000 ltac:(lia)) as H1.
    pose proof (Z.div_mod (total mod 3600000) 60000 ltac:(lia)) as H2.
    rewrite (Z.mod_mod_divide total 3600000 60000) in H2 by (exists 60; lia).
    pose proof (Z.div_mod (total mod 60000) 1000 ltac:(lia)) as H3.
    rewrite (Z.mod_mod_divide total 60000 1000) in H3 by (exists 60; lia).
    lia. }
  do 4 (split; [assumption|]).
  intros Hneg.
  destruct (py_round_negative s Hneg Hfin) as [r' [Hr' Hle]].
  rewrite Hr in Hr'. assert (Heq : r = r') by (unfold ok in Hr'; congruence).
  rewrite Hfmt. replace total with 0 by (subst total; lia).
  vm_compute. reflexivity.
Qed.

Lemma format_timestamp_finite_witness :
  F64.is_finite (F64.mul (F64.lit 36615 1) f1000_0) = true /\
  exists r : Z, py_round (F64.mul (F64.lit 36615 1) f1000_0) = ok r.
Proof.
  split; [vm_compute; reflexivity|].
  destruct (proj1 format_timestamp_finite (F64.lit 36615 1))
    as [r [Hr _]]; [vm_compute; reflexivity|].
  exists r. exact Hr.
Defined.

(** C1 as stated fails: [format_timestamp] raises on NaN, and from 100
    hours on the hours field has three digits. *)
Lemma format_timestamp_not_total :
  format_timestamp S754_nan
    = raise (Exn ValueError (py "cannot convert float NaN to integer")) /\
  format_timestamp (F64.of_Z 360000) = ok (py "100:00:00.000").
Proof. split; vm_compute; reflexivity. Qed.


(** ** Decimal rendering and the timestamp read back *)

Section Decimal.

Implicit Types (n : Z) (ds acc : pystr).

Lemma undec_app ds (c : N) :
  undec (ds ++ [c]) = 10 * undec ds + (Z.of_N c - 48).
Proof. unfold undec. rewrite fold_left_app. reflexivity. Qed.

Lemma undec_digit (d : Z) : 0 <= d -> Z.of_N (digit_char d) - 48 = d.
Proof. intros Hd. unfold digit_char. rewrite N2Z.inj_add, Z2N.id by lia. lia. Qed.

(** With enough fuel, [dec_digits] puts the digits of [n] in front of the
    accumulator. *)
Lemma dec_digits_undec (fuel : nat) n acc :
  0 <= n < 10 ^ Z.of_nat (S fuel) ->
  exists ds,
    dec_digits (S fuel) n acc = ds ++ acc /\ undec ds = n /\ ds <> [] /\
    Forall (fun c => (48 <= c <= 57)%N) ds.
Proof.
  revert n acc. induction fuel as [|fuel IH]; intros n acc Hn;
    change (dec_digits (S ?f) n acc)
      with (if n / 10 =? 0 then digit_char (n mod 10) :: acc
            else dec_digits f (n / 10) (digit_char (n mod 10) :: acc));
    assert (Hm : 0 <= n mod 10 < 10) by (apply Z.mod_pos_bound; lia);
    assert (Hc : (48 <= digit_char (n mod 10) <= 57)%N)
      by (unfold digit_char; lia);
    pose proof (Z.div_mod n 10 ltac:(lia)) as Hdm;
    destruct (Z.eqb_spec (n / 10) 0) as [H0|H0].
  - exists [digit_char (n mod 10)]. split; [reflexivity|].
    split; [|split; [discriminate | constructor; [exact Hc | constructor]]].
    unfold undec. simpl. rewrite undec_digit by lia. lia.
  - exfalso. change (10 ^ Z.of_nat 1) with 10 in Hn.
    assert (n / 10 = 0) by (apply Z.div_small; lia). lia.
  - exists [digit_char (n mod 10)]. split; [reflexivity|].
    split; [|split; [discriminate | constructor; [exact Hc | constructor]]].
    unfold undec. simpl. rewrite undec_digit by lia. lia.
  - assert (Hq : 0 <= n / 10 < 10 ^ Z.of_nat (S fuel)).
    { split; [apply Z.div_pos; lia|].
      apply Z.div_lt_upper_bound; [lia|].
      rewrite (Nat2Z.inj_succ (S fuel)), Z.pow_succ_r in Hn by lia. lia. }
    destruct (IH (n / 10) (digit_char (n mod 10) :: acc) Hq)
      as (ds & Heq & Hval & Hne & Hall).
    exists (ds ++ [digit_char (n mod 10)]). rewrite Heq, <- app_assoc.
    split; [reflexivity|]. split; [|split].
    + rewrite undec_app, Hval, undec_digit by lia. lia.
    + destruct ds; discriminate.
    + apply Forall_app. split; [exact Hall|]. constructor; [exact Hc | constructor].
Qed.

Lemma dec_nonneg_fuel n : 0 <= n -> n < 10 ^ Z.of_nat (S (Z.to_nat (Z.log2 n))).
Proof.
  intros Hn. rewrite Nat2Z.inj_succ, Z2Nat.id by apply Z.log2_nonneg.
  destruct (Z.eq_dec n 0) as [->|Hne]; [reflexivity|].
  pose proof (Z.log2_spec n ltac:(lia)) as [_ Hlt].
  eapply Z.lt_le_trans; [exact Hlt|].
  apply Z.pow_le_mono_l. pose proof (Z.log2_nonneg n). lia.
Qed.

Lemma dec_nonneg_undec n :
  0 <= n ->
  undec (dec_nonneg n) = n /\ dec_nonneg n <> [] /\
  Forall (fun c => (48 <= c <= 57)%N) (dec_nonneg n).
Proof.
  intros Hn. unfold dec_nonneg.
  destruct (dec_digits_undec (Z.to_nat (Z.log2 n)) n [])
    as (ds & Heq & Hval & Hne & Hall).
  { split; [exact Hn | apply dec_nonneg_fuel, Hn]. }
  rewrite Heq, app_nil_r. auto.
Qed.

End Decimal.

Section TimestampReader.

Implicit Types (n T : Z) (t : pystr).

Lemma undec_two_digits n : 0 <= n < 100 -> undec (two_digits n) = n.
Proof.
  intros Hn. unfold two_digits, undec. simpl.
  assert (0 <= n / 10) by (apply Z.div_pos; lia).
  assert (0 <= n mod 10 < 10) by (apply Z.mod_pos_bound; lia).
  rewrite !undec_digit by lia.
  pose proof (Z.div_mod n 10 ltac:(lia)). lia.
Qed.

Lemma undec_three_digits n : 0 <= n < 1000 -> undec (three_digits n) = n.
Proof.
  intros Hn. unfold three_digits, undec. simpl.
  assert (0 <= n / 100) by (apply Z.div_pos; lia).
  assert (0 <= n / 10) by (apply Z.div_pos; lia).
  assert (0 <= n / 10 mod 10 < 10) by (apply Z.mod_pos_bound; lia).
  assert (0 <= n mod 10 < 10) by (apply Z.mod_pos_bound; lia).
  rewrite !undec_digit by lia.
  pose proof (Z.div_mod n 10 ltac:(lia)).
  pose proof (Z.div_mod (n / 10) 10 ltac:(lia)).
  assert (n / 10 / 10 = n / 100) by (rewrite Z.div_div by lia; reflexivity).
  lia.
Qed.

(** The hours field, however wide. *)
Lemma undec_hours n : 0 <= n -> undec (fmt_0d 2 n) = n.
Proof.
  intros Hn. destruct (Z.lt_ge_cases n 100) as [Hlt|Hge].
  - rewrite fmt_0d_two_digits by lia. apply undec_two_digits. lia.
  - rewrite fmt_0d_wide by lia. apply dec_nonneg_undec. lia.
Qed.

Lemma format_hms_fields T :
  0 <= T ->
  format_hms (hms_of_millis T) =
    fmt_0d 2 (T / 3600000) ++ py ":"
      ++ two_digits (T mod 3600000 / 60000) ++ py ":"
      ++ two_digits (T mod 60000 / 1000) ++ py "."
      ++ three_digits (T mod 1000).
Proof.
  intros HT. rewrite hms_of_millis_divmod. unfold format_hms.
  pose proof (Z.mod_pos_bound T 3600000 ltac:(lia)).
  pose proof (Z.mod_pos_bound T 60000 ltac:(lia)).
  pose proof (Z.mod_pos_bound T 1000 ltac:(lia)).
  rewrite (fmt_0d_two_digits (T mod 3600000 / 60000))
    by (split; [apply Z.div_pos | apply Z.div_lt_upper_bound]; lia).
  rewrite (fmt_0d_two_digits (T mod 60000 / 1000))
    by (split; [apply Z.div_pos | apply Z.div_lt_upper_bound]; lia).
  rewrite (fmt_0d_three_digits (T mod 1000)) by lia.
  reflexivity.
Qed.

Lemma parse_timestamp_fields (hh mm ss ms : pystr) :
  length mm = 2%nat -> length ss = 2%nat -> length ms = 3%nat ->
  parse_timestamp (hh ++ py ":" ++ mm ++ py ":" ++ ss ++ py "." ++ ms)
    = undec hh * 3600000 + undec mm * 60000 + undec ss * 1000 + undec ms.
Proof.
  intros Hmm Hss Hms. unfold parse_timestamp.
  set (t := hh ++ py ":" ++ mm ++ py ":" ++ ss ++ py "." ++ ms).
  assert (Hlen : length t = (length hh + 10)%nat).
  { subst t. rewrite !length_app, Hmm, Hss, Hms. simpl. lia. }
  rewrite Hlen.
  assert (Hh : take (length hh + 10 - 10) t = hh).
  { subst t. apply take_app_length'. lia. }
  assert (Hm : take 2 (drop (length hh + 10 - 9) t) = mm).
  { subst t.
    rewrite (app_assoc hh (py ":")).
    rewrite drop_app_length' by (rewrite length_app; simpl; lia).
    apply take_app_length'. lia. }
  assert (Hs : take 2 (drop (length hh + 10 - 6) t) = ss).
  { subst t.
    rewrite (app_assoc hh (py ":")), (app_assoc _ mm), (app_assoc _ (py ":")).
    rewrite drop_app_length' by (rewrite !length_app, Hmm; simpl; lia).
    apply take_app_length'. lia. }
  assert (Hl : drop (length hh + 10 - 3) t = ms).
  { subst t.
    rewrite (app_assoc hh (py ":")), (app_assoc _ mm), (app_assoc _ (py ":")),
      (app_assoc _ ss), (app_assoc _ (py ".")).
    apply drop_app_length'. rewrite !length_app, Hmm, Hss. simpl. lia. }
  rewrite Hh, Hm, Hs, Hl. reflexivity.
Qed.

Lemma parse_format_hms T :
  0 <= T -> parse_timestamp (format_hms (hms_of_millis T)) = T.
Proof.
  intros HT. rewrite format_hms_fields by exact HT.
  pose proof (Z.mod_pos_bound T 3600000 ltac:(lia)).
  pose proof (Z.mod_pos_bound T 60000 ltac:(lia)).
  pose proof (Z.mod_pos_bound T 1000 ltac:(lia)).
  rewrite parse_timestamp_fields by reflexivity.
  rewrite undec_hours by (apply Z.div_pos; lia).
  rewrite !undec_two_digits
    by (split; [apply Z.div_pos | apply Z.div_lt_upper_bound]; lia).
  rewrite undec_three_digits by lia.
  pose proof (Z.div_mod T 3600000 ltac:(lia)) as Hd1.
  pose proof (Z.div_mod (T mod 3600000) 60000 ltac:(lia)) as Hd2.
  rewrite (Z.mod_mod_divide T 3600000 60000) in Hd2 by (exists 60; lia).
  pose proof (Z.div_mod (T mod 60000) 1000 ltac:(lia)) as Hd3.
  rewrite (Z.mod_mod_divide T 60000 1000) in Hd3 by (exists 60; lia).
  lia.
Qed.

(** X1.  A timestamp can be read back: whenever [format_timestamp s]
    returns a text, the hours, minutes, seconds and milliseconds in it add
    up to [max(0, round(s * 1000.0))] milliseconds; below 100 hours the
    text has exactly 12 characters. *)
Theorem format_timestamp_read_back (s : float) (t : pystr) :
  format_timestamp s = ok t ->
  exists r : Z,
    py_round (F64.mul s f1000_0) = ok r /\
    parse_timestamp t = Z.max 0 r /\
    (Z.max 0 r < 360000000 -> length t = 12%nat).
Proof.
  unfold format_timestamp. intros Hrun.
  destruct (py_round (F64.mul s f1000_0)) as [e|r]; [discriminate|].
  exists r. split; [reflexivity|].
  unfold rbind, ok in Hrun. cbv zeta in Hrun.
  assert (Ht : t = format_hms (hms_of_millis (Z.max 0 r))) by congruence.
  clear Hrun. subst t.
  split; [apply parse_format_hms; lia|].
  intros Hlt. rewrite format_hms_fields by lia.
  assert (0 <= Z.max 0 r / 3600000 < 100)
    by (split; [apply Z.div_pos | apply Z.div_lt_upper_bound]; lia).
  rewrite fmt_0d_two_digits by lia. reflexivity.
Qed.

Lemma format_timestamp_read_back_witness :
  exists r : Z,
    py_round (F64.mul (F64.lit 36615 1) f1000_0) = ok r /\
    parse_timestamp (py "01:01:01.500") = Z.max 0 r.
Proof.
  destruct (format_timestamp_read_back (F64.lit 36615 1) (py "01:01:01.500"))
    as (r & Hr & Hp & _); [vm_compute; reflexivity|].
  exists r. split; assumption.
Defined.

End TimestampReader.

(** ** normalize_text *)

Section Split.

Implicit Types (s cur w : pystr) (c : N).

Lemma split_go_nil cur : cur <> [] -> split_go cur [] = [cur].
Proof. destruct cur; [congruence | reflexivity]. Qed.

Lemma split_go_space cur c s :
  is_space c = true -> cur <> [] ->
  split_go cur (c :: s) = cur :: split_go [] s.
Proof. intros Hc Hcur. simpl. rewrite Hc. destruct cur; congruence. Qed.

(** Reading a whitespace-free stretch extends the current word. *)
Lemma split_go_app_word cur w s :
  forallb (fun c => negb (is_space c)) w = true ->
  split_go cur (w ++ s) = split_go (cur ++ w) s.
Proof.
  revert cur. induction w as [|c w IH]; intros cur Hw.
  - rewrite app_nil_r. reflexivity.
  - simpl in Hw. apply andb_prop in Hw as [Hc Hw].
    simpl. destruct (is_space c); [discriminate|].
    rewrite IH by exact Hw. rewrite <- app_assoc. reflexivity.
Qed.

Lemma split_join (ws : list pystr) :
  Forall is_word ws -> split (join (py " ") ws) = ws.
Proof.
  unfold split. induction 1 as [|w ws [Hne Hw] Hws IH]; [reflexivity|].
  destruct ws as [|w' ws].
  - simpl. rewrite <- (app_nil_r w) at 1.
    rewrite split_go_app_word by exact Hw. apply split_go_nil, Hne.
  - change (join (py " ") (w :: w' :: ws))
      with (w ++ 32%N :: join (py " ") (w' :: ws)).
    rewrite split_go_app_word by exact Hw. simpl app at 1.
    rewrite split_go_space by (reflexivity || exact Hne).
    rewrite IH. reflexivity.
Qed.

Lemma split_go_words cur s :
  forallb (fun c => negb (is_space c)) cur = true ->
  Forall is_word (split_go cur s).
Proof.
  revert cur. induction s as [|c s IH]; intros cur Hcur.
  - destruct cur; [constructor|].
    simpl. constructor; [|constructor]. split; [congruence | exact Hcur].
  - simpl. destruct (is_space c) eqn:Hc.
    + destruct cur as [|a cur]; [apply IH; reflexivity|].
      constructor; [split; [congruence | exact Hcur] | apply IH; reflexivity].
    + apply IH. rewrite forallb_app, Hcur. simpl. rewrite Hc. reflexivity.
Qed.

Lemma split_words s : Forall is_word (split s).
Proof. apply split_go_words. reflexivity. Qed.

(** *** [strip] does not change the words *)

Lemma split_go_lstrip s : split_go [] (lstrip s) = split_go [] s.
Proof.
  unfold lstrip. induction s as [|c s IH]; [reflexivity|].
  simpl. destruct (is_space c) eqn:Hc; [exact IH|].
  simpl. rewrite Hc. reflexivity.
Qed.

Lemma split_go_snoc_space cur s c :
  is_space c = true -> split_go cur (s ++ [c]) = split_go cur s.
Proof.
  intros Hc. revert cur. induction s as [|a s IH]; intros cur.
  - simpl. rewrite Hc. destruct cur; reflexivity.
  - simpl. destruct (is_space a); [destruct cur|]; rewrite ?IH; reflexivity.
Qed.

Lemma rstrip_snoc s c :
  rstrip (s ++ [c]) = if is_space c then rstrip s else s ++ [c].
Proof.
  unfold rstrip. rewrite reverse_snoc. simpl.
  destruct (is_space c); [reflexivity|].
  rewrite reverse_cons, reverse_involutive. reflexivity.
Qed.

Lemma rstrip_nil : rstrip [] = [].
Proof. reflexivity. Qed.

Lemma split_go_rstrip cur s : split_go cur (rstrip s) = split_go cur s.
Proof.
  induction s as [|c s IH] using rev_ind; [reflexivity|].
  rewrite rstrip_snoc. destruct (is_space c) eqn:Hc; [|reflexivity].
  rewrite split_go_snoc_space by exact Hc. exact IH.
Qed.

Lemma split_strip s : split (strip s) = split s.
Proof.
  unfold split, strip. rewrite split_go_rstrip. apply split_go_lstrip.
Qed.

(** *** The shape of a stripped string *)

(** [rstrip] removes a whitespace suffix. *)
Lemma rstrip_prefix s :
  exists w, s = rstrip s ++ w /\ forallb is_space w = true.
Proof.
  induction s as [|c s IH] using rev_ind.
  - exists []. split; reflexivity.
  - rewrite rstrip_snoc. destruct (is_space c) eqn:Hc.
    + destruct IH as [w [Hs Hw]]. exists (w ++ [c]). split.
      * rewrite app_assoc, <- Hs. reflexivity.
      * rewrite forallb_app, Hw. simpl. rewrite Hc. reflexivity.
    + exists []. split; [rewrite app_nil_r; reflexivity | reflexivity].
Qed.

Lemma rstrip_ends_nonspace s : ends_nonspace (rstrip s).
Proof.
  unfold ends_nonspace.
  induction s as [|c s IH] using rev_ind; [exact I|].
  rewrite rstrip_snoc. destruct (is_space c) eqn:Hc; [exact IH|].
  rewrite last_snoc. exact Hc.
Qed.

Lemma lstrip_starts_nonspace s : starts_nonspace (lstrip s).
Proof.
  unfold starts_nonspace, lstrip. induction s as [|c s IH]; [exact I|].
  simpl. destruct (is_space c) eqn:Hc; [exact IH | exact Hc].
Qed.

Lemma strip_ends_nonspace s : ends_nonspace (strip s).
Proof. apply rstrip_ends_nonspace. Qed.

Lemma strip_starts_nonspace s : starts_nonspace (strip s).
Proof.
  unfold strip. pose proof (lstrip_starts_nonspace s) as Hl.
  destruct (rstrip_prefix (lstrip s)) as [w [Hs _]].
  unfold starts_nonspace in *.
  destruct (rstrip (lstrip s)) as [|a r]; [exact I|].
  rewrite Hs in Hl. exact Hl.
Qed.

Lemma lstrip_all_space s : forallb is_space s = true -> lstrip s = [].
Proof.
  unfold lstrip. induction s as [|c s IH]; [reflexivity|].
  simpl. intros H. apply andb_prop in H as [Hc Hs].
  rewrite Hc. apply IH, Hs.
Qed.

End Split.

Section Normalize.

Implicit Types (s cur t : pystr) (c : N).

Lemma ends_nonspace_tail c t : ends_nonspace (c :: t) -> ends_nonspace t.
Proof.
  unfold ends_nonspace. rewrite last_cons.
  destruct (last t); [tauto | intros _; exact I].
Qed.

Lemma ends_nonspace_single c : ends_nonspace [c] -> is_space c = false.
Proof. unfold ends_nonspace. simpl. tauto. Qed.

Lemma split_go_nonempty cur t :
  ends_nonspace t -> t <> [] \/ cur <> [] -> split_go cur t <> [].
Proof.
  revert cur. induction t as [|c t IH]; intros cur Hend Hne.
  - destruct Hne as [?|Hcur]; [congruence|].
    rewrite split_go_nil by exact Hcur. discriminate.
  - simpl. destruct (is_space c) eqn:Hc.
    + destruct cur; [|discriminate].
      apply IH; [eapply ends_nonspace_tail, Hend|].
      left. intros ->. apply ends_nonspace_single in Hend. congruence.
    + apply IH; [eapply ends_nonspace_tail, Hend|].
      right. destruct cur; discriminate.
Qed.

Lemma join_cons sep (p : pystr) (ps : list pystr) :
  ps <> [] -> join sep (p :: ps) = p ++ sep ++ join sep ps.
Proof. destruct ps; [congruence | reflexivity]. Qed.

(** Joining the words read from [t] replays [t] with its whitespace runs
    collapsed; a run at the start of [t] separates [cur] from the next
    word, or is dropped when there is no current word. *)
Lemma join_split_go cur t :
  ends_nonspace t ->
  join (py " ") (split_go cur t) = cur ++ collapse_runs (is_empty cur) t.
Proof.
  revert cur. induction t as [|c t IH]; intros cur Hend.
  - simpl. rewrite app_nil_r. destruct cur; reflexivity.
  - pose proof (ends_nonspace_tail _ _ Hend) as Hend'.
    simpl. destruct (is_space c) eqn:Hc.
    + assert (Ht : t <> []).
      { intros ->. apply ends_nonspace_single in Hend. congruence. }
      destruct cur as [|a cur].
      * rewrite IH by exact Hend'. reflexivity.
      * rewrite join_cons by (apply split_go_nonempty; auto).
        rewrite IH by exact Hend'. reflexivity.
    + rewrite IH by exact Hend'.
      replace (is_empty (cur ++ [c])) with false by (destruct cur; reflexivity).
      rewrite <- app_assoc. destruct cur; reflexivity.
Qed.

Lemma collapse_runs_start t :
  starts_nonspace t -> collapse_runs true t = collapse_runs false t.
Proof.
  destruct t as [|c t]; [reflexivity|].
  unfold starts_nonspace. simpl. intros ->. reflexivity.
Qed.

Lemma join_words_nonempty (w : pystr) (ws : list pystr) :
  is_word w -> join (py " ") (w :: ws) <> [].
Proof.
  intros [Hne _]. destruct w; [congruence|]. destruct ws; discriminate.
Qed.

Lemma word_ends_nonspace (w : pystr) : is_word w -> ends_nonspace w.
Proof.
  intros [Hne Hw]. unfold ends_nonspace.
  destruct w as [|a w _] using rev_ind; [congruence|].
  rewrite last_snoc. rewrite forallb_app in Hw.
  apply andb_prop in Hw as [_ Hw]. simpl in Hw.
  destruct (is_space a); [discriminate | reflexivity].
Qed.

Lemma join_words_ends_nonspace (ws : list pystr) :
  Forall is_word ws -> ends_nonspace (join (py " ") ws).
Proof.
  induction 1 as [|w ws Hw Hws IH]; [exact I|].
  destruct Hws as [|w' ws Hw' Hws].
  - apply word_ends_nonspace, Hw.
  - rewrite join_cons by discriminate.
    pose proof (join_words_nonempty w' ws Hw') as Hne.
    unfold ends_nonspace in *. rewrite !last_app.
    destruct (last (join (py " ") (w' :: ws))) eqn:Hl; [exact IH|].
    apply last_None in Hl. congruence.
Qed.

Lemma normalize_text_join (v : option pystr) :
  normalize_text v = join (py " ") (split (or_empty v)).
Proof. unfold normalize_text. rewrite split_strip. reflexivity. Qed.

End Normalize.

(** C5.  [normalize_text] returns its argument ([""] for [None]) with
    leading and trailing whitespace removed and every internal run of
    whitespace collapsed to one space: it agrees with the specification's
    normalizer, it is the input's words joined by single spaces, [None],
    the empty string and every all-whitespace string yield [""], and
    ["  a   b\n c "] yields ["a b c"]. *)
Theorem normalize_text_spec :
  (forall v : option pystr, normalize_text v = spec_normalize (or_empty v)) /\
  (forall v : option pystr,
     Forall is_word (split (or_empty v)) /\
     normalize_text v = join (py " ") (split (or_empty v)) /\
     split (normalize_text v) = split (or_empty v) /\
     starts_nonspace (normalize_text v) /\
     ends_nonspace (normalize_text v)) /\
  normalize_text None = [] /\
  normalize_text (Some []) = [] /\
  (forall s : pystr, forallb is_space s = true -> normalize_text (Some s) = []) /\
  normalize_text (Some (py "  a   b" ++ nl ++ py " c ")) = py "a b c".
Proof.
  assert (Hspec : forall v, normalize_text v = spec_normalize (or_empty v)).
  { intros v. unfold normalize_text, spec_normalize, split.
    rewrite join_split_go by apply strip_ends_nonspace.
    simpl. apply collapse_runs_start, strip_starts_nonspace. }
  split; [exact Hspec|].
  split.
  { intros v. split; [apply split_words|].
    split; [apply normalize_text_join|].
    split; [rewrite normalize_text_join; apply split_join, split_words|].
    split.
    - rewrite Hspec. unfold spec_normalize.
      pose proof (strip_starts_nonspace (or_empty v)) as Hs.
      unfold starts_nonspace in *.
      destruct (strip (or_empty v)) as [|c t]; [exact I|].
      simpl in *. rewrite Hs. exact Hs.
    - rewrite normalize_text_join. apply join_words_ends_nonspace, split_words. }
  split; [reflexivity|]. split; [reflexivity|].
  split; [|vm_compute; reflexivity].
  intros s Hs. unfold normalize_text, strip. simpl or_empty.
  rewrite lstrip_all_space by exact Hs. reflexivity.
Qed.

Lemma normalize_text_spec_witness :
  forallb is_space (py "   ") = true /\ normalize_text (Some (py "   ")) = [].
Proof.
  split; [reflexivity|].
  apply (proj1 (proj2 (proj2 (proj2 (proj2 normalize_text_spec))))).
  reflexivity.
Defined.

Lemma normalize_text_idem (v : option pystr) :
  normalize_text (Some (normalize_text v)) = normalize_text v.
Proof.
  rewrite (normalize_text_join (Some _)). simpl or_empty.
  rewrite (normalize_text_join v).
  rewrite split_join by apply split_words. reflexivity.
Qed.

(** C10.  [normalize_text] is idempotent. *)
Theorem normalize_text_idempotent (s : option pystr) :
  normalize_text (Some (normalize_text s)) = normalize_text s.
Proof. apply normalize_text_idem. Qed.

(** ** More on normalize_text and the segments that are skipped *)

Section Spacing.

Implicit Types (s t cur : pystr) (v : option pystr).

Lemma single_spaced_collapse (flag : bool) t :
  single_spaced flag (collapse_runs flag t) = true.
Proof.
  revert flag. induction t as [|c t IH]; intros flag; [reflexivity|].
  simpl. destruct (is_space c) eqn:Hc.
  - destruct flag; [apply IH|].
    simpl. replace (is_space 32) with true by reflexivity.
    simpl. apply IH.
  - simpl. rewrite Hc. apply IH.
Qed.

Lemma collapse_runs_length (flag : bool) t :
  (length (collapse_runs flag t) <= length t)%nat.
Proof.
  revert flag. induction t as [|c t IH]; intros flag; [reflexivity|].
  pose proof (IH true). pose proof (IH false).
  simpl. destruct (is_space c); [destruct flag|]; simpl; lia.
Qed.

Lemma drop_while_length {A} (p : A -> bool) (l : list A) :
  (length (drop_while p l) <= length l)%nat.
Proof.
  induction l as [|x l IH]; [reflexivity|].
  simpl. destruct (p x); simpl; lia.
Qed.

Lemma strip_length s : (length (strip s) <= length s)%nat.
Proof.
  unfold strip, rstrip, lstrip.
  rewrite length_reverse.
  etransitivity; [apply drop_while_length|].
  rewrite length_reverse. apply drop_while_length.
Qed.

(** No word is read from whitespace alone, and conversely. *)
Lemma split_go_nil_iff cur s :
  split_go cur s = [] <-> cur = [] /\ forallb is_space s = true.
Proof.
  revert cur. induction s as [|c s IH]; intros cur.
  - simpl. destruct cur; split; intros H; try discriminate; auto.
    destruct H; discriminate.
  - simpl. destruct (is_space c) eqn:Hc.
    + destruct cur as [|a cur].
      * rewrite IH. simpl. tauto.
      * split; [discriminate | intros [? _]; discriminate].
    + rewrite IH. split.
      * intros [Hcur _]. destruct cur; discriminate.
      * intros [_ ?]. discriminate.
Qed.

Lemma join_words_nil (ws : list pystr) :
  Forall is_word ws -> join (py " ") ws = [] -> ws = [].
Proof.
  intros Hws Hj. destruct Hws as [|w ws Hw _]; [reflexivity|].
  exfalso. eapply join_words_nonempty; eassumption.
Qed.

Lemma normalize_text_nil_iff v :
  normalize_text v = [] <-> forallb is_space (or_empty v) = true.
Proof.
  rewrite normalize_text_join. split.
  - intros Hj. apply join_words_nil in Hj; [|apply split_words].
    apply split_go_nil_iff in Hj. tauto.
  - intros Hs. unfold split.
    replace (split_go [] (or_empty v)) with (@nil pystr); [reflexivity|].
    symmetry. apply split_go_nil_iff. auto.
Qed.


(** X2.  In the text [normalize_text] returns, whitespace never comes first
    or last, never follows whitespace, and is always the character U+0020;
    the text is never longer than its argument. *)
Theorem normalize_text_single_spaced v :
  single_spaced true (normalize_text v) = true /\
  ends_nonspace (normalize_text v) /\
  (length (normalize_text v) <= length (or_empty v))%nat.
Proof.
  assert (Hspec : normalize_text v = collapse_runs true (strip (or_empty v))).
  { unfold normalize_text, split.
    rewrite join_split_go by apply strip_ends_nonspace. reflexivity. }
  split; [|split].
  - rewrite Hspec. apply single_spaced_collapse.
  - rewrite normalize_text_join. apply join_words_ends_nonspace, split_words.
  - rewrite Hspec. etransitivity; [apply collapse_runs_length|].
    apply strip_length.
Qed.

End Spacing.

(** ** Binary64 addition *)

Section FloatRound.

Lemma iter_pos_iter {A} (f : A -> A) (n : positive) (x : A) :
  SpecFloat.iter_pos f n x = Pos.iter f x n.
Proof.
  revert x. induction n as [n IH|n IH|]; intros x; simpl.
  - rewrite !IH, !Pos.iter_swap. reflexivity.
  - rewrite !IH. reflexivity.
  - reflexivity.
Qed.

Lemma iter_pos_nat {A} (f : A -> A) (n : positive) (x : A) :
  SpecFloat.iter_pos f n x = Nat.iter (Pos.to_nat n) f x.
Proof. rewrite iter_pos_iter. apply Pos2Nat.inj_iter. Qed.

Lemma digits2_size (p : positive) : digits2_pos p = Pos.size p.
Proof. induction p; simpl; congruence. Qed.

(** The number of binary digits of [p]. *)
Lemma digits2_bounds (p : positive) :
  2 ^ (Z.pos (digits2_pos p) - 1) <= Z.pos p < 2 ^ Z.pos (digits2_pos p).
Proof.
  rewrite digits2_size.
  pose proof (Pos.size_gt p) as Hgt. pose proof (Pos.size_le p) as Hle.
  apply Pos2Z.pos_lt_pos in Hgt. apply Pos2Z.pos_le_pos in Hle.
  rewrite Pos2Z.inj_pow in Hgt, Hle.
  change (Z.pos p~0) with (2 * Z.pos p) in Hle.
  assert (Hpow : 2 ^ Z.pos (Pos.size p) = 2 * 2 ^ (Z.pos (Pos.size p) - 1)).
  { rewrite <- Z.pow_succ_r by lia. f_equal. lia. }
  lia.
Qed.

Lemma digits2_unique (p : positive) (k : Z) :
  2 ^ (k - 1) <= Z.pos p < 2 ^ k -> Z.pos (digits2_pos p) = k.
Proof.
  intros [Hlo Hhi]. pose proof (digits2_bounds p) as [Hlo' Hhi'].
  set (d := Z.pos (digits2_pos p)) in *.
  assert (0 < k).
  { destruct (Z.lt_trichotomy k 0) as [?|[->|?]]; [|simpl in Hhi; lia|lia].
    rewrite (Z.pow_neg_r 2 k) in Hhi by lia. lia. }
  destruct (Z.lt_trichotomy d k) as [Hlt|[Heq|Hgt]]; [|exact Heq|].
  - assert (2 ^ d <= 2 ^ (k - 1)) by (apply Z.pow_le_mono_r; lia). lia.
  - assert (2 ^ k <= 2 ^ (d - 1)) by (apply Z.pow_le_mono_r; lia). lia.
Qed.

Lemma digits2_ge (p : positive) (k : Z) :
  2 ^ (k - 1) <= Z.pos p -> k <= Z.pos (digits2_pos p).
Proof.
  intros Hlo. pose proof (digits2_bounds p) as [_ Hhi].
  destruct (Z.le_gt_cases k (Z.pos (digits2_pos p))) as [?|Hgt]; [assumption|].
  assert (2 ^ Z.pos (digits2_pos p) <= 2 ^ (k - 1))
    by (apply Z.pow_le_mono_r; lia).
  lia.
Qed.

Lemma digits2_le (p : positive) (k : Z) :
  0 <= k -> Z.pos p < 2 ^ k -> Z.pos (digits2_pos p) <= k.
Proof.
  intros Hk Hhi. pose proof (digits2_bounds p) as [Hlo _].
  destruct (Z.le_gt_cases (Z.pos (digits2_pos p)) k) as [?|Hgt]; [assumption|].
  assert (2 ^ k <= 2 ^ (Z.pos (digits2_pos p) - 1))
    by (apply Z.pow_le_mono_r; lia).
  lia.
Qed.

(** Shifting left. *)
Lemma iter_xO (m d : positive) :
  Z.pos (Pos.iter xO m d) = Z.pos m * 2 ^ Z.pos d.
Proof.
  induction d as [|d IH] using Pos.peano_ind.
  - simpl. lia.
  - rewrite Pos.iter_succ, Pos2Z.inj_xO, IH, Pos2Z.inj_succ, Z.pow_succ_r by lia.
    lia.
Qed.

(** *** Shifting right with round and sticky bits *)

Lemma shr_1_spec (m : Z) (r s : bool) :
  0 <= m ->
  shr_1 (Build_shr_record m r s) = Build_shr_record (m / 2) (Z.odd m) (r || s).
Proof.
  intros Hm. rewrite <- Z.div2_div.
  destruct m as [|[p|p|]|p]; try reflexivity. lia.
Qed.

Lemma shr_iter (n : nat) (m : Z) :
  0 <= m ->
  Nat.iter (S n) shr_1 (Build_shr_record m false false) =
    Build_shr_record (m / 2 ^ Z.of_nat (S n)) (Z.odd (m / 2 ^ Z.of_nat n))
      (negb (m mod 2 ^ Z.of_nat n =? 0)).
Proof.
  intros Hm. induction n as [|n IH].
  - rewrite Nat.iter_succ. cbn [Nat.iter nat_rect].
    rewrite shr_1_spec by exact Hm.
    change (2 ^ Z.of_nat 1) with 2. change (2 ^ Z.of_nat 0) with 1.
    rewrite Z.div_1_r, Z.mod_1_r. reflexivity.
  - rewrite Nat.iter_succ, IH.
    assert (Hp : 0 < 2 ^ Z.of_nat n) by (apply Z.pow_pos_nonneg; lia).
    assert (Hs : 2 ^ Z.of_nat (S n) = 2 ^ Z.of_nat n * 2).
    { rewrite Nat2Z.inj_succ, Z.pow_succ_r by lia. lia. }
    assert (Hss : 2 ^ Z.of_nat (S (S n)) = 2 ^ Z.of_nat (S n) * 2).
    { rewrite (Nat2Z.inj_succ (S n)), Z.pow_succ_r by lia. lia. }
    rewrite shr_1_spec by (apply Z.div_pos; lia).
    rewrite Z.div_div by lia. rewrite <- Hss. f_equal.
    rewrite Hs, Z.rem_mul_r by lia.
    rewrite (Zmod_odd (m / 2 ^ Z.of_nat n)).
    pose proof (Z.mod_pos_bound m (2 ^ Z.of_nat n) Hp) as Hr.
    destruct (Z.odd (m / 2 ^ Z.of_nat n)); simpl.
    + symmetry. apply negb_true_iff, Z.eqb_neq. lia.
    + rewrite Z.mul_0_r, Z.add_0_r. reflexivity.
Qed.

(** Rounding the shifted mantissa is rounding to the nearest integer, ties
    to even. *)
Lemma round_shift (P p : positive) :
  let mrs := SpecFloat.iter_pos shr_1 p (Build_shr_record (Z.pos P) false false) in
  shr_m mrs = Z.pos P / 2 ^ Z.pos p /\
  round_nearest_even (shr_m mrs) (loc_of_shr_record mrs)
    = round_half_even_mag P (Z.neg p).
Proof.
  cbv zeta. rewrite iter_pos_nat.
  destruct (Pos2Nat.is_succ p) as [n Hn]. rewrite Hn.
  rewrite shr_iter by lia.
  assert (HS : Z.of_nat (S n) = Z.pos p) by (rewrite <- Hn; apply positive_nat_Z).
  rewrite HS. split; [reflexivity|].
  unfold round_half_even_mag. cbn [shr_m].
  assert (Hp : 0 < 2 ^ Z.of_nat n) by (apply Z.pow_pos_nonneg; lia).
  assert (Hs : 2 ^ Z.pos p = 2 ^ Z.of_nat n * 2).
  { rewrite <- HS, Nat2Z.inj_succ, Z.pow_succ_r by lia. lia. }
  set (q := Z.pos P / 2 ^ Z.pos p).
  assert (Hr : Z.pos P mod 2 ^ Z.pos p =
               Z.pos P mod 2 ^ Z.of_nat n
               + 2 ^ Z.of_nat n * (if Z.odd (Z.pos P / 2 ^ Z.of_nat n) then 1 else 0)).
  { rewrite Hs at 1. rewrite Z.rem_mul_r by lia. rewrite Zmod_odd. reflexivity. }
  rewrite Hr.
  pose proof (Z.mod_pos_bound (Z.pos P) (2 ^ Z.of_nat n) Hp) as Hb.
  destruct (Z.odd (Z.pos P / 2 ^ Z.of_nat n));
    destruct (Z.eqb_spec (Z.pos P mod 2 ^ Z.of_nat n) 0) as [H0|H0]; simpl.
  - replace (2 * _ ?= _) with Eq; [reflexivity|].
    symmetry. apply Z.compare_eq_iff. lia.
  - replace (2 * _ ?= _) with Gt; [reflexivity|].
    symmetry. apply Z.compare_gt_iff. lia.
  - replace (2 * _ ?= _) with Lt; [reflexivity|].
    symmetry. apply Z.compare_lt_iff. lia.
  - replace (2 * _ ?= _) with Lt; [reflexivity|].
    symmetry. apply Z.compare_lt_iff. lia.
Qed.

(** *** [binary_round] in closed form *)

Lemma fexp_eq (e : Z) : fexp F64.prec F64.emax e = Z.max (e - 53) (-1074).
Proof. reflexivity. Qed.

Lemma shr_pos (mrs : shr_record) (e n : Z) :
  0 < n -> shr mrs e n = (SpecFloat.iter_pos shr_1 (Z.to_pos n) mrs, e + n).
Proof. destruct n; try lia. reflexivity. Qed.

Lemma shr_nonpos (mrs : shr_record) (e n : Z) :
  n <= 0 -> shr mrs e n = (mrs, e).
Proof. destruct n; try lia; reflexivity. Qed.

(** A canonical mantissa is left as it is. *)
Lemma binary_round_aux_canonical (sx : bool) (m : positive) (e : Z) :
  Z.max (Z.pos (digits2_pos m) + e - 53) (-1074) = e ->
  e <= 971 ->
  binary_round_aux F64.prec F64.emax sx (Z.pos m) e loc_Exact
    = S754_finite sx m e.
Proof.
  intros Hcan He. unfold binary_round_aux, shr_fexp.
  cbn [Zdigits2 shr_record_of_loc]. rewrite fexp_eq, Hcan.
  rewrite shr_nonpos by lia.
  cbn [shr_m loc_of_shr_record round_nearest_even Zdigits2 shr_record_of_loc].
  rewrite fexp_eq, Hcan. rewrite shr_nonpos by lia. cbn [shr_m].
  replace (e <=? F64.emax - F64.prec) with true; [reflexivity|].
  symmetry. apply Z.leb_le. unfold F64.emax, F64.prec. lia.
Qed.

Lemma digits2_shift (P : positive) (j : Z) :
  0 <= j ->
  Z.pos (digits2_pos (Z.to_pos (Z.pos P * 2 ^ j))) = Z.pos (digits2_pos P) + j.
Proof.
  intros Hj. pose proof (digits2_bounds P) as [Hlo Hhi].
  assert (Hp : 0 < 2 ^ j) by (apply Z.pow_pos_nonneg; lia).
  apply digits2_unique. rewrite Z2Pos.id by lia.
  replace (Z.pos (digits2_pos P) + j - 1) with (Z.pos (digits2_pos P) - 1 + j)
    by lia.
  rewrite !Z.pow_add_r by lia. nia.
Qed.

(** Few enough digits: the result is exact. *)
Lemma binary_round_exact (sx : bool) (P : positive) (e : Z) :
  let e' := Z.max (Z.pos (digits2_pos P) + e - 53) (-1074) in
  e' <= e -> e' <= 971 ->
  binary_round F64.prec F64.emax sx P e
    = S754_finite sx (Z.to_pos (Z.pos P * 2 ^ (e - e'))) e'.
Proof.
  intros e' Hle Hmax. unfold binary_round. rewrite fexp_eq. fold e'.
  unfold shl_align.
  destruct (e' - e) as [|dd|dd] eqn:Hd; [| lia |].
  - assert (e' = e) by lia.
    replace (e - e') with 0 by lia. rewrite Z.mul_1_r, Pos2Z.id.
    rewrite H.
    apply binary_round_aux_canonical; [fold e'|]; lia.
  - assert (Hdd : e - e' = Z.pos dd) by lia.
    rewrite Hdd, <- iter_xO, Pos2Z.id.
    apply binary_round_aux_canonical; [|lia].
    pose proof (digits2_shift P (Z.pos dd) ltac:(lia)) as Hs.
    rewrite <- iter_xO, Pos2Z.id in Hs. rewrite Hs.
    unfold e' in *. lia.
Qed.

(** The rounded mantissa of a number of more than 53 digits. *)
Lemma round_half_even_mag_range (P : positive) (n : positive) :
  Z.pos (digits2_pos P) = 53 + Z.pos n ->
  2 ^ 52 <= round_half_even_mag P (Z.neg n) <= 2 ^ 53.
Proof.
  intros Hd. pose proof (digits2_bounds P) as [Hlo Hhi]. rewrite Hd in Hlo, Hhi.
  replace (53 + Z.pos n - 1) with (52 + Z.pos n) in Hlo by lia.
  rewrite Z.pow_add_r in Hlo, Hhi by lia.
  assert (Hp : 0 < 2 ^ Z.pos n) by (apply Z.pow_pos_nonneg; lia).
  assert (Hq : 2 ^ 52 <= Z.pos P / 2 ^ Z.pos n < 2 ^ 53).
  { split; [apply Z.div_le_lower_bound | apply Z.div_lt_upper_bound]; lia. }
  unfold round_half_even_mag.
  destruct (2 * (Z.pos P mod 2 ^ Z.pos n) ?= 2 ^ Z.pos n);
    [destruct (Z.even _)| |]; lia.
Qed.

(** More than 53 digits: the mantissa is rounded to 53 digits, to nearest
    even, and renormalized when the rounding carries. *)
Lemma binary_round_inexact (sx : bool) (P : positive) (e : Z) (n : positive) :
  Z.pos (digits2_pos P) = 53 + Z.pos n ->
  -1074 <= e -> e + Z.pos n + 1 <= 971 ->
  binary_round F64.prec F64.emax sx P e =
    if round_half_even_mag P (Z.neg n) =? 2 ^ 53
    then S754_finite sx (2 ^ 52)%positive (e + Z.pos n + 1)
    else S754_finite sx (Z.to_pos (round_half_even_mag P (Z.neg n)))
           (e + Z.pos n).
Proof.
  intros Hd He Hmax.
  pose proof (round_half_even_mag_range P n Hd) as Hrange.
  unfold binary_round. rewrite fexp_eq, Hd.
  replace (Z.max (53 + Z.pos n + e - 53) (-1074)) with (e + Z.pos n) by lia.
  unfold shl_align.
  replace (e + Z.pos n - e) with (Z.pos n) by lia.
  unfold binary_round_aux, shr_fexp. cbn [Zdigits2 shr_record_of_loc].
  rewrite fexp_eq, Hd.
  replace (Z.max (53 + Z.pos n + e - 53) (-1074) - e) with (Z.pos n) by lia.
  rewrite shr_pos by lia. rewrite Pos2Z.id.
  destruct (round_shift P n) as [_ Hround]. cbv zeta in Hround.
  rewrite Hround. clear Hround.
  set (m2 := round_half_even_mag P (Z.neg n)) in *.
  destruct (Z.eqb_spec m2 (2 ^ 53)) as [Heq|Hne].
  - rewrite Heq. change (2 ^ 53) with (Z.pos (2 ^ 53)).
    cbn [Zdigits2]. rewrite fexp_eq.
    replace (Z.pos (digits2_pos (2 ^ 53))) with 54 by reflexivity.
    replace (Z.max (54 + (e + Z.pos n) - 53) (-1074) - (e + Z.pos n)) with 1
      by lia.
    rewrite shr_pos by lia. cbn [Z.to_pos SpecFloat.iter_pos shr_record_of_loc].
    rewrite shr_1_spec by lia. cbn [shr_m].
    replace (Z.pos (2 ^ 53) / 2) with (Z.pos (2 ^ 52)) by reflexivity.
    replace (e + Z.pos n + 1 <=? F64.emax - F64.prec) with true; [reflexivity|].
    symmetry. apply Z.leb_le. unfold F64.emax, F64.prec. lia.
  - assert (Hpos : m2 = Z.pos (Z.to_pos m2)) by (rewrite Z2Pos.id; lia).
    assert (Hdig : Z.pos (digits2_pos (Z.to_pos m2)) = 53).
    { apply digits2_unique. rewrite <- Hpos. simpl Z.sub. lia. }
    rewrite Hpos at 1 2. cbn [Zdigits2]. rewrite fexp_eq, Hdig.
    rewrite shr_nonpos by lia. cbn [shr_m shr_record_of_loc].
    replace (e + Z.pos n <=? F64.emax - F64.prec) with true; [reflexivity|].
    symmetry. apply Z.leb_le. unfold F64.emax, F64.prec. lia.
Qed.

Lemma shl_align_fst (m : positive) (e e' : Z) :
  e' <= e -> Z.pos (fst (shl_align m e e')) = Z.pos m * 2 ^ (e - e').
Proof.
  intros Hle. unfold shl_align.
  destruct (e' - e) as [|d|d] eqn:Hd; [| lia |]; cbn [fst].
  - replace (e - e') with 0 by lia. lia.
  - rewrite iter_xO. f_equal. f_equal. lia.
Qed.

Lemma bounded_canonical (m : positive) (e : Z) :
  bounded F64.prec F64.emax m e = true ->
  Z.max (Z.pos (digits2_pos m) + e - 53) (-1074) = e /\ e <= 971.
Proof.
  unfold bounded, canonical_mantissa. rewrite fexp_eq.
  intros H. apply andb_prop in H as [Hc He].
  apply Z.eqb_eq in Hc. apply Z.leb_le in He.
  unfold F64.emax, F64.prec in He. lia.
Qed.

(** Whatever its digits, a positive integer below the overflow threshold
    rounds to a finite non-zero float of the requested sign. *)
Lemma binary_round_finite (sx : bool) (P : positive) (e : Z) :
  -1074 <= e -> Z.pos (digits2_pos P) + e <= 1000 ->
  exists m e', binary_round F64.prec F64.emax sx P e = S754_finite sx m e'.
Proof.
  intros He Hd.
  destruct (Z.le_gt_cases (Z.pos (digits2_pos P)) 53) as [Hs|Hl].
  - eexists _, _. apply binary_round_exact; lia.
  - assert (Hn : Z.pos (digits2_pos P) = 53 + Z.pos (Z.to_pos (Z.pos (digits2_pos P) - 53)))
      by (rewrite Z2Pos.id; lia).
    rewrite (binary_round_inexact sx P e _ Hn He) by lia.
    destruct (_ =? _); eexists _, _; reflexivity.
Qed.

(** *** Comparison of finite floats of one sign *)

Lemma ltb_pos_pos (m1 : positive) (e1 : Z) (m2 : positive) (e2 : Z) :
  e1 < e2 \/ (e1 = e2 /\ Z.pos m1 < Z.pos m2) ->
  SFltb (S754_finite false m1 e1) (S754_finite false m2 e2) = true.
Proof.
  unfold SFltb, SFcompare. intros [Hlt|[-> Hlt]].
  - apply Z.compare_lt_iff in Hlt. rewrite Hlt. reflexivity.
  - rewrite Z.compare_refl.
    change (Pos.compare_cont Eq m1 m2) with (Pos.compare m1 m2).
    assert (H : (m1 ?= m2)%positive = Lt) by (apply Pos.compare_lt_iff; lia).
    rewrite H. reflexivity.
Qed.

Lemma ltb_pos_pos_inv (m1 : positive) (e1 : Z) (m2 : positive) (e2 : Z) :
  SFltb (S754_finite false m1 e1) (S754_finite false m2 e2) = true ->
  e1 < e2 \/ (e1 = e2 /\ Z.pos m1 < Z.pos m2).
Proof.
  unfold SFltb, SFcompare.
  change (Pos.compare_cont Eq m1 m2) with (Pos.compare m1 m2).
  destruct (Z.compare_spec e1 e2) as [He|He|He]; [|left; exact He|discriminate].
  destruct (Pos.compare_spec m1 m2) as [Hm|Hm|Hm]; try discriminate.
  intros _. right. split; [exact He | lia].
Qed.

Lemma ltb_neg_neg (m1 : positive) (e1 : Z) (m2 : positive) (e2 : Z) :
  e2 < e1 \/ (e1 = e2 /\ Z.pos m2 < Z.pos m1) ->
  SFltb (S754_finite true m1 e1) (S754_finite true m2 e2) = true.
Proof.
  unfold SFltb, SFcompare. intros [Hlt|[-> Hlt]].
  - apply Z.compare_gt_iff in Hlt. rewrite Hlt. reflexivity.
  - rewrite Z.compare_refl.
    change (Pos.compare_cont Eq m1 m2) with (Pos.compare m1 m2).
    assert (H : (m1 ?= m2)%positive = Gt) by (apply Pos.compare_gt_iff; lia).
    rewrite H. reflexivity.
Qed.

(** *** Adding 0.2 *)

Lemma pow2_le_53 (k : Z) : 0 <= k <= 53 -> 1 <= 2 ^ k <= 2 ^ 53.
Proof.
  intros Hk. split.
  - pose proof (Z.pow_pos_nonneg 2 k). lia.
  - apply Z.pow_le_mono_r; lia.
Qed.

Lemma add_0_2_gt_pos (mx : positive) (ex : Z) :
  bounded F64.prec F64.emax mx ex = true ->
  Z.pos (digits2_pos mx) + ex <= 51 ->
  F64.ltb (S754_finite false mx ex) (F64.add (S754_finite false mx ex) f0_2)
    = true.
Proof.
  intros Hb Hsmall. destruct (bounded_canonical _ _ Hb) as [Hcan _].
  pose proof (digits2_bounds mx) as [Hlo Hhi].
  rewrite f0_2_eq. unfold F64.ltb, F64.add, SFadd.
  set (mc := 7205759403792794%positive).
  set (ez := Z.min ex (-55)).
  cbn [cond_Zopp].
  rewrite !shl_align_fst by (subst ez; lia).
  assert (Hx : 0 < Z.pos mx * 2 ^ (ex - ez))
    by (pose proof (Z.pow_pos_nonneg 2 (ex - ez)); subst ez; lia).
  assert (Hc : 0 < Z.pos mc * 2 ^ (-55 - ez))
    by (pose proof (Z.pow_pos_nonneg 2 (-55 - ez)); subst ez; lia).
  set (M := Z.pos mx * 2 ^ (ex - ez) + Z.pos mc * 2 ^ (-55 - ez)) in *.
  assert (HM : M = Z.pos (Z.to_pos M)) by (rewrite Z2Pos.id; lia).
  rewrite HM. cbn [binary_normalize].
  set (pM := Z.to_pos M) in *.
  pose proof (digits2_bounds pM) as [HMlo HMhi]. rewrite <- HM in HMlo, HMhi.
  destruct (Z.le_gt_cases (-55) ex) as [HA|HB].
  - (* the exponent of 0.2 is the smaller one *)
    assert (Hez : ez = -55) by (subst ez; lia).
    assert (Hd : Z.pos (digits2_pos mx) = 53) by lia.
    rewrite Hd in Hlo, Hhi. simpl Z.sub in Hlo.
    set (k := ex + 55).
    assert (Hk : 0 <= k <= 53) by (subst k; lia).
    pose proof (pow2_le_53 k Hk) as HAk.
    assert (HMeq : M = Z.pos mx * 2 ^ k + Z.pos mc).
    { subst M. rewrite Hez. replace (ex - -55) with k by (subst k; lia).
      replace (-55 - -55) with 0 by lia. lia. }
    assert (Hdlo : 53 + k <= Z.pos (digits2_pos pM)).
    { apply digits2_ge. rewrite <- HM, HMeq.
      replace (53 + k - 1) with (52 + k) by lia.
      rewrite Z.pow_add_r by lia. nia. }
    assert (Hdlo' : 54 <= Z.pos (digits2_pos pM)).
    { apply digits2_ge. rewrite <- HM, HMeq. simpl Z.sub. subst mc. nia. }
    assert (Hdhi : Z.pos (digits2_pos pM) <= 54 + k).
    { apply digits2_le; [lia|]. rewrite <- HM, HMeq.
      rewrite Z.pow_add_r by lia. subst mc. nia. }
    set (n := Z.to_pos (Z.pos (digits2_pos pM) - 53)).
    assert (Hn : Z.pos (digits2_pos pM) = 53 + Z.pos n)
      by (subst n; rewrite Z2Pos.id; lia).
    rewrite (binary_round_inexact false pM ez n Hn) by lia.
    pose proof (round_half_even_mag_nearest pM n) as Hnear.
    pose proof (round_half_even_mag_range pM n Hn) as Hrange.
    destruct (Z.eqb_spec (round_half_even_mag pM (Z.neg n)) (2 ^ 53)) as [Hcarry|Hnc].
    + apply ltb_pos_pos. left. lia.
    + apply ltb_pos_pos.
      destruct (Z.eq_dec (Z.pos n) k) as [Hnk|Hnk]; [right|left; lia].
      split; [lia|].
      rewrite Z2Pos.id by lia.
      rewrite Hnk, <- HM, HMeq in Hnear.
      set (m2 := round_half_even_mag pM (Z.neg n)) in *.
      assert (2 * (Z.pos mx * 2 ^ k + Z.pos mc - m2 * 2 ^ k) <= 2 ^ k) by lia.
      subst mc. nia.
  - (* the exponent of the start is the smaller one *)
    assert (Hez : ez = ex) by (subst ez; lia).
    set (j := -55 - ex).
    assert (Hj : 1 <= j) by (subst j; lia).
    assert (HBj : 2 <= 2 ^ j).
    { change 2 with (2 ^ 1) at 1. apply Z.pow_le_mono_r; lia. }
    assert (HMeq : M = Z.pos mx + Z.pos mc * 2 ^ j).
    { subst M. rewrite Hez. replace (ex - ex) with 0 by lia.
      fold j. lia. }
    assert (Hmx : Z.pos mx < 2 ^ 53).
    { eapply Z.lt_le_trans; [exact Hhi|]. apply Z.pow_le_mono_r; lia. }
    assert (Hdlo : 53 + j <= Z.pos (digits2_pos pM)).
    { apply digits2_ge. rewrite <- HM, HMeq.
      replace (53 + j - 1) with (52 + j) by lia.
      rewrite Z.pow_add_r by lia. subst mc. nia. }
    assert (Hdhi : Z.pos (digits2_pos pM) <= 54 + j).
    { apply digits2_le; [lia|]. rewrite <- HM, HMeq.
      rewrite Z.pow_add_r by lia. subst mc. nia. }
    set (n := Z.to_pos (Z.pos (digits2_pos pM) - 53)).
    assert (Hn : Z.pos (digits2_pos pM) = 53 + Z.pos n)
      by (subst n; rewrite Z2Pos.id; lia).
    rewrite (binary_round_inexact false pM ez n Hn) by (subst j; lia).
    destruct (_ =? _); apply ltb_pos_pos; left; subst j; lia.
Qed.

Lemma ltb_neg_pos (m1 : positive) (e1 : Z) (y : float) :
  (exists m2 e2, y = S754_finite false m2 e2) ->
  SFltb (S754_finite true m1 e1) y = true.
Proof. intros (m2 & e2 & ->). reflexivity. Qed.

Lemma add_0_2_gt_neg (mx : positive) (ex : Z) :
  bounded F64.prec F64.emax mx ex = true ->
  Z.pos (digits2_pos mx) + ex <= 51 ->
  F64.ltb (S754_finite true mx ex) (F64.add (S754_finite true mx ex) f0_2)
    = true.
Proof.
  intros Hb Hsmall. destruct (bounded_canonical _ _ Hb) as [Hcan _].
  pose proof (digits2_bounds mx) as [Hlo Hhi].
  rewrite f0_2_eq. unfold F64.ltb, F64.add, SFadd.
  set (mc := 7205759403792794%positive).
  set (ez := Z.min ex (-55)).
  cbn [cond_Zopp].
  rewrite !shl_align_fst by (subst ez; lia).
  set (M := - (Z.pos mx * 2 ^ (ex - ez)) + Z.pos mc * 2 ^ (-55 - ez)).
  assert (Hmx : Z.pos mx < 2 ^ 53).
  { eapply Z.lt_le_trans; [exact Hhi|]. apply Z.pow_le_mono_r; lia. }
  destruct (Z.le_gt_cases (-55) ex) as [HA|HB].
  - (* the exponent of 0.2 is the smaller one *)
    assert (Hez : ez = -55) by (subst ez; lia).
    assert (Hd : Z.pos (digits2_pos mx) = 53) by lia.
    rewrite Hd in Hlo. simpl Z.sub in Hlo.
    set (k := ex + 55).
    assert (Hk : 0 <= k <= 53) by (subst k; lia).
    pose proof (pow2_le_53 k Hk) as HAk.
    assert (HMeq : M = Z.pos mc - Z.pos mx * 2 ^ k).
    { subst M. rewrite Hez. replace (ex - -55) with k by (subst k; lia).
      replace (-55 - -55) with 0 by lia. lia. }
    destruct M as [|pM|pP] eqn:HM; cbn [binary_normalize].
    + reflexivity.
    + apply ltb_neg_pos, binary_round_finite; [lia|].
      assert (Z.pos (digits2_pos pM) <= 53)
        by (apply digits2_le; [lia | subst mc; nia]).
      lia.
    + assert (HP : Z.pos pP = Z.pos mx * 2 ^ k - Z.pos mc) by lia.
      pose proof (digits2_bounds pP) as [HPlo HPhi].
      assert (Hdhi : Z.pos (digits2_pos pP) <= 53 + k).
      { apply digits2_le; [lia|]. rewrite HP, Z.pow_add_r by lia. nia. }
      destruct (Z.le_gt_cases (Z.pos (digits2_pos pP)) 53) as [Hs|Hl].
      * rewrite binary_round_exact by lia.
        replace (Z.max (Z.pos (digits2_pos pP) + ez - 53) (-1074))
          with (Z.pos (digits2_pos pP) - 108) by lia.
        apply ltb_neg_neg.
        destruct (Z.eq_dec (Z.pos (digits2_pos pP)) (53 + k)) as [He|He];
          [right|left; subst k; lia].
        assert (k = 0) by lia.
        split; [subst k; lia|].
        replace (ez - (Z.pos (digits2_pos pP) - 108)) with 0 by lia.
        rewrite Z.mul_1_r, Pos2Z.id, HP. replace k with 0 by lia. lia.
      * set (n := Z.to_pos (Z.pos (digits2_pos pP) - 53)).
        assert (Hn : Z.pos (digits2_pos pP) = 53 + Z.pos n)
          by (subst n; rewrite Z2Pos.id; lia).
        rewrite (binary_round_inexact true pP ez n Hn) by lia.
        pose proof (round_half_even_mag_nearest pP n) as Hnear.
        pose proof (round_half_even_mag_range pP n Hn) as Hrange.
        set (m2 := round_half_even_mag pP (Z.neg n)) in *.
        assert (HNk : Z.pos n <= k) by lia.
        assert (HN : 1 <= 2 ^ Z.pos n <= 2 ^ 53) by (apply pow2_le_53; lia).
        assert (Hup : 2 * (m2 * 2 ^ Z.pos n - Z.pos pP) <= 2 ^ Z.pos n) by lia.
        assert (Hsame : Z.pos n = k -> m2 < Z.pos mx).
        { intros Hnk. rewrite Hnk, HP in Hup. subst mc. nia. }
        destruct (Z.eqb_spec m2 (2 ^ 53)) as [Hcarry|Hnc]; apply ltb_neg_neg.
        -- destruct (Z.eq_dec (Z.pos n) k) as [Hnk|Hnk];
             [specialize (Hsame Hnk); lia|].
           destruct (Z.eq_dec (Z.pos n) (k - 1)) as [Hnk1|Hnk1];
             [right|left; subst k; lia].
           split; [subst k; lia|].
           change (Z.pos (2 ^ 52)) with (2 ^ 52).
           assert (Hpk : 2 ^ k = 2 * 2 ^ Z.pos n).
           { replace k with (Z.succ (Z.pos n)) by lia.
             rewrite Z.pow_succ_r by lia. reflexivity. }
           assert (HN' : 2 ^ Z.pos n <= 2 ^ 52)
             by (apply Z.pow_le_mono_r; lia).
           rewrite Hcarry, HP, Hpk in Hup.
           destruct (Z.eq_dec (Z.pos mx) (2 ^ 52)) as [Heq|Hneq]; [|lia].
           exfalso. rewrite Heq in Hup. subst mc. lia.
        -- destruct (Z.eq_dec (Z.pos n) k) as [Hnk|Hnk];
             [right|left; subst k; lia].
           split; [subst k; lia|].
           rewrite Z2Pos.id by lia. auto.
  - (* the exponent of the start is the smaller one: the sum is positive *)
    assert (Hez : ez = ex) by (subst ez; lia).
    set (j := -55 - ex).
    assert (Hj : 1 <= j) by (subst j; lia).
    assert (HBj : 2 <= 2 ^ j).
    { change 2 with (2 ^ 1) at 1. apply Z.pow_le_mono_r; lia. }
    assert (HMeq : M = Z.pos mc * 2 ^ j - Z.pos mx).
    { subst M. rewrite Hez. replace (ex - ex) with 0 by lia.
      fold j. lia. }
    destruct M as [|pM|pP] eqn:HM; [subst mc; nia| |subst mc; nia].
    cbn [binary_normalize].
    apply ltb_neg_pos, binary_round_finite; [lia|].
    assert (Z.pos (digits2_pos pM) <= 53 + j).
    { apply digits2_le; [lia|]. rewrite Z.pow_add_r by lia. subst mc. nia. }
    subst j. lia.
Qed.

Lemma of_Z_2p51 : F64.of_Z (2 ^ 51) = S754_finite false (2 ^ 52) (-1).
Proof. vm_compute. reflexivity. Qed.

(** Below [2^51] in magnitude, adding [0.2] gives a larger double. *)
Lemma add_0_2_gt (s : float) :
  F64.valid s = true ->
  F64.ltb (F64.abs s) (F64.of_Z (2 ^ 51)) = true ->
  F64.ltb s (F64.add s f0_2) = true.
Proof.
  intros Hv Hs. rewrite of_Z_2p51 in Hs.
  destruct s as [sx|sx| |sx mx ex]; try discriminate Hs.
  - rewrite f0_2_eq. reflexivity.
  - assert (Hb : bounded F64.prec F64.emax mx ex = true) by exact Hv.
    destruct (bounded_canonical _ _ Hb) as [Hcan _].
    pose proof (digits2_bounds mx) as [Hlo Hhi].
    assert (Hsmall : Z.pos (digits2_pos mx) + ex <= 51).
    { apply ltb_pos_pos_inv in Hs as [He|[He Hm]]; [lia|].
      rewrite Pos2Z.inj_pow in Hm.
      assert (Z.pos (digits2_pos mx) <= 52) by (apply digits2_le; lia).
      lia. }
    destruct sx; [apply add_0_2_gt_neg | apply add_0_2_gt_pos]; assumption.
Qed.

End FloatRound.

(** ** The cue builder *)

Section Cues.

Implicit Types (seg : segment) (segs : list segment) (c : cue).

Lemma build_step_spec (cues : list cue) seg :
  build_step cues seg = cues ++ option_list (spec_cue_of seg).
Proof.
  unfold build_step, spec_cue_of.
  destruct (normalize_text (seg_text seg)) as [|a t]; simpl.
  - rewrite app_nil_r. reflexivity.
  - destruct (seg_start seg), (seg_end seg); reflexivity.
Qed.

Lemma fold_build_step segs (cues : list cue) :
  fold_left build_step segs cues = cues ++ omap spec_cue_of segs.
Proof.
  revert cues. induction segs as [|seg segs IH]; intros cues; simpl.
  - rewrite app_nil_r. reflexivity.
  - rewrite IH, build_step_spec.
    destruct (spec_cue_of seg); simpl; rewrite <- ?app_assoc; reflexivity.
Qed.

Lemma build_cues_omap segs : build_cues segs = omap spec_cue_of segs.
Proof. unfold build_cues. rewrite fold_build_step. reflexivity. Qed.

Lemma spec_cue_of_Some seg c :
  spec_cue_of seg = Some c ->
  cue_text c = normalize_text (seg_text seg) /\
  cue_text c <> [] /\
  cue_start c = given_start seg /\
  cue_end c =
    (if F64.leb (given_end seg) (given_start seg)
     then F64.add (given_start seg) f0_2 else given_end seg).
Proof.
  unfold spec_cue_of, given_end, given_start.
  destruct (normalize_text (seg_text seg)) as [|a t] eqn:Ht; [discriminate|].
  intros [= <-]. unfold cue_text, cue_start, cue_end. simpl.
  destruct (seg_start seg), (seg_end seg); simpl; repeat split; discriminate.
Qed.

(** Every cue comes from a segment of the stream. *)
Lemma build_cues_elem segs c :
  c ∈ build_cues segs ->
  exists seg, seg ∈ segs /\ spec_cue_of seg = Some c.
Proof.
  rewrite build_cues_omap, list_elem_of_omap. intros [seg [? ?]]. eauto.
Qed.

(** *** Float comparison *)

Lemma SFcompare_antisym (a b : float) :
  SFcompare b a = option_map CompOpp (SFcompare a b).
Proof.
  destruct a as [sa|sa| |sa ma ea], b as [sb|sb| |sb mb eb]; simpl;
    try reflexivity; try (destruct sa; reflexivity);
    try (destruct sb; reflexivity); try (destruct sa, sb; reflexivity).
  change (Pos.compare_cont Eq mb ma) with (Pos.compare mb ma).
  change (Pos.compare_cont Eq ma mb) with (Pos.compare ma mb).
  rewrite (Z.compare_antisym ea eb), (Pos.compare_antisym ma mb).
  destruct sa, sb; try reflexivity; f_equal;
    destruct (ea ?= eb); simpl; try reflexivity;
    destruct (Pos.compare ma mb); reflexivity.
Qed.

(** Apart from NaN, [not (b <= a)] is [a < b]. *)
Lemma not_leb_ltb (a b : float) :
  F64.is_nan a = false -> F64.is_nan b = false ->
  F64.leb b a = false -> F64.ltb a b = true.
Proof.
  unfold F64.leb, F64.ltb, SFleb, SFltb. intros Ha Hb.
  rewrite (SFcompare_antisym a b).
  destruct (SFcompare a b) as [[| |]|] eqn:Hc; simpl; try congruence.
  destruct a, b; simpl in *; try discriminate; destruct s; discriminate.
Qed.

Lemma repaired_end_gt seg c :
  timing_ok seg -> spec_cue_of seg = Some c ->
  F64.ltb (cue_start c) (cue_end c) = true.
Proof.
  intros (Hv & Hs & He) Hc.
  apply spec_cue_of_Some in Hc as (_ & _ & -> & ->).
  destruct (F64.leb (given_end seg) (given_start seg)) eqn:Hle.
  - apply add_0_2_gt; assumption.
  - apply not_leb_ltb; try assumption.
    destruct (given_start seg); try reflexivity. discriminate Hs.
Qed.

End Cues.

(** C2.  The cue builder handles the segments in stream order; each
    segment whose normalized text is non-empty contributes the cue
    [(start, end, text)] with [start] as given (default [0.0]), [end] as
    given (default [start]) and replaced by [start + 0.2] when
    [end <= start]; the other segments contribute nothing.  So the cue
    texts are the non-empty normalized texts in their original order;
    [start=1.0, end=1.0] gives [end=1.2], and [start=2.0] without an end
    gives [end=2.2]. *)
Theorem build_cues_spec :
  (forall segs : list segment, build_cues segs = omap spec_cue_of segs) /\
  (forall (segs : list segment) (seg : segment),
     build_cues (segs ++ [seg]) = build_step (build_cues segs) seg) /\
  (forall segs : list segment,
     cue_text <$> build_cues segs =
       filter (fun t => t <> [])
         ((fun seg => normalize_text (seg_text seg)) <$> segs)) /\
  build_cues [Segment (Some (py "a")) (Some (F64.of_Z 1)) (Some (F64.of_Z 1))]
    = [(F64.of_Z 1, F64.lit 12 1, py "a")] /\
  build_cues [Segment (Some (py "a")) (Some (F64.of_Z 2)) None]
    = [(F64.of_Z 2, F64.lit 22 1, py "a")] /\
  build_cues [Segment (Some (py " x ")) None (Some (F64.of_Z 1));
              Segment (Some (py "  ")) (Some (F64.of_Z 1)) (Some (F64.of_Z 2));
              Segment (Some (py "y")) (Some (F64.of_Z 2)) (Some (F64.of_Z 3))]
    = [(f0_0, F64.of_Z 1, py "x"); (F64.of_Z 2, F64.of_Z 3, py "y")].
Proof.
  split; [exact build_cues_omap|].
  split.
  { intros segs seg. unfold build_cues. rewrite fold_left_app. reflexivity. }
  split; [|repeat split; vm_compute; reflexivity].
  intros segs. rewrite build_cues_omap.
  induction segs as [|seg segs IH]; [reflexivity|].
  rewrite fmap_cons, filter_cons.
  change (omap spec_cue_of (seg :: segs))
    with (match spec_cue_of seg with
          | Some c => c :: omap spec_cue_of segs
          | None => omap spec_cue_of segs
          end).
  destruct (spec_cue_of seg) as [c|] eqn:Hc.
  - apply spec_cue_of_Some in Hc as (Ht & Hne & _).
    rewrite <- Ht. rewrite decide_True by exact Hne.
    rewrite fmap_cons. f_equal. exact IH.
  - unfold spec_cue_of in Hc.
    destruct (normalize_text (seg_text seg)); [|discriminate].
    rewrite decide_False by (intros H; apply H; reflexivity). exact IH.
Qed.

(** ** More on the cue builder *)

Section CuesMore.

Implicit Types (seg : segment) (segs : list segment) (c : cue).

Lemma spec_cue_of_None seg : spec_cue_of seg = None <-> blank seg = true.
Proof.
  unfold blank. rewrite <- normalize_text_nil_iff. unfold spec_cue_of.
  destruct (normalize_text (seg_text seg)); split; intros H;
    try reflexivity; discriminate.
Qed.

Lemma ltb_not_leb (a b : float) : F64.ltb a b = true -> F64.leb b a = false.
Proof.
  unfold F64.ltb, F64.leb, SFltb, SFleb. rewrite (SFcompare_antisym a b).
  destruct (SFcompare a b) as [[| |]|]; simpl; congruence.
Qed.

(** A well-formed cue, taken as a segment, is its own cue. *)
Lemma spec_cue_of_cue c :
  cue_text c <> [] ->
  normalize_text (Some (cue_text c)) = cue_text c ->
  F64.ltb (cue_start c) (cue_end c) = true ->
  spec_cue_of (segment_of_cue c) = Some c.
Proof.
  destruct c as [[start end_] text]. unfold cue_text, cue_start, cue_end.
  simpl. intros Hne Hnorm Hlt.
  unfold spec_cue_of, segment_of_cue, cue_text, cue_start, cue_end. simpl.
  rewrite Hnorm. destruct text as [|a text]; [congruence|].
  change (SFleb end_ start) with (F64.leb end_ start).
  rewrite (ltb_not_leb _ _ Hlt). reflexivity.
Qed.

(** X3.  A segment yields a cue exactly when its text has a character that
    is not whitespace, so the number of cues is the number of such
    segments, at most the number of segments. *)
Theorem build_cues_count segs :
  (forall seg, build_cues [seg] = [] <-> blank seg = true) /\
  length (build_cues segs)
    = length (filter (fun seg => blank seg = false) segs) /\
  (length (build_cues segs) <= length segs)%nat.
Proof.
  split; [|split].
  - intros seg. rewrite build_cues_omap, <- spec_cue_of_None.
    change (omap spec_cue_of [seg])
      with (match spec_cue_of seg with Some c => [c] | None => [] end).
    destruct (spec_cue_of seg); split; intros H; try reflexivity; discriminate.
  - rewrite build_cues_omap.
    induction segs as [|seg segs IH]; [reflexivity|].
    rewrite filter_cons.
    change (omap spec_cue_of (seg :: segs))
      with (match spec_cue_of seg with
            | Some c => c :: omap spec_cue_of segs
            | None => omap spec_cue_of segs
            end).
    pose proof (spec_cue_of_None seg) as Hn.
    destruct (spec_cue_of seg) as [c|].
    + destruct (blank seg) eqn:Hb; [destruct Hn as [_ Hn]; discriminate Hn; reflexivity|].
      rewrite decide_True by reflexivity. simpl. f_equal. exact IH.
    + destruct (blank seg) eqn:Hb; [|destruct Hn as [Hn _]; discriminate Hn; reflexivity].
      rewrite decide_False by discriminate. exact IH.
  - rewrite build_cues_omap.
    induction segs as [|seg segs IH]; [reflexivity|].
    change (omap spec_cue_of (seg :: segs))
      with (match spec_cue_of seg with
            | Some c => c :: omap spec_cue_of segs
            | None => omap spec_cue_of segs
            end).
    destruct (spec_cue_of seg); simpl; lia.
Qed.

(** X4.  The loop keeps nothing from one segment to the next but the list
    of cues: the cues of a stream cut in two are the cues of the first part
    followed by the cues of the second. *)
Theorem build_cues_app (segs1 segs2 : list segment) :
  build_cues (segs1 ++ segs2) = build_cues segs1 ++ build_cues segs2.
Proof. rewrite !build_cues_omap. apply omap_app. Qed.

(** X5.  The cues of segments with ordinary times (start below [2^51]
    seconds in magnitude, end not NaN) are stable: handed back to the
    builder as segments they come out unchanged. *)
Theorem build_cues_stable segs :
  Forall timing_ok segs ->
  build_cues (segment_of_cue <$> build_cues segs) = build_cues segs.
Proof.
  intros Hok.
  assert (Hcues : Forall (fun c => spec_cue_of (segment_of_cue c) = Some c)
                    (build_cues segs)).
  { apply Forall_forall. intros c Hc.
    apply build_cues_elem in Hc as (seg & Hin & Hc).
    rewrite Forall_forall in Hok.
    pose proof (repaired_end_gt seg c (Hok seg Hin) Hc) as Hlt.
    apply spec_cue_of_Some in Hc as (Ht & Hne & _).
    apply spec_cue_of_cue; [exact Hne | | exact Hlt].
    rewrite Ht. apply normalize_text_idem. }
  rewrite (build_cues_omap (segment_of_cue <$> _)).
  induction Hcues as [|c cues Hc _ IH]; [reflexivity|].
  rewrite fmap_cons.
  change (omap spec_cue_of (segment_of_cue c :: (segment_of_cue <$> cues)))
    with (match spec_cue_of (segment_of_cue c) with
          | Some c' => c' :: omap spec_cue_of (segment_of_cue <$> cues)
          | None => omap spec_cue_of (segment_of_cue <$> cues)
          end).
  rewrite Hc, IH. reflexivity.
Qed.

End CuesMore.

Lemma build_cues_stable_witness :
  build_cues
    (segment_of_cue
       <$> build_cues
             [Segment (Some (py " a  b ")) (Some (F64.of_Z 1)) (Some (F64.of_Z 1))])
  = build_cues
      [Segment (Some (py " a  b ")) (Some (F64.of_Z 1)) (Some (F64.of_Z 1))].
Proof.
  apply build_cues_stable.
  constructor; [|constructor].
  repeat split; vm_compute; reflexivity.
Defined.

(** ** Each cue and its own segment *)

Section OwnSegment.

Implicit Types (seg : segment) (segs : list segment) (c : cue).






End OwnSegment.







(** ** JSON text has no line feed *)

Section OneLine.

Implicit Types (s t : pystr).

Lemma one_line_app s t : one_line s -> one_line t -> one_line (s ++ t).
Proof. unfold one_line. intros. apply Forall_app. split; assumption. Qed.

Lemma one_line_py (lit : string) :
  forallb (fun c => negb (N.eqb c 10)) (py lit) = true -> one_line (py lit).
Proof.
  unfold one_line. intros H. apply Forall_forall. intros c Hc Heq.
  apply list_elem_of_In in Hc.
  rewrite forallb_forall in H. specialize (H c Hc). subst c. discriminate.
Qed.

Lemma one_line_digit (d : Z) : digit_char d <> 10%N.
Proof. unfold digit_char. lia. Qed.

Lemma one_line_hex_char (d : N) : hex_char d <> 10%N.
Proof. unfold hex_char. destruct (d <? 10)%N; lia. Qed.

Lemma one_line_hex4 (n : N) : one_line (hex4 n).
Proof. unfold one_line, hex4. repeat constructor; apply one_line_hex_char. Qed.

Lemma one_line_dec_digits (fuel : nat) (n : Z) (acc : pystr) :
  one_line acc -> one_line (dec_digits fuel n acc).
Proof.
  revert n acc. induction fuel as [|fuel IH]; intros n acc Hacc; [exact Hacc|].
  simpl.
  assert (Hacc' : one_line (digit_char (n mod 10) :: acc))
    by (constructor; [apply one_line_digit | exact Hacc]).
  destruct (n / 10 =? 0); [exact Hacc' | apply IH, Hacc'].
Qed.

Lemma one_line_replicate (k : nat) : one_line (replicate k 48%N).
Proof. unfold one_line. apply Forall_replicate. discriminate. Qed.

Lemma one_line_str_of_int (n : Z) : one_line (str_of_int n).
Proof.
  unfold str_of_int, fmt_0d, dec_nonneg.
  destruct (n <? 0); repeat apply one_line_app;
    try apply one_line_replicate;
    try (apply one_line_dec_digits; constructor).
  apply one_line_py. reflexivity.
Qed.

Lemma one_line_escape_char (c : N) : one_line (json_escape_char c).
Proof.
  unfold json_escape_char.
  repeat match goal with
         | |- one_line (if ?b then _ else _) => destruct b eqn:?
         end;
    try (apply one_line_py; reflexivity);
    repeat apply one_line_app;
    try apply one_line_hex4;
    try (apply one_line_py; reflexivity);
    try (repeat constructor; discriminate).
  constructor; [|constructor].
  intros ->. discriminate.
Qed.

Lemma one_line_json_string s : one_line (json_string s).
Proof.
  unfold json_string. repeat apply one_line_app;
    try (repeat constructor; discriminate).
  induction s as [|c s IH]; [constructor|].
  simpl. apply one_line_app; [apply one_line_escape_char | exact IH].
Qed.

Lemma one_line_join (sep : pystr) (parts : list pystr) :
  one_line sep -> Forall one_line parts -> one_line (join sep parts).
Proof.
  intros Hsep. induction 1 as [|p ps Hp Hps IH]; [constructor|].
  destruct ps as [|q ps]; [exact Hp|].
  change (join sep (p :: q :: ps)) with (p ++ sep ++ join sep (q :: ps)).
  repeat apply one_line_app; assumption.
Qed.

Variable E : env.

Hypothesis float_repr_one_line : forall x, one_line (float_repr E x).

Lemma one_line_json_value (v : jvalue) : one_line (json_value E v).
Proof.
  destruct v as [|s|n|x]; simpl.
  - apply one_line_py. reflexivity.
  - apply one_line_json_string.
  - apply one_line_str_of_int.
  - destruct x as [sx|sx| |sx m e]; simpl;
      try apply float_repr_one_line;
      try destruct sx; apply one_line_py; reflexivity.
Qed.

Lemma one_line_json_dumps (p : payload) : one_line (json_dumps E p).
Proof.
  unfold json_dumps. repeat apply one_line_app;
    try (apply one_line_py; reflexivity).
  apply one_line_join; [apply one_line_py; reflexivity|].
  apply Forall_forall. intros item Hitem.
  apply list_elem_of_fmap in Hitem as [kv [-> _]].
  unfold json_item.
  apply one_line_app; [apply one_line_json_string|].
  apply one_line_app; [apply one_line_py; reflexivity|].
  apply one_line_json_value.
Qed.

End OneLine.

(** ** The JSON texts are ASCII *)

Section Ascii.

Implicit Types (s t : pystr).

Lemma ascii_app s t :
  ascii_printable s -> ascii_printable t -> ascii_printable (s ++ t).
Proof. unfold ascii_printable. intros. apply Forall_app. split; assumption. Qed.

Lemma ascii_py (lit : string) :
  forallb (fun c => (32 <=? c) && (c <=? 126))%N (py lit) = true ->
  ascii_printable (py lit).
Proof.
  unfold ascii_printable. intros H. apply Forall_forall. intros c Hc.
  apply list_elem_of_In in Hc.
  rewrite forallb_forall in H. specialize (H c Hc).
  apply andb_prop in H as [H1 H2].
  apply N.leb_le in H1. apply N.leb_le in H2. lia.
Qed.

Lemma ascii_hex_char (d : N) : (d < 16 -> 32 <= hex_char d <= 126)%N.
Proof. unfold hex_char. destruct (d <? 10)%N; lia. Qed.

Lemma ascii_hex4 (n : N) : ascii_printable (hex4 n).
Proof.
  unfold ascii_printable, hex4.
  repeat constructor; apply ascii_hex_char; apply N.mod_lt; discriminate.
Qed.

Lemma ascii_dec_digits (fuel : nat) (n : Z) (acc : pystr) :
  ascii_printable acc -> ascii_printable (dec_digits fuel n acc).
Proof.
  revert n acc. induction fuel as [|fuel IH]; intros n acc Hacc; [exact Hacc|].
  simpl.
  assert (Hacc' : ascii_printable (digit_char (n mod 10) :: acc)).
  { constructor; [|exact Hacc]. unfold digit_char.
    pose proof (Z.mod_pos_bound n 10 ltac:(lia)). lia. }
  destruct (n / 10 =? 0); [exact Hacc' | apply IH, Hacc'].
Qed.

Lemma ascii_str_of_int (n : Z) : ascii_printable (str_of_int n).
Proof.
  unfold str_of_int, fmt_0d, dec_nonneg.
  destruct (n <? 0); repeat apply ascii_app;
    try (apply Forall_replicate; lia);
    try (apply ascii_dec_digits; constructor).
  apply ascii_py. reflexivity.
Qed.

(** Every character becomes itself, when printable ASCII other than the
    quote and the backslash, or an escape made of printable ASCII. *)
Lemma ascii_escape_char (c : N) : ascii_printable (json_escape_char c).
Proof.
  unfold json_escape_char.
  repeat match goal with
         | |- ascii_printable (if ?b then _ else _) => destruct b eqn:?
         end;
    try (apply ascii_py; reflexivity);
    repeat apply ascii_app;
    try apply ascii_hex4;
    try (apply ascii_py; reflexivity);
    try (repeat constructor; lia).
  constructor; [|constructor].
  match goal with
  | H : (_ && _)%bool = true |- _ => apply andb_prop in H as [H1 H2]
  end.
  apply N.leb_le in H1. apply N.leb_le in H2. lia.
Qed.

Lemma ascii_json_string s : ascii_printable (json_string s).
Proof.
  unfold json_string. repeat apply ascii_app;
    try (repeat constructor; lia).
  induction s as [|c s IH]; [constructor|].
  simpl. apply ascii_app; [apply ascii_escape_char | exact IH].
Qed.

Lemma Forall_join (P : N -> Prop) (sep : pystr) (parts : list pystr) :
  Forall P sep -> Forall (Forall P) parts -> Forall P (join sep parts).
Proof.
  intros Hsep. induction 1 as [|p ps Hp Hps IH]; [constructor|].
  destruct ps as [|q ps]; [exact Hp|].
  change (join sep (p :: q :: ps)) with (p ++ sep ++ join sep (q :: ps)).
  repeat (apply Forall_app; split); assumption.
Qed.

Lemma ascii_printable_lines s : ascii_printable s -> ascii_lines s.
Proof.
  intros Hs. eapply Forall_impl; [exact Hs|]. intros c Hc. left. exact Hc.
Qed.

Variable E : env.

Hypothesis float_repr_ascii : forall x, ascii_printable (float_repr E x).

Lemma ascii_json_item (kv : pystr * jvalue) : ascii_printable (json_item E kv).
Proof.
  unfold json_item.
  apply ascii_app; [apply ascii_json_string|].
  apply ascii_app; [apply ascii_py; reflexivity|].
  destruct kv.2 as [|s|n|x]; simpl.
  - apply ascii_py. reflexivity.
  - apply ascii_json_string.
  - apply ascii_str_of_int.
  - destruct x as [sx|sx| |sx m e]; simpl;
      try apply float_repr_ascii;
      try destruct sx; apply ascii_py; reflexivity.
Qed.

(** X11.  Whatever the strings of the record hold (a detected language, a
    path or a model name in any script), the JSON line for standard
    output is made of printable ASCII only, and the indented JSON text for
    the metadata file of printable ASCII and line feeds only, as
    [ensure_ascii=True] asks, provided [repr] of a finite float is ASCII. *)
Theorem json_texts_ascii (p : payload) :
  ascii_printable (json_dumps E p) /\ ascii_lines (json_dump_indent2 E p).
Proof.
  assert (Hitems : Forall ascii_printable (map (json_item E) p)).
  { apply Forall_forall. intros item Hitem.
    apply list_elem_of_fmap in Hitem as [kv [-> _]]. apply ascii_json_item. }
  split.
  - unfold json_dumps. repeat apply ascii_app;
      try (apply ascii_py; reflexivity).
    apply Forall_join; [apply ascii_py; reflexivity | exact Hitems].
  - unfold json_dump_indent2. destruct p as [|kv p].
    { apply ascii_printable_lines, ascii_py. reflexivity. }
    assert (Hnl : ascii_lines nl) by (constructor; [right; reflexivity | constructor]).
    unfold ascii_lines in *.
    repeat (apply Forall_app; split);
      try exact Hnl;
      try (apply ascii_printable_lines, ascii_py; reflexivity).
    apply Forall_join.
    + repeat (apply Forall_app; split);
        try exact Hnl;
        try (apply ascii_printable_lines, ascii_py; reflexivity).
    + eapply Forall_impl; [exact Hitems|].
      intros item. apply ascii_printable_lines.
Qed.

End Ascii.

Lemma json_texts_ascii_witness :
  let E := example_env (raise (Exn RuntimeError [])) in
  ascii_printable
    (json_dumps E
       [(py "language", JStr [1575; 1604; 1593; 1585; 1576; 1610; 1577]%N);
        (py "model", JStr [128512; 34; 10]%N);
        (py "duration_seconds", JFloat S754_nan)]).
Proof.
  intros E. apply (json_texts_ascii E).
  intros x. apply ascii_py. reflexivity.
Defined.

(** ** The texts of the subtitle file *)

Section Texts.

Implicit Types (s t : pystr) (cues : list cue).

Lemma unlines_app (l1 l2 : list pystr) :
  unlines (l1 ++ l2) = unlines l1 ++ unlines l2.
Proof. unfold unlines. rewrite map_app, concat_app. reflexivity. Qed.

Lemma blocks_imap (k : nat) (cues : list cue) :
  unlines (concat (imap (fun i c => vtt_cue_lines (Z.of_nat (k + i) + 1) c) cues))
    = blocks (Z.of_nat k + 1) cues.
Proof.
  revert k. induction cues as [|c cues IH]; intros k; [reflexivity|].
  rewrite imap_cons, concat_cons, unlines_app. cbn [blocks].
  f_equal; [rewrite Nat.add_0_r; reflexivity|].
  replace (Z.of_nat k + 1 + 1) with (Z.of_nat (S k) + 1) by lia.
  rewrite <- IH. f_equal. f_equal. apply imap_ext.
  intros i x _. simpl. f_equal. lia.
Qed.

Lemma unlines_vtt_lines (cues : list cue) :
  unlines (vtt_lines cues) = py "WEBVTT" ++ nl ++ nl ++ blocks 1 cues.
Proof.
  unfold vtt_lines. rewrite unlines_app.
  change (blocks 1 cues) with (blocks (Z.of_nat 0 + 1) cues).
rewrite <- (blocks_imap 0 cues). reflexivity.
Qed.

Lemma format_timestamp_formattable (t : float) :
  formattable t -> format_timestamp t = ok (timestamp t).
Proof.
  intros Hf. unfold timestamp, format_timestamp.
  destruct (py_round_finite _ Hf) as [r ->]. reflexivity.
Qed.

Lemma format_timestamp_ok_formattable (t : float) text :
  format_timestamp t = inr text -> formattable t.
Proof.
  unfold format_timestamp, formattable.
  destruct (F64.mul t f1000_0); simpl; intros H;
    (reflexivity || discriminate H).
Qed.

Lemma concat_imap_length {A B} (f : nat -> A -> list B) (n : nat) (l : list A) :
  (forall i x, length (f i x) = n) ->
  length (concat (imap f l)) = (n * length l)%nat.
Proof.
  revert f. induction l as [|x l IH]; intros f Hf; [simpl; lia|].
  rewrite imap_cons, concat_cons, length_app, Hf.
  rewrite IH by (intros i y; apply Hf). simpl length. lia.
Qed.

(** Two header lines and four lines for each cue. *)
Lemma vtt_lines_length (cues : list cue) :
  length (vtt_lines cues) = (2 + 4 * length cues)%nat.
Proof.
  unfold vtt_lines. rewrite length_app.
  rewrite (concat_imap_length _ 4) by reflexivity. reflexivity.
Qed.

Lemma lines_go_line (cur l rest : pystr) :
  one_line l -> lines_go cur (l ++ 10%N :: rest) = (cur ++ l) :: lines_go [] rest.
Proof.
  intros Hl. revert cur. induction Hl as [|c l Hc Hl IH]; intros cur.
  - simpl. rewrite app_nil_r. reflexivity.
  - simpl. apply N.eqb_neq in Hc. rewrite Hc, IH, <- app_assoc. reflexivity.
Qed.

(** Lines without line feed, each ended by one, are read back as they
    were written. *)
Lemma split_lines_unlines (ls : list pystr) :
  Forall one_line ls -> split_lines (unlines ls) = ls.
Proof.
  unfold split_lines, unlines.
  induction 1 as [|l ls Hl Hls IH]; [reflexivity|].
  cbn [map concat]. unfold nl at 1. rewrite <- app_assoc. cbn [app].
  rewrite (lines_go_line [] l _ Hl), IH. reflexivity.
Qed.

Lemma one_line_fmt_0d (width : nat) (n : Z) : one_line (fmt_0d width n).
Proof.
  unfold fmt_0d, dec_nonneg.
  destruct (n <? 0); repeat apply one_line_app;
    try apply one_line_replicate;
    try (apply one_line_dec_digits; constructor).
  apply one_line_py. reflexivity.
Qed.

Lemma one_line_timestamp (t : float) : one_line (timestamp t).
Proof.
  unfold timestamp, format_timestamp.
  destruct (py_round (F64.mul t f1000_0)) as [e|r]; [constructor|].
  cbn [rbind]. unfold ok.
  destruct (hms_of_millis (Z.max 0 r)) as [[[h m] sec] ms]. unfold format_hms.
  repeat apply one_line_app;
    try apply one_line_fmt_0d; apply one_line_py; reflexivity.
Qed.

(** The only whitespace of a single-spaced text is U+0020. *)
Lemma single_spaced_one_line (flag : bool) s :
  single_spaced flag s = true -> one_line s.
Proof.
  revert flag. induction s as [|c s IH]; intros flag Hs; [constructor|].
  simpl in Hs. destruct (is_space c) eqn:Hc.
  - apply andb_prop in Hs as [Hs Hrest]. apply andb_prop in Hs as [_ H32].
    apply N.eqb_eq in H32. subst c.
    constructor; [discriminate | eapply IH, Hrest].
  - constructor; [|eapply IH, Hs].
    intros ->. discriminate Hc.
Qed.

Lemma one_line_normalize_text (v : option pystr) : one_line (normalize_text v).
Proof.
  apply (single_spaced_one_line true).
  unfold normalize_text, split.
  rewrite join_split_go by apply strip_ends_nonspace.
  apply single_spaced_collapse.
Qed.

Lemma one_line_vtt_lines cues :
  Forall (fun c => one_line (cue_text c)) cues ->
  Forall one_line (vtt_lines cues).
Proof.
  intros Hcues. unfold vtt_lines. apply Forall_app. split.
  { constructor; [apply one_line_py; reflexivity|].
    constructor; [constructor | constructor]. }
  enough (Hany : forall number : nat -> Z,
            Forall one_line
              (concat (imap (fun i c => vtt_cue_lines (number i) c) cues)))
    by apply (Hany (fun i => Z.of_nat i + 1)).
  induction Hcues as [|c cues Hc Hcues IH]; intros number; [constructor|].
  rewrite imap_cons, concat_cons. apply Forall_app.
  split; [|apply (IH (number ∘ S))].
  unfold vtt_cue_lines. repeat constructor; try assumption.
  - apply one_line_str_of_int.
  - repeat apply one_line_app;
      try apply one_line_timestamp; apply one_line_py; reflexivity.
Qed.

(** The line [j] of the block [i] in a list of blocks of [n] lines. *)
Lemma concat_imap_lookup {A B} (f : nat -> A -> list B) (n : nat)
    (l : list A) (i j : nat) (x : A) :
  (forall i x, length (f i x) = n) ->
  l !! i = Some x -> (j < n)%nat ->
  concat (imap f l) !! (n * i + j)%nat = f i x !! j.
Proof.
  intros Hlen. revert f Hlen i.
  induction l as [|y l IH]; intros f Hlen i Hi Hj; [discriminate|].
  rewrite imap_cons, concat_cons. destruct i as [|i].
  - injection Hi as ->. rewrite Nat.mul_0_r, Nat.add_0_l.
    apply lookup_app_l. rewrite Hlen. exact Hj.
  - rewrite lookup_app_r by (rewrite Hlen; lia). rewrite Hlen.
    replace (n * S i + j - n)%nat with (n * i + j)%nat by lia.
    apply (IH (f ∘ S)); [intros; apply Hlen | exact Hi | exact Hj].
Qed.

(** *** Texts the UTF-8 encoder accepts *)

Lemma encodable_app s t : encodable s -> encodable t -> encodable (s ++ t).
Proof. unfold encodable. intros. apply Forall_app. split; assumption. Qed.

Lemma encodable_app_l s t : encodable (s ++ t) -> encodable s.
Proof. unfold encodable. intros H. apply Forall_app in H. tauto. Qed.

Lemma ascii_lines_encodable s : ascii_lines s -> encodable s.
Proof.
  intros Hs. eapply Forall_impl; [exact Hs|]. intros c [Hc| ->]; lia.
Qed.

Lemma ascii_encodable s : ascii_printable s -> encodable s.
Proof. intros Hs. apply ascii_lines_encodable, ascii_printable_lines, Hs. Qed.

Lemma encodable_nl : encodable nl.
Proof. constructor; [lia | constructor]. Qed.

Lemma is_surrogate_false (c : N) :
  is_surrogate c = false <-> ~ (55296 <= c <= 57343)%N.
Proof.
  unfold is_surrogate. rewrite andb_false_iff, !N.leb_gt. lia.
Qed.

(** The encoder raises exactly on the texts that hold a surrogate. *)
Lemma encode_error_from_None (pos : Z) s :
  encode_error_from pos s = None <-> encodable s.
Proof.
  revert pos. induction s as [|c s IH]; intros pos; simpl.
  - split; [constructor | reflexivity].
  - destruct (is_surrogate c) eqn:Hc.
    + split; [discriminate|]. intros Hs. inversion Hs as [|? ? Hc' _]; subst.
      apply is_surrogate_false in Hc'. congruence.
    + rewrite IH. apply is_surrogate_false in Hc. split.
      * intros Hs. constructor; assumption.
      * intros Hs. inversion Hs; assumption.
Qed.

Lemma encode_error_None s : encode_error s = None <-> encodable s.
Proof. apply encode_error_from_None. Qed.

Lemma encode_error_from_kind (pos : Z) s (e : exn) :
  encode_error_from pos s = Some e -> exn_kind_of e = UnicodeEncodeError.
Proof.
  revert pos. induction s as [|c s IH]; intros pos; simpl; [discriminate|].
  destruct (is_surrogate c); [|apply IH].
  intros [= <-]. reflexivity.
Qed.

Lemma encode_error_kind s (e : exn) :
  encode_error s = Some e -> exn_kind_of e = UnicodeEncodeError.
Proof. apply encode_error_from_kind. Qed.

Lemma ascii_fmt_0d (width : nat) (n : Z) : ascii_printable (fmt_0d width n).
Proof.
  unfold fmt_0d, dec_nonneg.
  destruct (n <? 0); repeat apply ascii_app;
    try (apply Forall_replicate; lia);
    try (apply ascii_dec_digits; constructor).
  apply ascii_py. reflexivity.
Qed.

Lemma ascii_timestamp (t : float) : ascii_printable (timestamp t).
Proof.
  unfold timestamp, format_timestamp.
  destruct (py_round (F64.mul t f1000_0)) as [e|r]; [constructor|].
  cbn [rbind]. unfold ok.
  destruct (hms_of_millis (Z.max 0 r)) as [[[h m] sec] ms]. unfold format_hms.
  repeat apply ascii_app;
    try apply ascii_fmt_0d; apply ascii_py; reflexivity.
Qed.

(** What the writer itself puts around the cue texts is always encoded. *)
Lemma encode_error_header : encode_error (py "WEBVTT" ++ nl ++ nl) = None.
Proof. reflexivity. Qed.

Lemma encode_error_number (index : Z) :
  encode_error (str_of_int index ++ nl) = None.
Proof.
  apply encode_error_None, encodable_app; [|apply encodable_nl].
  apply ascii_encodable, ascii_str_of_int.
Qed.

Lemma encode_error_times (start end_ : pystr) :
  ascii_printable start -> ascii_printable end_ ->
  encode_error (start ++ py " --> " ++ end_ ++ nl) = None.
Proof.
  intros Hs He. apply encode_error_None.
  repeat apply encodable_app; try apply encodable_nl;
    apply ascii_encodable; try assumption.
  apply ascii_py. reflexivity.
Qed.

Lemma encode_error_text (text : pystr) :
  encode_error (text ++ nl ++ nl) = None <-> encodable text.
Proof.
  rewrite encode_error_None. split.
  - apply encodable_app_l.
  - intros Ht. repeat apply encodable_app; try apply encodable_nl. exact Ht.
Qed.

Lemma format_timestamp_timestamp (t : float) (text : pystr) :
  format_timestamp t = inr text -> timestamp t = text.
Proof. unfold timestamp. intros ->. reflexivity. Qed.

(** A cue that can be written has no failure, and conversely. *)
Lemma cue_failure_None (index : Z) (c : cue) :
  cue_failure index c = None <-> writable_cue c.
Proof.
  unfold cue_failure, writable_cue. split.
  - destruct (format_timestamp (cue_start c)) as [e|s] eqn:Hs; [discriminate|].
    destruct (format_timestamp (cue_end c)) as [e|t] eqn:Ht; [discriminate|].
    destruct (encode_error (cue_text c ++ nl ++ nl)) as [e|] eqn:He;
      [discriminate|].
    intros _. apply encode_error_text in He.
    split; [eapply format_timestamp_ok_formattable, Hs|].
    split; [eapply format_timestamp_ok_formattable, Ht | exact He].
  - intros (Hs & Ht & He).
    rewrite (format_timestamp_formattable _ Hs).
    rewrite (format_timestamp_formattable _ Ht). unfold ok.
    apply encode_error_text in He. rewrite He. reflexivity.
Qed.

End Texts.
(** ** The file operations *)

Section Files.

Variable E : env.

Implicit Types (path text : pystr) (w : world) (m : gmap pystr file).

Lemma mbind_ok {A B} (m : M A) (k : A -> M B) w (x : A) w' :
  m w = (inr x, w') -> mbind m k w = k x w'.
Proof. intros H. unfold mbind. rewrite H. reflexivity. Qed.

Lemma mbind_raise {A B} (m : M A) (k : A -> M B) w e w' :
  m w = (inl e, w') -> mbind m k w = (inl e, w').
Proof. intros H. unfold mbind. rewrite H. reflexivity. Qed.

Lemma handle_text_holding path (enc nwl old : pystr) m w :
  handle_text E path (holding (realpath E path) enc nwl old m w) = old.
Proof.
  unfold handle_text, holding. cbn [w_files].
  rewrite lookup_insert_eq. reflexivity.
Qed.

Lemma set_text_holding path text (enc nwl old : pystr) m w :
  set_text E path text (holding (realpath E path) enc nwl old m w)
    = holding (realpath E path) enc nwl text m w.
Proof.
  unfold set_text, set_files, holding.
  cbn [w_files w_dirs w_stdout w_stderr w_calls].
  rewrite alter_insert_eq. reflexivity.
Qed.

(** A write on an open file: the text is encoded, then appended. *)
Lemma handle_write_holding path text (enc nwl old : pystr) m w :
  handle_write E path text (holding (realpath E path) enc nwl old m w) =
    match encode_error text with
    | Some e => (raise e, holding (realpath E path) enc nwl old m w)
    | None =>
        match write_error E path (old ++ text) with
        | Some (e, kept) =>
            (raise e, holding (realpath E path) enc nwl kept m w)
        | None => (ok tt, holding (realpath E path) enc nwl (old ++ text) m w)
        end
    end.
Proof.
  unfold handle_write. rewrite handle_text_holding.
  destruct (encode_error text); [reflexivity|]. cbv zeta.
  destruct (write_error E path (old ++ text)) as [[e kept]|];
    rewrite set_text_holding; reflexivity.
Qed.

Lemma handle_close_holding path (enc nwl old : pystr) m w :
  handle_close E path (holding (realpath E path) enc nwl old m w) =
    match close_error E path old with
    | Some (e, kept) => (raise e, holding (realpath E path) enc nwl kept m w)
    | None => (ok tt, holding (realpath E path) enc nwl old m w)
    end.
Proof.
  unfold handle_close. rewrite handle_text_holding.
  destruct (close_error E path old) as [[e kept]|]; [|reflexivity].
  rewrite set_text_holding. reflexivity.
Qed.

Lemma open_w_holding path (enc nwl : pystr) w :
  open_error E path = None ->
  open_w E path enc nwl w
    = (ok tt, holding (realpath E path) enc nwl [] (w_files w) w).
Proof. intros Hopen. unfold open_w. rewrite Hopen. reflexivity. Qed.

(** The [with] block around a body that leaves the file holding
    [content]: the outcome is that of the body, unless closing fails. *)
Lemma with_open_holding path (enc nwl content : pystr) (body : M unit) w
    (rb : result unit) :
  open_error E path = None ->
  body (holding (realpath E path) enc nwl [] (w_files w) w)
    = (rb, holding (realpath E path) enc nwl content (w_files w) w) ->
  with_open E path enc nwl body w =
    match close_error E path content with
    | Some (e, kept) =>
        (raise e, holding (realpath E path) enc nwl kept (w_files w) w)
    | None => (rb, holding (realpath E path) enc nwl content (w_files w) w)
    end.
Proof.
  intros Hopen Hbody. unfold with_open.
  rewrite (mbind_ok _ _ _ _ _ (open_w_holding path enc nwl w Hopen)).
  rewrite Hbody. destruct rb as [e|[]]; rewrite handle_close_holding;
    destruct (close_error E path content) as [[e' kept]|]; reflexivity.
Qed.

Lemma with_open_fail path (enc nwl : pystr) (body : M unit) w (e : exn) :
  open_error E path = Some e -> with_open E path enc nwl body w = (raise e, w).
Proof.
  intros Hopen. unfold with_open, mbind, open_w. rewrite Hopen. reflexivity.
Qed.

(** [ensure_parent_dir] creates a directory at most. *)
Lemma ensure_parent_dir_outcome path w (r : result unit) w' :
  ensure_parent_dir E path w = (r, w') ->
  w_files w' = w_files w /\ w_stdout w' = w_stdout w /\
  w_stderr w' = w_stderr w /\ w_calls w' = w_calls w /\
  ((r = inr tt /\ parent_ok E path) \/
   (exists e,
      r = inl e /\ w' = w /\
      is_empty (dirname E (abspath E path)) = false /\
      makedirs_error E (dirname E (abspath E path)) = Some e)).
Proof.
  unfold ensure_parent_dir, parent_ok, makedirs, mret.
  destruct (is_empty (dirname E (abspath E path))) eqn:Hp.
  - intros Hrun. apply pair_equal_spec in Hrun as [<- <-].
    repeat split. left. split; [reflexivity | discriminate].
  - destruct (makedirs_error E (dirname E (abspath E path))) as [e|] eqn:Hmk;
      intros Hrun; apply pair_equal_spec in Hrun as [<- <-]; repeat split.
    + right. exists e. repeat split.
    + left. split; [reflexivity | intros _; reflexivity].
Qed.


End Files.

(** ** write_webvtt *)

Section Writer.

Variable E : env.

Implicit Types (path text : pystr) (w : world) (m : gmap pystr file)
  (cues : list cue).

(** How the loop over the cues ends on an open file holding [old]: it
    appends the blocks of all the cues; or it stops in the block of the
    first cue that cannot be written; or the system fails to write. *)
Lemma write_cues_outcome path (index : Z) cues (enc nwl old : pystr) m w
    (r : result unit) w' :
  write_cues E path index cues (holding (realpath E path) enc nwl old m w)
    = (r, w') ->
  (r = inr tt /\ Forall writable_cue cues /\
   w' = holding (realpath E path) enc nwl (old ++ blocks index cues) m w) \/
  (exists (e : exn) (good : list cue) (bad : cue) (rest : list cue)
     (lines : list pystr),
     r = inl e /\ cues = good ++ bad :: rest /\ Forall writable_cue good /\
     cue_failure (index + Z.of_nat (length good)) bad = Some (e, lines) /\
     w' = holding (realpath E path) enc nwl
            (old ++ blocks index good ++ unlines lines) m w) \/
  (exists (e : exn) (content kept : pystr),
     r = inl e /\ write_error E path content = Some (e, kept) /\
     w' = holding (realpath E path) enc nwl kept m w).
Proof.
  revert index old. induction cues as [|[[start end_] text] cues IH];
    intros index old Hrun.
  { apply pair_equal_spec in Hrun as [<- <-]. left.
    split; [reflexivity|]. split; [constructor|].
    cbn [blocks]. rewrite app_nil_r. reflexivity. }
  cbn [write_cues] in Hrun.
  (* the number *)
  pose proof (handle_write_holding E path (str_of_int index ++ nl)
                enc nwl old m w) as H1.
  rewrite encode_error_number in H1.
  destruct (write_error E path (old ++ str_of_int index ++ nl))
    as [[e1 kept1]|] eqn:Hw1.
  { rewrite (mbind_raise _ _ _ _ _ H1) in Hrun.
    apply pair_equal_spec in Hrun as [<- <-].
    right. right. exists e1, (old ++ str_of_int index ++ nl), kept1.
    repeat split. exact Hw1. }
  rewrite (mbind_ok _ _ _ _ _ H1) in Hrun. clear H1.
  (* the times *)
  unfold mbind at 1, lift in Hrun.
  destruct (format_timestamp start) as [e2|s] eqn:Hs.
  { apply pair_equal_spec in Hrun as [<- <-].
    right. left. exists e2, [], (start, end_, text), cues, [str_of_int index].
    split; [reflexivity|]. split; [reflexivity|]. split; [constructor|].
    split.
    - unfold cue_failure, cue_start. cbn [fst snd length Z.of_nat].
      rewrite Hs, Z.add_0_r. reflexivity.
    - cbn [blocks app]. unfold unlines. cbn [map concat].
      rewrite app_nil_r. reflexivity. }
  unfold mbind at 1 in Hrun.
  destruct (format_timestamp end_) as [e3|t] eqn:Ht.
  { apply pair_equal_spec in Hrun as [<- <-].
    right. left. exists e3, [], (start, end_, text), cues, [str_of_int index].
    split; [reflexivity|]. split; [reflexivity|]. split; [constructor|].
    split.
    - unfold cue_failure, cue_start, cue_end. cbn [fst snd length Z.of_nat].
      rewrite Hs, Ht, Z.add_0_r. reflexivity.
    - cbn [blocks app]. unfold unlines. cbn [map concat].
      rewrite app_nil_r. reflexivity. }
  pose proof (format_timestamp_timestamp _ _ Hs) as Hs'.
  pose proof (format_timestamp_timestamp _ _ Ht) as Ht'.
  pose proof (handle_write_holding E path (s ++ py " --> " ++ t ++ nl)
                enc nwl (old ++ str_of_int index ++ nl) m w) as H2.
  rewrite encode_error_times in H2
    by (rewrite <- ?Hs', <- ?Ht'; apply ascii_timestamp).
  destruct (write_error E path
              ((old ++ str_of_int index ++ nl) ++ s ++ py " --> " ++ t ++ nl))
    as [[e4 kept4]|] eqn:Hw2.
  { rewrite (mbind_raise _ _ _ _ _ H2) in Hrun.
    apply pair_equal_spec in Hrun as [<- <-].
    right. right. eexists e4, _, kept4. repeat split. exact Hw2. }
  rewrite (mbind_ok _ _ _ _ _ H2) in Hrun. clear H2.
  (* the text *)
  pose proof (handle_write_holding E path (text ++ nl ++ nl) enc nwl
                ((old ++ str_of_int index ++ nl)
                   ++ s ++ py " --> " ++ t ++ nl) m w) as H3.
  destruct (encode_error (text ++ nl ++ nl)) as [e5|] eqn:He.
  { rewrite (mbind_raise _ _ _ _ _ H3) in Hrun.
    apply pair_equal_spec in Hrun as [<- <-].
    right. left.
    exists e5, [], (start, end_, text), cues,
      [str_of_int index; s ++ py " --> " ++ t].
    split; [reflexivity|]. split; [reflexivity|]. split; [constructor|].
    split.
    - unfold cue_failure, cue_start, cue_end, cue_text.
      cbn [fst snd length Z.of_nat].
      rewrite Hs, Ht, He, Z.add_0_r. reflexivity.
    - cbn [blocks app]. unfold unlines. cbn [map concat].
      rewrite app_nil_r, <- !app_assoc. reflexivity. }
  destruct (write_error E path
              (((old ++ str_of_int index ++ nl)
                  ++ s ++ py " --> " ++ t ++ nl) ++ text ++ nl ++ nl))
    as [[e6 kept6]|] eqn:Hw3.
  { rewrite (mbind_raise _ _ _ _ _ H3) in Hrun.
    apply pair_equal_spec in Hrun as [<- <-].
    right. right. eexists e6, _, kept6. repeat split. exact Hw3. }
  rewrite (mbind_ok _ _ _ _ _ H3) in Hrun. clear H3.
  (* the other cues *)
  assert (Hc : writable_cue (start, end_, text)).
  { split; [eapply format_timestamp_ok_formattable, Hs|].
    split; [eapply format_timestamp_ok_formattable, Ht|].
    apply encode_error_text, He. }
  assert (Hblock : forall rest : pystr,
            (((old ++ str_of_int index ++ nl)
                ++ s ++ py " --> " ++ t ++ nl) ++ text ++ nl ++ nl) ++ rest
            = old ++ unlines (vtt_cue_lines index (start, end_, text)) ++ rest).
  { intros rest. unfold unlines, vtt_cue_lines, cue_start, cue_end, cue_text.
    cbn [map concat fst snd]. rewrite Hs', Ht', app_nil_r, <- !app_assoc.
    reflexivity. }
  apply IH in Hrun
    as [(-> & Hcues & ->)
       |[(e & good & bad & rest & lines & -> & -> & Hgood & Hbad & ->)
        |(e & content & kept & -> & Hw & ->)]].
  - left. split; [reflexivity|]. split; [constructor; assumption|].
    rewrite Hblock. reflexivity.
  - right. left. exists e, ((start, end_, text) :: good), bad, rest, lines.
    split; [reflexivity|]. split; [reflexivity|].
    split; [constructor; assumption|]. split.
    + cbn [length]. rewrite <- Hbad. f_equal. lia.
    + rewrite Hblock. cbn [blocks]. rewrite <- !app_assoc. reflexivity.
  - right. right. exists e, content, kept. repeat split. exact Hw.
Qed.

(** How the body of the [with] block of [write_webvtt] ends. *)
Lemma webvtt_body_outcome path cues m w (r : result unit) w' :
  (exec handle_write E path (py "WEBVTT" ++ nl ++ nl);
   write_cues E path 1 cues)
    (holding (realpath E path) (py "utf-8") nl [] m w) = (r, w') ->
  exists content : pystr,
    w' = holding (realpath E path) (py "utf-8") nl content m w /\
    ((r = inr tt /\ Forall writable_cue cues /\
      content = unlines (vtt_lines cues)) \/
     (exists (e : exn) (good : list cue) (bad : cue) (rest : list cue)
        (lines : list pystr),
        r = inl e /\ cues = good ++ bad :: rest /\ Forall writable_cue good /\
        cue_failure (Z.of_nat (length good) + 1) bad = Some (e, lines) /\
        content = unlines (vtt_lines good ++ lines)) \/
     (exists (e : exn) (tried : pystr),
        r = inl e /\ write_error E path tried = Some (e, content))).
Proof.
  intros Hrun.
  pose proof (handle_write_holding E path (py "WEBVTT" ++ nl ++ nl)
                (py "utf-8") nl [] m w) as H0.
  rewrite encode_error_header in H0.
  destruct (write_error E path ([] ++ py "WEBVTT" ++ nl ++ nl))
    as [[e0 kept0]|] eqn:Hw0.
  { rewrite (mbind_raise _ _ _ _ _ H0) in Hrun.
    apply pair_equal_spec in Hrun as [<- <-].
    exists kept0. split; [reflexivity|]. right. right.
    eexists e0, _. split; [reflexivity | exact Hw0]. }
  rewrite (mbind_ok _ _ _ _ _ H0) in Hrun. clear H0.
  apply write_cues_outcome in Hrun
    as [(-> & Hcues & ->)
       |[(e & good & bad & rest & lines & -> & -> & Hgood & Hbad & ->)
        |(e & content & kept & -> & Hw & ->)]].
  - eexists. split; [reflexivity|]. left.
    split; [reflexivity|]. split; [exact Hcues|].
    rewrite unlines_vtt_lines, app_nil_l, <- !app_assoc. reflexivity.
  - eexists. split; [reflexivity|]. right. left.
    exists e, good, bad, rest, lines.
    split; [reflexivity|]. split; [reflexivity|]. split; [exact Hgood|].
    split; [rewrite <- Hbad; f_equal; lia|].
    rewrite unlines_app, unlines_vtt_lines, app_nil_l, <- !app_assoc.
    reflexivity.
  - exists kept. split; [reflexivity|]. right. right.
    exists e, content. split; [reflexivity | exact Hw].
Qed.

(** How [write_webvtt] ends, in every case. *)
Lemma write_webvtt_outcome path cues w (r : result unit) w' :
  write_webvtt E path cues w = (r, w') ->
  w_stdout w' = w_stdout w /\ w_stderr w' = w_stderr w /\
  w_calls w' = w_calls w /\
  ((r = inr tt /\ parent_ok E path /\ open_error E path = None /\
    Forall writable_cue cues /\
    w_files w' =
      <[realpath E path := File (py "utf-8") nl (unlines (vtt_lines cues))]>
        (w_files w)) \/
   (exists e : exn,
      r = inl e /\ w_files w' = w_files w /\
      ((is_empty (dirname E (abspath E path)) = false /\
        makedirs_error E (dirname E (abspath E path)) = Some e) \/
       open_error E path = Some e)) \/
   (exists (e : exn) (good : list cue) (bad : cue) (rest : list cue)
      (lines : list pystr),
      r = inl e /\ cues = good ++ bad :: rest /\ Forall writable_cue good /\
      cue_failure (Z.of_nat (length good) + 1) bad = Some (e, lines) /\
      w_files w' =
        <[realpath E path :=
            File (py "utf-8") nl (unlines (vtt_lines good ++ lines))]>
          (w_files w)) \/
   (exists (e : exn) (content kept : pystr),
      r = inl e /\
      (write_error E path content = Some (e, kept) \/
       close_error E path content = Some (e, kept)) /\
      w_files w' =
        <[realpath E path := File (py "utf-8") nl kept]> (w_files w))).
Proof.
  intros Hrun. unfold write_webvtt in Hrun.
  destruct (ensure_parent_dir E path w) as [rd w1] eqn:Hdir.
  apply ensure_parent_dir_outcome in Hdir as Hd.
  destruct Hd as (Hf1 & Ho1 & He1 & Hc1 & [[-> Hmk]|(e & -> & -> & Hp & Hmk)]).
  2: { rewrite (mbind_raise _ _ _ _ _ Hdir) in Hrun.
       apply pair_equal_spec in Hrun as [<- <-].
       repeat split. right. left. exists e.
       split; [reflexivity|]. split; [reflexivity|]. left.
       split; [exact Hp | exact Hmk]. }
  rewrite (mbind_ok _ _ _ _ _ Hdir) in Hrun.
  destruct (open_error E path) as [e|] eqn:Hopen.
  { rewrite (with_open_fail E _ _ _ _ _ e Hopen) in Hrun.
    apply pair_equal_spec in Hrun as [<- <-].
    split; [exact Ho1|]. split; [exact He1|]. split; [exact Hc1|].
    right. left. exists e.
    split; [reflexivity|]. split; [exact Hf1|]. right. reflexivity. }
  destruct ((exec handle_write E path (py "WEBVTT" ++ nl ++ nl);
             write_cues E path 1 cues)
              (holding (realpath E path) (py "utf-8") nl [] (w_files w1) w1))
    as [rb wb] eqn:Hbody.
  destruct (webvtt_body_outcome _ _ _ _ _ _ Hbody) as (content & -> & Hcase).
  rewrite (with_open_holding E _ _ _ _ _ _ _ Hopen Hbody) in Hrun.
  destruct (close_error E path content) as [[ec keptc]|] eqn:Hclose;
    apply pair_equal_spec in Hrun as [<- <-];
    unfold holding; cbn [w_files w_stdout w_stderr w_calls];
    (split; [exact Ho1|]); (split; [exact He1|]); (split; [exact Hc1|]);
    rewrite Hf1.
  { right. right. right. exists ec, content, keptc.
    split; [reflexivity|]. split; [right; exact Hclose | reflexivity]. }
  destruct Hcase
    as [(-> & Hcues & ->)
       |[(e & good & bad & rest & lines & -> & -> & Hgood & Hbad & ->)
        |(e & tried & -> & Hw)]].
  - left. repeat split; assumption.
  - right. right. left. exists e, good, bad, rest, lines. repeat split; assumption.
  - right. right. right. exists e, tried, content.
    split; [reflexivity|]. split; [left; exact Hw | reflexivity].
Qed.

(** A writer whose every step succeeds leaves the whole subtitle text in
    the file the path names. *)
Lemma write_webvtt_ok path cues w :
  parent_ok E path ->
  open_error E path = None ->
  writes_ok E path ->
  Forall writable_cue cues ->
  exists w',
    write_webvtt E path cues w = (ok tt, w') /\
    w_files w' =
      <[realpath E path := File (py "utf-8") nl (unlines (vtt_lines cues))]>
        (w_files w) /\
    w_stdout w' = w_stdout w /\ w_stderr w' = w_stderr w /\
    w_calls w' = w_calls w.
Proof.
  intros Hmk Hopen [Hwrite Hclose] Hcues.
  destruct (write_webvtt E path cues w) as [r w'] eqn:Hrun.
  destruct (write_webvtt_outcome _ _ _ _ _ Hrun)
    as (Ho & He & Hc &
        [(-> & _ & _ & _ & Hfiles)
        |[(e & -> & _ & [[Hp Hmk']|Hopen'])
         |[(e & good & bad & rest & lines & -> & -> & _ & Hbad & _)
          |(e & content & kept & -> & [Hw|Hw] & _)]]]).
  - exists w'. repeat split; assumption.
  - rewrite (Hmk Hp) in Hmk'. discriminate.
  - congruence.
  - exfalso. apply Forall_app in Hcues as [_ Hcues].
    inversion Hcues as [|? ? Hb _]; subst.
    apply (cue_failure_None (Z.of_nat (length good) + 1)) in Hb. congruence.
  - rewrite Hwrite in Hw. discriminate.
  - rewrite Hclose in Hw. discriminate.
Qed.

End Writer.

Lemma example_env_parent_ok (t : result (stream * info)) (path : pystr) :
  parent_ok (example_env t) path.
Proof. intros _. reflexivity. Qed.

Lemma example_env_writes_ok (t : result (stream * info)) (path : pystr) :
  writes_ok (example_env t) path.
Proof. split; intros content; reflexivity. Qed.

Section WriterClaims.

Variable E : env.

Implicit Types (path text : pystr) (w : world) (cues : list cue).

(** C4 (as amended).  For every output path whose parent directory can be
    created and whose file can be opened, written and closed without a
    system error, and every list of cues (the empty one included) whose
    start and end times have a finite product with [1000.0] and whose
    texts hold no surrogate, the subtitle writer leaves in the file the
    path names a text opened as UTF-8 with line ending [\n] that is, each
    line ended by [\n]: [WEBVTT], a blank line, and for each cue in order,
    numbered from 1, its number, [<start> --> <end>] in the timestamp
    format, its text verbatim and a blank line.  It changes no other file
    and prints nothing. *)
Theorem write_webvtt_spec (output_path : pystr) (cues : list cue) (w : world) :
  parent_ok E output_path ->
  open_error E output_path = None ->
  writes_ok E output_path ->
  Forall (fun c =>
            formattable (cue_start c) /\ formattable (cue_end c) /\
            encodable (cue_text c)) cues ->
  exists w',
    write_webvtt E output_path cues w = (ok tt, w') /\
    w_files w' =
      <[realpath E output_path :=
          File (py "utf-8") nl (unlines (vtt_lines cues))]>
        (w_files w) /\
    w_stdout w' = w_stdout w /\ w_stderr w' = w_stderr w /\
    w_calls w' = w_calls w /\
    unlines (vtt_lines []) = py "WEBVTT" ++ nl ++ nl.
Proof.
  intros Hmk Hopen Hwrite Hcues.
  destruct (write_webvtt_ok E output_path cues w Hmk Hopen Hwrite Hcues)
    as (w' & Hrun & Hfiles & Ho & He & Hc).
  exists w'. repeat split; assumption.
Qed.

(** What a cue that cannot be written leaves of its block. *)
Lemma cue_failure_Some (index : Z) (c : cue) (e : exn) (lines : list pystr) :
  cue_failure index c = Some (e, lines) ->
  (lines = [str_of_int index] /\
   (format_timestamp (cue_start c) = inl e \/
    formattable (cue_start c) /\ format_timestamp (cue_end c) = inl e)) \/
  (lines = [str_of_int index;
            timestamp (cue_start c) ++ py " --> " ++ timestamp (cue_end c)] /\
   formattable (cue_start c) /\ formattable (cue_end c) /\
   encode_error (cue_text c ++ nl ++ nl) = Some e /\
   exn_kind_of e = UnicodeEncodeError /\
   ~ encodable (cue_text c)).
Proof.
  unfold cue_failure.
  destruct (format_timestamp (cue_start c)) as [e1|s] eqn:Hs.
  { intros [= <- <-]. left. split; [reflexivity | left; reflexivity]. }
  pose proof (format_timestamp_ok_formattable _ _ Hs) as Hfs.
  destruct (format_timestamp (cue_end c)) as [e2|t] eqn:Ht.
  { intros [= <- <-]. left. split; [reflexivity|]. right.
    split; [exact Hfs | reflexivity]. }
  pose proof (format_timestamp_ok_formattable _ _ Ht) as Hft.
  destruct (encode_error (cue_text c ++ nl ++ nl)) as [e3|] eqn:He;
    [|discriminate].
  intros [= <- <-]. right.
  rewrite (format_timestamp_timestamp _ _ Hs), (format_timestamp_timestamp _ _ Ht).
  repeat split; try assumption.
  - eapply encode_error_kind, He.
  - intros Henc. apply encode_error_text in Henc. congruence.
Qed.

(** X9.  When the subtitle writer raises, it has printed nothing and
    touched no file but the one its path names, and one of three things
    happened.  It raised before the file was opened ([os.makedirs] or
    [open] failed): every file is as it was, the output neither created
    nor truncated.  Or it stopped at the first cue that cannot be written
    and the file is left cut: after the header and the complete blocks of
    the cues before, it holds the number of that cue when one of its times
    cannot be formatted, and the number and the line of the times when its
    text holds a surrogate, which the encoder refuses.  Or the system
    failed to write or to close the file, and the file holds what the
    system kept. *)
Theorem write_webvtt_raises path cues w (e : exn) w' :
  write_webvtt E path cues w = (inl e, w') ->
  w_stdout w' = w_stdout w /\ w_stderr w' = w_stderr w /\
  w_calls w' = w_calls w /\
  (forall name : pystr,
     name <> realpath E path -> w_files w' !! name = w_files w !! name) /\
  ((w_files w' = w_files w /\
    (makedirs_error E (dirname E (abspath E path)) = Some e \/
     open_error E path = Some e)) \/
   (exists (good : list cue) (bad : cue) (rest : list cue)
      (lines : list pystr),
      cues = good ++ bad :: rest /\
      Forall (fun c =>
                formattable (cue_start c) /\ formattable (cue_end c) /\
                encodable (cue_text c)) good /\
      (lines = [str_of_int (Z.of_nat (length good) + 1)] /\
       (format_timestamp (cue_start bad) = inl e \/
        formattable (cue_start bad) /\ format_timestamp (cue_end bad) = inl e)
       \/
       lines = [str_of_int (Z.of_nat (length good) + 1);
                timestamp (cue_start bad) ++ py " --> "
                  ++ timestamp (cue_end bad)] /\
       formattable (cue_start bad) /\ formattable (cue_end bad) /\
       encode_error (cue_text bad ++ nl ++ nl) = Some e /\
       exn_kind_of e = UnicodeEncodeError /\
       ~ encodable (cue_text bad)) /\
      w_files w' =
        <[realpath E path :=
            File (py "utf-8") nl (unlines (vtt_lines good ++ lines))]>
          (w_files w)) \/
   (exists content kept : pystr,
      (write_error E path content = Some (e, kept) \/
       close_error E path content = Some (e, kept)) /\
      w_files w' =
        <[realpath E path := File (py "utf-8") nl kept]> (w_files w))).
Proof.
  intros Hrun.
  destruct (write_webvtt_outcome _ _ _ _ _ _ Hrun)
    as (Ho & He & Hc &
        [(Hr & _)
        |[(e' & Hr & Hfiles & Hwhy)
         |[(e' & good & bad & rest & lines & Hr & -> & Hgood & Hbad & Hfiles)
          |(e' & content & kept & Hr & Hw & Hfiles)]]]);
    [discriminate Hr | | |]; injection Hr as <-;
    (split; [exact Ho|]); (split; [exact He|]); (split; [exact Hc|]);
    (split;
     [intros name Hname; rewrite Hfiles;
      try (apply lookup_insert_ne; congruence); reflexivity|]).
  - left. split; [exact Hfiles|].
    destruct Hwhy as [[_ Hmk]|Hopen]; [left | right]; assumption.
  - right. left. exists good, bad, rest, lines.
    split; [reflexivity|]. split; [exact Hgood|].
    split; [apply cue_failure_Some, Hbad | exact Hfiles].
  - right. right. exists content, kept. split; assumption.
Qed.

Lemma Forall_one_line_texts (segs : list segment) :
  Forall (fun c => one_line (cue_text c)) (build_cues segs).
Proof.
  apply Forall_forall. intros c Hc.
  apply build_cues_elem in Hc as (seg & _ & Hseg).
  apply spec_cue_of_Some in Hseg as (-> & _).
  apply one_line_normalize_text.
Qed.

(** The text of the subtitle file of the cues of the cue builder reads
    back as its lines. *)
Lemma split_lines_subtitles (segs : list segment) :
  split_lines (unlines (vtt_lines (build_cues segs)))
    = vtt_lines (build_cues segs).
Proof.
  apply split_lines_unlines, one_line_vtt_lines, Forall_one_line_texts.
Qed.

(** X12.  The subtitle file written from the cues of the cue builder
    reads back line by line: split at line feeds, its text is the header
    [WEBVTT], a blank line and exactly four lines for each cue, since a
    normalized text holds no line feed; the block of the cue at position
    [i] starts at line [2 + 4 i] with the number [i + 1], followed by the
    times, the text as the cue builder left it, and a blank line. *)
Theorem subtitle_file_lines (segs : list segment) (path : pystr) w w' :
  write_webvtt E path (build_cues segs) w = (inr tt, w') ->
  exists text : pystr,
    w_files w' !! realpath E path = Some (File (py "utf-8") nl text) /\
    split_lines text = vtt_lines (build_cues segs) /\
    length (split_lines text) = (2 + 4 * length (build_cues segs))%nat /\
    split_lines text !! 0%nat = Some (py "WEBVTT") /\
    forall (i : nat) (c : cue),
      build_cues segs !! i = Some c ->
      split_lines text !! (2 + 4 * i)%nat
        = Some (str_of_int (Z.of_nat i + 1)) /\
      split_lines text !! (2 + 4 * i + 1)%nat
        = Some (timestamp (cue_start c) ++ py " --> " ++ timestamp (cue_end c)) /\
      split_lines text !! (2 + 4 * i + 2)%nat = Some (cue_text c) /\
      split_lines text !! (2 + 4 * i + 3)%nat = Some [].
Proof.
  intros Hrun.
  destruct (write_webvtt_outcome _ _ _ _ _ _ Hrun)
    as (_ & _ & _ &
        [(_ & _ & _ & _ & Hfiles)
        |[(e & Hr & _)
         |[(e & ? & ? & ? & ? & Hr & _)|(e & ? & ? & Hr & _)]]]);
    try discriminate Hr.
  exists (unlines (vtt_lines (build_cues segs))).
  split; [rewrite Hfiles; apply lookup_insert_eq|].
  rewrite split_lines_subtitles.
  split; [reflexivity|]. split; [apply vtt_lines_length|].
  split; [reflexivity|].
  intros i c Hi. unfold vtt_lines.
  assert (Hblock : forall j : nat, (j < 4)%nat ->
            ([py "WEBVTT"; []]
               ++ concat (imap (fun i c => vtt_cue_lines (Z.of_nat i + 1) c)
                            (build_cues segs))) !! (2 + 4 * i + j)%nat
            = vtt_cue_lines (Z.of_nat i + 1) c !! j).
  { intros j Hj. rewrite lookup_app_r by (simpl; lia).
    replace (2 + 4 * i + j - length [py "WEBVTT"; []])%nat
      with (4 * i + j)%nat by (simpl; lia).
    apply (concat_imap_lookup (fun i c => vtt_cue_lines (Z.of_nat i + 1) c) 4);
      [reflexivity | exact Hi | exact Hj]. }
  pose proof (Hblock 0%nat ltac:(lia)) as H0. rewrite Nat.add_0_r in H0.
  split; [exact H0|].
  split; [exact (Hblock 1%nat ltac:(lia))|].
  split; [exact (Hblock 2%nat ltac:(lia)) | exact (Hblock 3%nat ltac:(lia))].
Qed.

End WriterClaims.

Lemma write_webvtt_spec_witness :
  exists w',
    write_webvtt (example_env (raise (Exn RuntimeError [])))
      (py "out.vtt") [(f0_0, F64.of_Z 1, py "hello")] example_world
      = (ok tt, w').
Proof.
  destruct (write_webvtt_spec (example_env (raise (Exn RuntimeError [])))
              (py "out.vtt") [(f0_0, F64.of_Z 1, py "hello")] example_world)
    as (w' & Hrun & _).
  - apply example_env_parent_ok.
  - reflexivity.
  - apply example_env_writes_ok.
  - constructor; [|constructor].
    split; [vm_compute; reflexivity|]. split; [vm_compute; reflexivity|].
    apply ascii_encodable, ascii_py. reflexivity.
  - exists w'. exact Hrun.
Defined.

(** C4 as stated fails: a cue whose end is NaN makes the writer raise after
    the header and the cue number have been written, and a cue whose text
    holds a surrogate makes it raise after the line of the times. *)
Lemma write_webvtt_nan_cue :
  let E := example_env (raise (Exn RuntimeError [])) in
  let r :=
    write_webvtt E (py "out.vtt") [(f0_0, S754_nan, py "hello")]
      example_world in
  let r' :=
    write_webvtt E (py "out.vtt") [(f0_0, F64.of_Z 1, [104; 56448]%N)]
      example_world in
  r.1 = raise (Exn ValueError (py "cannot convert float NaN to integer")) /\
  f_text <$> (w_files r.2 !! py "/work/out.vtt")
    = Some (py "WEBVTT" ++ nl ++ nl ++ py "1" ++ nl) /\
  r'.1 =
    raise (Exn UnicodeEncodeError
             (py "'utf-8' codec can't encode character '\udc80' in position 1: surrogates not allowed")) /\
  f_text <$> (w_files r'.2 !! py "/work/out.vtt")
    = Some (py "WEBVTT" ++ nl ++ nl ++ py "1" ++ nl
              ++ py "00:00:00.000 --> 00:00:01.000" ++ nl).
Proof. repeat split; vm_compute; reflexivity. Qed.

Lemma write_webvtt_raises_witness :
  let E := example_env (raise (Exn RuntimeError [])) in
  let hello := (f0_0, F64.of_Z 1, py "hello") in
  let bad := (f0_0, F64.of_Z 1, [104; 56448]%N) in
  let res := write_webvtt E (py "out.vtt") [hello; bad; hello] example_world in
  w_stdout res.2 = w_stdout example_world /\
  w_files res.2 !! py "/work/in.mp4" = w_files example_world !! py "/work/in.mp4".
Proof.
  intros E hello bad res.
  assert (Hrun : res
            = (inl (Exn UnicodeEncodeError
                      (py "'utf-8' codec can't encode character '\udc80' in position 1: surrogates not allowed")),
               res.2))
    by (vm_compute; reflexivity).
  destruct (write_webvtt_raises E (py "out.vtt") [hello; bad; hello]
              example_world _ _ Hrun) as (Ho & _ & _ & Hframe & _).
  split; [exact Ho|]. apply Hframe. vm_compute. discriminate.
Defined.

Lemma subtitle_file_lines_witness :
  let E := example_env (raise (Exn RuntimeError [])) in
  let segs :=
    [Segment (Some (py "  hello   there ")) (Some f0_0) (Some (F64.of_Z 1));
     Segment (Some (py "  ")) None None;
     Segment (Some (py "bye")) (Some (F64.of_Z 1)) None] in
  exists text : pystr,
    w_files (write_webvtt E (py "out.vtt") (build_cues segs) example_world).2
      !! py "/work/out.vtt" = Some (File (py "utf-8") nl text) /\
    split_lines text !! 8%nat = Some (py "bye").
Proof.
  intros E segs.
  destruct (subtitle_file_lines E segs (py "out.vtt") example_world
              (write_webvtt E (py "out.vtt") (build_cues segs) example_world).2)
    as (text & Hfile & _ & _ & _ & Hblock); [vm_compute; reflexivity|].
  exists text. split; [exact Hfile|].
  destruct (Hblock 1%nat (F64.of_Z 1, F64.add (F64.of_Z 1) f0_2, py "bye"))
    as (_ & _ & Htext & _); [vm_compute; reflexivity|].
  exact Htext.
Defined.

(** ** The metadata as text *)

Section MetadataText.

Variable E : env.

Implicit Types (s : pystr) (a : args) (i : info).

Lemma plain_py (lit : string) :
  forallb (fun c => (32 <=? c) && (c <=? 126) && negb (c =? 34)
                      && negb (c =? 92))%N (py lit) = true ->
  plain (py lit).
Proof.
  unfold plain. intros H. apply Forall_forall. intros c Hc.
  apply list_elem_of_In in Hc.
  rewrite forallb_forall in H. specialize (H c Hc).
  apply andb_prop in H as [H H92]. apply andb_prop in H as [H H34].
  apply andb_prop in H as [H1 H2].
  apply N.leb_le in H1. apply N.leb_le in H2.
  apply negb_true_iff, N.eqb_neq in H34.
  apply negb_true_iff, N.eqb_neq in H92. lia.
Qed.

Lemma json_escape_char_plain (c : N) :
  (32 <= c <= 126)%N -> c <> 34%N -> c <> 92%N -> json_escape_char c = [c].
Proof.
  intros Hc H34 H92. unfold json_escape_char.
  apply N.eqb_neq in H34. apply N.eqb_neq in H92. rewrite H34, H92.
  replace (c =? 8)%N with false by (symmetry; apply N.eqb_neq; lia).
  replace (c =? 12)%N with false by (symmetry; apply N.eqb_neq; lia).
  replace (c =? 10)%N with false by (symmetry; apply N.eqb_neq; lia).
  replace (c =? 13)%N with false by (symmetry; apply N.eqb_neq; lia).
  replace (c =? 9)%N with false by (symmetry; apply N.eqb_neq; lia).
  replace (32 <=? c)%N with true by (symmetry; apply N.leb_le; lia).
  replace (c <=? 126)%N with true by (symmetry; apply N.leb_le; lia).
  reflexivity.
Qed.

(** JSON writes a plain text between quotes as it is. *)
Lemma json_string_plain s : plain s -> json_string s = quoted s.
Proof.
  intros Hs. unfold json_string, quoted. f_equal. f_equal.
  induction Hs as [|c s (Hc & H34 & H92) Hs IH]; [reflexivity|].
  cbn [map concat]. rewrite IH, json_escape_char_plain by assumption.
  reflexivity.
Qed.

Lemma json_item_member (key : string) (v : jvalue) :
  plain (py key) -> json_item E (py key, v) = member key (json_value E v).
Proof.
  intros Hk. unfold json_item, member. cbn [fst snd].
  rewrite json_string_plain by exact Hk. reflexivity.
Qed.

Lemma json_value_opt_str (o : option pystr) :
  json_value E (jopt JStr o) = json_opt json_string o.
Proof. destruct o; reflexivity. Qed.

Lemma json_value_opt_float (o : option float) :
  json_value E (jopt JFloat o) = json_opt (json_float E) o.
Proof. destruct o; reflexivity. Qed.

Lemma metadata_items a i (cues : list cue) :
  map (json_item E) (metadata_of E a i cues) =
    [ member "language" (json_opt json_string (info_language i));
      member "language_probability"
        (json_opt (json_float E) (info_language_probability i));
      member "duration_seconds" (json_opt (json_float E) (info_duration i));
      member "cue_count" (str_of_int (Z.of_nat (length cues)));
      member "input" (json_string (abspath E (a_input a)));
      member "output" (json_string (abspath E (a_output a)));
      member "model" (json_string (a_model a));
      member "device" (json_string (a_device a));
      member "compute_type" (json_string (a_compute_type a)) ].
Proof.
  unfold metadata_of. cbn [map].
  rewrite !json_item_member by (apply plain_py; reflexivity).
  rewrite json_value_opt_str, !json_value_opt_float. reflexivity.
Qed.

(** The line [json.dumps] makes of the metadata, written out. *)
Lemma json_dumps_metadata a i (cues : list cue) :
  json_dumps E (metadata_of E a i cues) = metadata_line_of E a i (length cues).
Proof.
  unfold json_dumps. rewrite metadata_items.
  unfold metadata_line_of, metadata_line.
  rewrite !join_cons by discriminate. cbn [join].
  rewrite <- !app_assoc. reflexivity.
Qed.

(** The text [json.dump] with [indent=2] makes of the metadata, written
    out. *)
Lemma json_dump_indent2_metadata a i (cues : list cue) :
  json_dump_indent2 E (metadata_of E a i cues)
    = metadata_file_of E a i (length cues).
Proof.
  unfold json_dump_indent2.
  pose proof (metadata_items a i cues) as Hitems.
  destruct (metadata_of E a i cues) as [|kv p] eqn:Hp;
    [discriminate Hitems|].
  rewrite Hitems. unfold metadata_file_of, metadata_file_lines.
  rewrite !join_cons by discriminate. cbn [join].
  rewrite <- !app_assoc. reflexivity.
Qed.

Lemma str_of_int_nonneg (n : Z) : 0 <= n -> str_of_int n = dec_nonneg n.
Proof.
  intros Hn. unfold str_of_int, fmt_0d.
  destruct (Z.ltb_spec n 0) as [?|_]; [lia|].
  rewrite Z.abs_eq by lia. reflexivity.
Qed.

(** The count printed is a decimal number that reads back as the count. *)
Lemma undec_count (n : nat) :
  undec (str_of_int (Z.of_nat n)) = Z.of_nat n /\
  str_of_int (Z.of_nat n) <> [] /\
  Forall (fun c => (48 <= c <= 57)%N) (str_of_int (Z.of_nat n)).
Proof.
  rewrite str_of_int_nonneg by lia. apply dec_nonneg_undec. lia.
Qed.

Lemma one_line_metadata a i (n : nat) :
  (forall x, one_line (float_repr E x)) ->
  one_line (metadata_line_of E a i n).
Proof.
  intros Hrepr.
  pose proof (json_dumps_metadata a i (replicate n (f0_0, f0_0, []))) as Heq.
  rewrite length_replicate in Heq. rewrite <- Heq.
  apply one_line_json_dumps, Hrepr.
Qed.

End MetadataText.

(** ** write_metadata *)

Section MetadataWriter.

Variable E : env.

Implicit Types (path : pystr) (w : world) (p : payload).

(** How [write_metadata] ends, in every case. *)
Lemma write_metadata_outcome (meta_output : option pystr) p w
    (r : result unit) w' :
  write_metadata E meta_output p w = (r, w') ->
  w_stdout w' = w_stdout w /\ w_stderr w' = w_stderr w /\
  w_calls w' = w_calls w /\
  ((no_path meta_output = true /\ r = inr tt /\ w' = w) \/
   (no_path meta_output = false /\
    let path := or_empty meta_output in
    ((r = inr tt /\ parent_ok E path /\ open_error E path = None /\
      w_files w' =
        <[realpath E path := File (py "utf-8") nl (json_dump_indent2 E p)]>
          (w_files w)) \/
     (exists e : exn,
        r = inl e /\ w_files w' = w_files w /\
        ((is_empty (dirname E (abspath E path)) = false /\
          makedirs_error E (dirname E (abspath E path)) = Some e) \/
         open_error E path = Some e)) \/
     (exists (e : exn) (kept : pystr),
        r = inl e /\
        w_files w' =
          <[realpath E path := File (py "utf-8") nl kept]> (w_files w))))).
Proof.
  unfold write_metadata. destruct (no_path meta_output) eqn:Hno.
  { intros Hrun. apply pair_equal_spec in Hrun as [<- <-].
    repeat split. left. repeat split. }
  cbv zeta. set (path := or_empty meta_output). intros Hrun.
  destruct (ensure_parent_dir E path w) as [rd w1] eqn:Hdir.
  apply ensure_parent_dir_outcome in Hdir as Hd.
  destruct Hd as (Hf1 & Ho1 & He1 & Hc1 & [[-> Hmk]|(e & -> & -> & Hp & Hmk)]).
  2: { rewrite (mbind_raise _ _ _ _ _ Hdir) in Hrun.
       apply pair_equal_spec in Hrun as [<- <-].
       repeat split. right. split; [reflexivity|]. right. left. exists e.
       split; [reflexivity|]. split; [reflexivity|]. left.
       split; [exact Hp | exact Hmk]. }
  rewrite (mbind_ok _ _ _ _ _ Hdir) in Hrun.
  destruct (open_error E path) as [e|] eqn:Hopen.
  { rewrite (with_open_fail E _ _ _ _ _ e Hopen) in Hrun.
    apply pair_equal_spec in Hrun as [<- <-].
    split; [exact Ho1|]. split; [exact He1|]. split; [exact Hc1|].
    right. split; [reflexivity|]. right. left. exists e.
    split; [reflexivity|]. split; [exact Hf1|]. right. reflexivity. }
  pose proof (handle_write_holding E path (json_dump_indent2 E p)
                (py "utf-8") nl [] (w_files w1) w1) as Hbody.
  assert (Hcase :
    exists (rb : result unit) (content : pystr),
      handle_write E path (json_dump_indent2 E p)
        (holding (realpath E path) (py "utf-8") nl [] (w_files w1) w1)
        = (rb, holding (realpath E path) (py "utf-8") nl content (w_files w1) w1)
      /\ (rb = inr tt -> content = json_dump_indent2 E p)).
  { destruct (encode_error (json_dump_indent2 E p)) as [e|].
    - exists (raise e), []. split; [exact Hbody | discriminate].
    - destruct (write_error E path ([] ++ json_dump_indent2 E p))
        as [[e kept]|].
      + exists (raise e), kept. split; [exact Hbody | discriminate].
      + eexists (ok tt), _. split; [exact Hbody | reflexivity]. }
  destruct Hcase as (rb & content & Hwrite & Hcontent).
  rewrite (with_open_holding E _ _ _ _ _ _ _ Hopen Hwrite) in Hrun.
  destruct (close_error E path content) as [[ec keptc]|] eqn:Hclose;
    apply pair_equal_spec in Hrun as [<- <-];
    unfold holding; cbn [w_files w_stdout w_stderr w_calls];
    (split; [exact Ho1|]); (split; [exact He1|]); (split; [exact Hc1|]);
    rewrite Hf1; right; (split; [reflexivity|]).
  { right. right. exists ec, keptc. split; reflexivity. }
  destruct rb as [e|[]].
  - right. right. exists e, content. split; reflexivity.
  - left. rewrite (Hcontent eq_refl). repeat split; assumption.
Qed.


End MetadataWriter.
(** ** main *)

Section Main.

Variable E : env.

Implicit Types (a : args) (w : world) (e : exn).

Lemma main_missing_input a w :
  isfile E (a_input a) w = false ->
  main E a w =
    (1, with_stderr (py "Input file does not exist: " ++ a_input a) w).
Proof. intros H. unfold main. rewrite H. reflexivity. Qed.

Lemma main_import_fail a w e :
  isfile E (a_input a) w = true -> import_error E = Some e ->
  main E a w =
    (1,
     with_stderr
       (py "Failed to import faster_whisper. Install dependency first. Error: "
          ++ exn_str e)
       (with_calls [CallImport] w)).
Proof. intros H Hi. unfold main. rewrite H, Hi. reflexivity. Qed.

(** Past the import, [main] is the second [try] and its handler. *)
Lemma main_generate a w :
  isfile E (a_input a) w = true -> import_error E = None ->
  main E a w =
    match generate E a (with_calls [CallImport] w) with
    | (inr code, w2) => (code, w2)
    | (inl e, w2) =>
        (1, with_stderr (py "Subtitle generation failed: " ++ exn_str e) w2)
    end.
Proof.
  intros H Hi. unfold main. rewrite H, Hi. cbn [negb].
  unfold try_except, record_call. fold (with_calls [CallImport] w).
  destruct (generate E a (with_calls [CallImport] w)) as [[e|code] w2];
    reflexivity.
Qed.

Lemma with_calls_app (cs1 cs2 : list call) w :
  with_calls cs2 (with_calls cs1 w) = with_calls (cs1 ++ cs2) w.
Proof. unfold with_calls. simpl. rewrite app_assoc. reflexivity. Qed.

Lemma generate_load_fail a w e :
  load_error E (a_model a) (a_device a) (a_compute_type a) = Some e ->
  generate E a w = (raise e, with_calls [load_call a] w).
Proof.
  intros Hl. unfold generate, load_model, mbind, record_call, mraise.
  rewrite Hl. reflexivity.
Qed.

Lemma load_model_ok a w :
  load_error E (a_model a) (a_device a) (a_compute_type a) = None ->
  load_model E a w = (inr tt, with_calls [load_call a] w).
Proof.
  intros Hl. unfold load_model, mbind, record_call, mret.
  rewrite Hl. reflexivity.
Qed.

Lemma call_transcribe_eq a w :
  call_transcribe E a w =
    (transcribe_result E a, with_calls [transcribe_call a] w).
Proof.
  unfold call_transcribe, mbind, record_call, lift, transcribe_result.
  reflexivity.
Qed.

(** [generate] up to the end of the loop over the segments. *)
Lemma generate_transcribed a w :
  load_error E (a_model a) (a_device a) (a_compute_type a) = None ->
  generate E a w =
    let w1 := with_calls [load_call a; transcribe_call a] w in
    match transcribe_result E a with
    | inl e => (raise e, w1)
    | inr si =>
        match collect_cues si.1 with
        | inl e => (raise e, w1)
        | inr cues =>
            (exec write_webvtt E (a_output a) cues;
             exec write_metadata E (a_meta_output a) (metadata_of E a si.2 cues);
             exec print_stdout (json_dumps E (metadata_of E a si.2 cues));
             mret 0) w1
        end
    end.
Proof.
  intros Hl. cbv zeta. unfold generate.
  rewrite (mbind_ok _ _ _ _ _ (load_model_ok a w Hl)).
  pose proof (call_transcribe_eq a (with_calls [load_call a] w)) as Ht.
  rewrite with_calls_app in Ht. simpl app in Ht.
  destruct (transcribe_result E a) as [e|si].
  - rewrite (mbind_raise _ _ _ _ _ Ht). reflexivity.
  - rewrite (mbind_ok _ _ _ _ _ Ht). unfold mbind at 1, lift.
    destruct (collect_cues si.1) as [e|cues]; reflexivity.
Qed.

(** A successful run of the second [try] returns 0. *)
Lemma generate_code a w code w' :
  generate E a w = (inr code, w') -> code = 0.
Proof.
  unfold generate, mbind, mret.
  destruct (load_model E a w) as [[?|?] ?]; [discriminate|].
  destruct (call_transcribe E a _) as [[?|?] ?]; [discriminate|].
  destruct (lift _ _) as [[?|?] ?]; [discriminate|].
  destruct (write_webvtt E _ _ _) as [[?|?] ?]; [discriminate|].
  destruct (write_metadata E _ _ _) as [[?|?] ?]; [discriminate|].
  destruct (print_stdout _ _) as [[?|?] ?]; [discriminate|].
  intros [= <- _]. reflexivity.
Qed.

Lemma generate_success_code a w :
  (main E a w).1 = 0 \/ (main E a w).1 = 1.
Proof.
  unfold main.
  destruct (negb (isfile E (a_input a) w)); [right; reflexivity|].
  destruct (import_error E); [right; reflexivity|].
  unfold try_except. cbn [record_call].
  destruct (generate E a _) as [[e|code] w2] eqn:Hg.
  - right. reflexivity.
  - left. apply generate_code in Hg. subst code. reflexivity.
Qed.

(** C6.  When the input file does not exist, [main] prints one line on
    standard error, returns 1 and leaves the files as they were, calling
    nothing.  It returns 0 when the import and the second [try] succeed,
    and 1 when the input is missing, the import fails, the model fails to
    load or the second [try] raises any exception; it returns nothing
    else. *)
Theorem main_exit_codes a w :
  (isfile E (a_input a) w = false ->
   main E a w
     = (1, with_stderr (py "Input file does not exist: " ++ a_input a) w) /\
   w_files (main E a w).2 = w_files w /\
   w_calls (main E a w).2 = w_calls w) /\
  (isfile E (a_input a) w = true ->
   (forall e, import_error E = Some e ->
      (main E a w).1 = 1 /\ w_files (main E a w).2 = w_files w) /\
   (import_error E = None ->
    (forall e,
       load_error E (a_model a) (a_device a) (a_compute_type a) = Some e ->
       (main E a w).1 = 1) /\
    (forall e w2,
       generate E a (with_calls [CallImport] w) = (raise e, w2) ->
       (main E a w).1 = 1) /\
    (forall code w2,
       generate E a (with_calls [CallImport] w) = (ok code, w2) ->
       main E a w = (0, w2)))) /\
  ((main E a w).1 = 0 \/ (main E a w).1 = 1).
Proof.
  split; [|split; [|apply generate_success_code]].
  - intros Hf. rewrite (main_missing_input a w Hf). repeat split.
  - intros Hf. split.
    + intros e Hi. rewrite (main_import_fail a w e Hf Hi). split; reflexivity.
    + intros Hi. rewrite (main_generate a w Hf Hi). repeat split.
      * intros e Hl. rewrite (generate_load_fail a _ e Hl). reflexivity.
      * intros e w2 ->. reflexivity.
      * intros code w2 Hg. rewrite Hg.
        apply generate_code in Hg. subst code. reflexivity.
Qed.

End Main.

Lemma main_exit_codes_witness :
  (main (example_env (raise (Exn RuntimeError [])))
     (default_args (py "missing.mp4") (py "out.vtt")) example_world).1 = 1 /\
  w_files
    (main (example_env (raise (Exn RuntimeError [])))
       (default_args (py "missing.mp4") (py "out.vtt")) example_world).2
    = w_files example_world.
Proof.
  destruct (main_exit_codes (example_env (raise (Exn RuntimeError [])))
              (default_args (py "missing.mp4") (py "out.vtt")) example_world)
    as (Hmissing & _ & _).
  destruct Hmissing as (Hrun & Hfiles & _); [vm_compute; reflexivity|].
  split; [rewrite Hrun; reflexivity | exact Hfiles].
Defined.


(** ** The runs of main *)

Section Run.

Variable E : env.

Implicit Types (a : args) (w : world) (e : exn).


(** The files [write_webvtt] and [write_metadata] leave alone. *)
Lemma write_webvtt_frame (path : pystr) (cues : list cue) w (r : result unit) w' :
  write_webvtt E path cues w = (r, w') ->
  io_frame [realpath E path] w w'.
Proof.
  intros Hrun.
  destruct (write_webvtt_outcome _ _ _ _ _ _ Hrun)
    as (Ho & He & Hc &
        [(_ & _ & _ & _ & Hfiles)
        |[(e & _ & Hfiles & _)
         |[(e & good & bad & rest & lines & _ & _ & _ & _ & Hfiles)
          |(e & content & kept & _ & _ & Hfiles)]]]);
    (split; [exact Ho|]); (split; [exact He|]); (split; [exact Hc|]);
    intros name Hname; rewrite Hfiles;
    try reflexivity; apply lookup_insert_ne; intros <-; apply Hname; left.
Qed.

Lemma write_metadata_frame (meta_output : option pystr) (p : payload) w
    (r : result unit) w' :
  write_metadata E meta_output p w = (r, w') ->
  io_frame
    (if no_path meta_output then []
     else [realpath E (or_empty meta_output)]) w w'.
Proof.
  intros Hrun.
  destruct (write_metadata_outcome _ _ _ _ _ _ Hrun)
    as (Ho & He & Hc & [(-> & _ & ->)|(-> & Hcase)]);
    (split; [exact Ho|]); (split; [exact He|]); (split; [exact Hc|]);
    intros name Hname; [reflexivity|].
  cbv zeta in Hcase.
  destruct Hcase
    as [(_ & _ & _ & Hfiles)|[(e & _ & Hfiles & _)|(e & kept & _ & Hfiles)]];
    rewrite Hfiles; try reflexivity;
    apply lookup_insert_ne; intros <-; apply Hname; left.
Qed.


(** The second [try] step by step: where it stops and what it leaves. *)
Lemma generate_outcome a w (r : result Z) w' :
  generate E a w = (r, w') ->
  (exists e,
     load_error E (a_model a) (a_device a) (a_compute_type a) = Some e /\
     r = inl e /\ w' = with_calls [load_call a] w) \/
  (load_error E (a_model a) (a_device a) (a_compute_type a) = None /\
   ((exists e,
       (transcribe_result E a = raise e \/
        exists (segs : list segment) (i : info),
          transcribe_result E a = ok ((segs, Some e), i)) /\
       r = inl e /\ w' = with_calls [load_call a; transcribe_call a] w) \/
    (exists (segs : list segment) (i : info),
       transcribe_result E a = ok ((segs, None), i) /\
       ((exists e,
           write_webvtt E (a_output a) (build_cues segs)
             (with_calls [load_call a; transcribe_call a] w) = (inl e, w') /\
           r = inl e) \/
        (exists w2,
           write_webvtt E (a_output a) (build_cues segs)
             (with_calls [load_call a; transcribe_call a] w) = (inr tt, w2) /\
           ((exists e,
               write_metadata E (a_meta_output a)
                 (metadata_of E a i (build_cues segs)) w2 = (inl e, w') /\
               r = inl e) \/
            (exists w3,
               write_metadata E (a_meta_output a)
                 (metadata_of E a i (build_cues segs)) w2 = (inr tt, w3) /\
               r = inr 0 /\
               w' = World (w_files w3) (w_dirs w3)
                      (w_stdout w3
                         ++ json_dumps E (metadata_of E a i (build_cues segs))
                         ++ nl)
                      (w_stderr w3) (w_calls w3)))))))).
Proof.
  destruct (load_error E (a_model a) (a_device a) (a_compute_type a))
    as [e|] eqn:Hl.
  { rewrite (generate_load_fail E a w e Hl). intros Hrun.
    apply pair_equal_spec in Hrun as [<- <-].
    left. exists e. repeat split. }
  rewrite (generate_transcribed E a w Hl). cbv zeta.
  intros Hrun. right. split; [reflexivity|].
  destruct (transcribe_result E a) as [e|[[segs [e|]] i]] eqn:Ht.
  - apply pair_equal_spec in Hrun as [<- <-].
    left. exists e. split; [left; reflexivity|]. split; reflexivity.
  - cbv beta iota zeta delta [collect_cues fst snd raise] in Hrun.
    apply pair_equal_spec in Hrun as [<- <-].
    left. exists e. split; [right; exists segs, i; reflexivity|].
    split; reflexivity.
  - cbv beta iota zeta delta [collect_cues fst snd ok] in Hrun.
    right. exists segs, i. split; [reflexivity|].
    destruct (write_webvtt E (a_output a) (build_cues segs)
                (with_calls [load_call a; transcribe_call a] w))
      as [[e|[]] w2] eqn:Hw.
    { rewrite (mbind_raise _ _ _ _ _ Hw) in Hrun.
      apply pair_equal_spec in Hrun as [<- <-].
      left. exists e. split; reflexivity. }
    rewrite (mbind_ok _ _ _ _ _ Hw) in Hrun.
    right. exists w2. split; [reflexivity|].
    destruct (write_metadata E (a_meta_output a)
                (metadata_of E a i (build_cues segs)) w2)
      as [[e|[]] w3] eqn:Hm.
    { rewrite (mbind_raise _ _ _ _ _ Hm) in Hrun.
      apply pair_equal_spec in Hrun as [<- <-].
      left. exists e. split; reflexivity. }
    rewrite (mbind_ok _ _ _ _ _ Hm) in Hrun.
    unfold mbind, print_stdout, mret in Hrun.
    apply pair_equal_spec in Hrun as [<- <-].
    right. exists w3. repeat split.
Qed.

Lemma output_files_output a (name : pystr) :
  name ∉ output_files E a -> name ∉ [realpath E (a_output a)].
Proof.
  intros Hname Hin. apply Hname. unfold output_files.
  apply list_elem_of_singleton in Hin as ->. left.
Qed.

Lemma output_files_meta a (name : pystr) :
  name ∉ output_files E a ->
  name ∉ (if no_path (a_meta_output a) then []
          else [realpath E (or_empty (a_meta_output a))]).
Proof.
  intros Hname Hin. apply Hname. unfold output_files. right. exact Hin.
Qed.

(** The second [try] in short: what it prints, which files it may touch
    and which calls it makes. *)
Lemma generate_summary a w (r : result Z) w' :
  generate E a w = (r, w') ->
  w_stderr w' = w_stderr w /\
  (forall name : pystr,
     name ∉ output_files E a -> w_files w' !! name = w_files w !! name) /\
  w_calls w' =
    w_calls w
      ++ load_call a
      :: match load_error E (a_model a) (a_device a) (a_compute_type a) with
         | Some _ => []
         | None => [transcribe_call a]
         end /\
  ((exists e, r = inl e /\ w_stdout w' = w_stdout w) \/
   (r = inr 0 /\
    exists (segs : list segment) (i : info),
      transcribe_result E a = ok ((segs, None), i) /\
      w_stdout w' =
        w_stdout w ++ metadata_line_of E a i (length (build_cues segs)) ++ nl)).
Proof.
  intros Hrun.
  destruct (generate_outcome _ _ _ _ Hrun)
    as [(e & Hl & -> & ->)
       |(Hl & [(e & _ & -> & ->)
              |(segs & i & Ht & Hcase)])]; rewrite Hl.
  - repeat split. left. exists e. split; reflexivity.
  - repeat split. left. exists e. split; reflexivity.
  - destruct Hcase as [(e & Hw & ->)|(w2 & Hw & Hcase)];
      pose proof (write_webvtt_frame _ _ _ _ _ Hw) as (Ho2 & He2 & Hc2 & Hf2);
      cbn [with_calls w_files w_stdout w_stderr w_calls] in Ho2, He2, Hc2, Hf2.
    { split; [exact He2|].
      split; [intros name Hname; apply Hf2, output_files_output, Hname|].
      split; [exact Hc2|]. left. exists e. split; [reflexivity | exact Ho2]. }
    destruct Hcase as [(e & Hm & ->)|(w3 & Hm & -> & ->)];
      pose proof (write_metadata_frame _ _ _ _ _ Hm) as (Ho3 & He3 & Hc3 & Hf3);
      cbn [w_files w_stdout w_stderr w_calls].
    + split; [congruence|].
      split; [intros name Hname;
              rewrite Hf3 by (apply output_files_meta, Hname);
              apply Hf2, output_files_output, Hname|].
      split; [congruence|]. left. exists e. split; [reflexivity | congruence].
    + split; [congruence|].
      split; [intros name Hname;
              rewrite Hf3 by (apply output_files_meta, Hname);
              apply Hf2, output_files_output, Hname|].
      split; [congruence|]. right. split; [reflexivity|].
      exists segs, i. split; [exact Ht|].
      rewrite Ho3, Ho2, json_dumps_metadata. reflexivity.
Qed.

(** What a return code of 0 tells about the run. *)
Lemma main_success_inv a w w' :
  main E a w = (0, w') ->
  isfile E (a_input a) w = true /\
  import_error E = None /\
  load_error E (a_model a) (a_device a) (a_compute_type a) = None /\
  exists (segs : list segment) (i : info) w2 w3,
    transcribe_result E a = ok ((segs, None), i) /\
    write_webvtt E (a_output a) (build_cues segs)
      (with_calls [CallImport; load_call a; transcribe_call a] w)
      = (inr tt, w2) /\
    write_metadata E (a_meta_output a) (metadata_of E a i (build_cues segs)) w2
      = (inr tt, w3) /\
    w' = World (w_files w3) (w_dirs w3)
           (w_stdout w3 ++ metadata_line_of E a i (length (build_cues segs))
              ++ nl)
           (w_stderr w3) (w_calls w3).
Proof.
  intros Hrun.
  destruct (isfile E (a_input a) w) eqn:Hf;
    [|rewrite (main_missing_input E a w Hf) in Hrun; discriminate].
  destruct (import_error E) as [e|] eqn:Hi;
    [rewrite (main_import_fail E a w e Hf Hi) in Hrun; discriminate|].
  rewrite (main_generate E a w Hf Hi) in Hrun.
  destruct (generate E a (with_calls [CallImport] w)) as [r w2] eqn:Hg.
  destruct (generate_outcome _ _ _ _ Hg)
    as [(e & Hl & -> & ->)
       |(Hl & [(e & _ & -> & ->)
              |(segs & i & Ht & [(e & Hw & ->)
                                |(w3 & Hw & [(e & Hm & ->)
                                            |(w4 & Hm & -> & ->)])])])];
    try discriminate Hrun.
  apply pair_equal_spec in Hrun as [_ <-].
  split; [reflexivity|]. split; [reflexivity|]. split; [exact Hl|].
  exists segs, i, w3, w4. rewrite with_calls_app in Hw.
  split; [exact Ht|]. split; [exact Hw|]. split; [exact Hm|].
  rewrite json_dumps_metadata. reflexivity.
Qed.


(** C9.  Without [--meta-output] the metadata writer does nothing and
    raises nothing.  On a run that returns 0 without it, the only file
    written is the subtitle file, and standard output receives exactly
    one line: the JSON object whose members are, in this order and each
    as [key: value] with the key between quotes, [language],
    [language_probability], [duration_seconds], [cue_count], [input],
    [output], [model], [device] and [compute_type].  The value of
    [cue_count] is a decimal number that reads back as the number of cues,
    and the subtitle file, read line by line, holds two lines and four
    more for each of that many cues. *)
Theorem metadata_omitted :
  (forall (p : payload) w, write_metadata E None p w = (ok tt, w)) /\
  (forall a w w',
     a_meta_output a = None ->
     (forall x, one_line (float_repr E x)) ->
     main E a w = (0, w') ->
     exists (segs : list segment) (i : info),
       transcribe_result E a = ok ((segs, None), i) /\
       let cues := build_cues segs in
       let count := str_of_int (Z.of_nat (length cues)) in
       let subtitles := unlines (vtt_lines cues) in
       w_stdout w' =
         w_stdout w
           ++ metadata_line
                (json_opt json_string (info_language i))
                (json_opt (json_float E) (info_language_probability i))
                (json_opt (json_float E) (info_duration i))
                count
                (json_string (abspath E (a_input a)))
                (json_string (abspath E (a_output a)))
                (json_string (a_model a))
                (json_string (a_device a))
                (json_string (a_compute_type a))
           ++ nl /\
       one_line
         (metadata_line
            (json_opt json_string (info_language i))
            (json_opt (json_float E) (info_language_probability i))
            (json_opt (json_float E) (info_duration i))
            count
            (json_string (abspath E (a_input a)))
            (json_string (abspath E (a_output a)))
            (json_string (a_model a))
            (json_string (a_device a))
            (json_string (a_compute_type a))) /\
       undec count = Z.of_nat (length cues) /\
       count <> [] /\
       Forall (fun c => (48 <= c <= 57)%N) count /\
       (forall s, plain s -> json_string s = quoted s) /\
       w_files w' =
         <[realpath E (a_output a) := File (py "utf-8") nl subtitles]>
           (w_files w) /\
       Z.of_nat (length (split_lines subtitles)) = 2 + 4 * undec count /\
       w_stderr w' = w_stderr w).
Proof.
  split; [reflexivity|].
  intros a w w' Hmeta Hrepr Hrun.
  destruct (main_success_inv a w w' Hrun)
    as (_ & _ & _ & segs & i & w2 & w3 & Ht & Hw & Hm & ->).
  rewrite Hmeta in Hm. apply pair_equal_spec in Hm as [_ <-].
  destruct (write_webvtt_outcome _ _ _ _ _ _ Hw)
    as (Ho & He & _ &
        [(_ & _ & _ & _ & Hfiles)
        |[(e & Hr & _)
         |[(e & ? & ? & ? & ? & Hr & _)|(e & ? & ? & Hr & _)]]]);
    try discriminate Hr.
  cbn [with_calls w_files w_stdout w_stderr] in Ho, He, Hfiles.
  exists segs, i. split; [exact Ht|]. cbv zeta.
  cbn [w_files w_stdout w_stderr].
  destruct (undec_count (length (build_cues segs))) as (Hcount & Hne & Hdigits).
  split; [rewrite Ho; reflexivity|].
  split; [apply (one_line_metadata E a i), Hrepr|].
  split; [exact Hcount|]. split; [exact Hne|]. split; [exact Hdigits|].
  split; [apply json_string_plain|].
  split; [exact Hfiles|].
  split; [|exact He].
  rewrite split_lines_subtitles, vtt_lines_length, Hcount. lia.
Qed.



(** X8.  For every parsed command line and every world, the calls [main]
    makes into the library are exactly these, in this order: none when the
    input names no file; the import alone when the import raises; the
    import and the construction of the model when that construction
    raises; and otherwise the import, the construction of the model and
    one call of [transcribe], whatever happens afterwards.  In the call of
    [transcribe] the beam size is the given one, or 1 when that is smaller;
    the language is the given one, or [None] when none or the empty string
    is given; the voice filter is on unless [--no-vad-filter] is given; and
    the conditioning on previous text is off. *)
Theorem main_calls a w :
  w_calls (main E a w).2 =
    w_calls w
      ++ (if isfile E (a_input a) w
          then
            CallImport
              :: match import_error E with
                 | Some _ => []
                 | None =>
                     load_call a
                       :: match
                            load_error E (a_model a) (a_device a)
                              (a_compute_type a)
                          with
                          | Some _ => []
                          | None => [transcribe_call a]
                          end
                 end
          else []) /\
  load_call a = CallLoad (a_model a) (a_device a) (a_compute_type a) /\
  exists (language : option pystr) (beam_size : Z),
    transcribe_call a
      = CallTranscribe (a_input a) language beam_size
          (negb (a_no_vad_filter a)) false /\
    1 <= beam_size /\
    (1 <= a_beam_size a -> beam_size = a_beam_size a) /\
    (a_beam_size a < 1 -> beam_size = 1) /\
    language <> Some [] /\
    (forall l : pystr, a_language a = Some l -> l <> [] -> language = Some l) /\
    (a_language a = None \/ a_language a = Some [] -> language = None).
Proof.
  split; [|split; [reflexivity|]].
  - destruct (isfile E (a_input a) w) eqn:Hf.
    2: { rewrite (main_missing_input E a w Hf). cbn [snd with_stderr w_calls].
         rewrite app_nil_r. reflexivity. }
    destruct (import_error E) as [e|] eqn:Hi.
    { rewrite (main_import_fail E a w e Hf Hi). reflexivity. }
    rewrite (main_generate E a w Hf Hi).
    destruct (generate E a (with_calls [CallImport] w)) as [r w'] eqn:Hg.
    destruct (generate_summary _ _ _ _ Hg) as (_ & _ & Hc & _).
    cbn [with_calls w_calls] in Hc. rewrite <- app_assoc in Hc.
    destruct r; cbn [snd with_stderr w_calls]; exact Hc.
  - exists (language_or_none (a_language a)), (Z.max 1 (a_beam_size a)).
    split; [reflexivity|]. split; [lia|]. split; [lia|]. split; [lia|].
    split; [destruct (a_language a) as [[|c l]|]; discriminate|].
    split.
    + intros l -> Hl. destruct l; [congruence | reflexivity].
    + intros [-> | ->]; reflexivity.
Qed.

(** X10.  A run that returns 0 has written the subtitle file first and
    then, when [--meta-output] is a non-empty path, the metadata file: the
    object printed on standard output, one member on each line between a
    line [{] and a line [}], indented by two spaces, as UTF-8 with line
    ending [\n].  Without [--meta-output], or with an empty one, only the
    subtitle file is written.  When both options name the same file,
    under whatever spellings, the metadata replaces the subtitles just
    written; when they name two files, each file holds its own text. *)
Theorem main_success_files a w w' :
  main E a w = (0, w') ->
  exists (segs : list segment) (i : info),
    transcribe_result E a = ok ((segs, None), i) /\
    let n := length (build_cues segs) in
    let subtitles :=
      File (py "utf-8") nl (unlines (vtt_lines (build_cues segs))) in
    let record := File (py "utf-8") nl (metadata_file_of E a i n) in
    let out := realpath E (a_output a) in
    let meta := realpath E (or_empty (a_meta_output a)) in
    w_stdout w' = w_stdout w ++ metadata_line_of E a i n ++ nl /\
    (no_path (a_meta_output a) = true ->
     w_files w' = <[out := subtitles]> (w_files w)) /\
    (no_path (a_meta_output a) = false ->
     w_files w' = <[meta := record]> (<[out := subtitles]> (w_files w)) /\
     (meta = out -> w_files w' = <[out := record]> (w_files w)) /\
     (meta <> out ->
      w_files w' !! out = Some subtitles /\
      w_files w' !! meta = Some record)).
Proof.
  intros Hrun.
  destruct (main_success_inv a w w' Hrun)
    as (_ & _ & _ & segs & i & w2 & w3 & Ht & Hw & Hm & ->).
  destruct (write_webvtt_outcome _ _ _ _ _ _ Hw)
    as (Ho2 & _ & _ &
        [(_ & _ & _ & _ & Hf2)
        |[(e & Hr & _)
         |[(e & ? & ? & ? & ? & Hr & _)|(e & ? & ? & Hr & _)]]]);
    try discriminate Hr.
  cbn [with_calls w_files w_stdout] in Ho2, Hf2.
  exists segs, i. split; [exact Ht|]. cbv zeta. cbn [w_files w_stdout].
  destruct (write_metadata_outcome _ _ _ _ _ _ Hm)
    as (Ho3 & _ & _ & [(Hno & _ & ->)|(Hno & Hcase)]); rewrite Hno.
  { split; [rewrite Ho2; reflexivity|].
    split; [intros _; exact Hf2 | discriminate]. }
  cbv zeta in Hcase.
  destruct Hcase
    as [(_ & _ & _ & Hf3)|[(e & Hr & _)|(e & kept & Hr & _)]];
    try discriminate Hr.
  rewrite json_dump_indent2_metadata in Hf3. rewrite Hf3, Hf2.
  split; [rewrite Ho3, Ho2; reflexivity|].
  split; [discriminate|]. intros _.
  split; [reflexivity|]. split.
  - intros ->. apply insert_insert_eq.
  - intros Hne. split.
    + rewrite lookup_insert_ne by (intros Heq; apply Hne, Heq).
      apply lookup_insert_eq.
    + apply lookup_insert_eq.
Qed.

End Run.

(** ** Examples of runs *)


Lemma metadata_omitted_witness :
  let E :=
    example_env
      (ok (([Segment (Some (py "hello")) (Some f0_0) (Some (F64.of_Z 1))],
            None),
           Info (Some (py "en")) None None)) in
  let a := default_args (py "in.mp4") (py "out.vtt") in
  w_stdout (main E a example_world).2 =
    metadata_line (quoted (py "en")) (py "null") (py "null") (py "1")
      (quoted (py "/work/in.mp4")) (quoted (py "/work/out.vtt"))
      (quoted (py "small")) (quoted (py "cpu")) (quoted (py "int8"))
      ++ nl.
Proof.
  intros E a.
  destruct (proj2 (metadata_omitted E) a example_world
              (main E a example_world).2)
    as (segs & i & Ht & Ho & _).
  - reflexivity.
  - intros x. apply one_line_py. reflexivity.
  - vm_compute. reflexivity.
  - rewrite Ho. clear Ho.
    assert (Hsi : segs = [Segment (Some (py "hello")) (Some f0_0)
                            (Some (F64.of_Z 1))] /\
                  i = Info (Some (py "en")) None None).
    { change (transcribe_result E a)
        with (ok (([Segment (Some (py "hello")) (Some f0_0)
                      (Some (F64.of_Z 1))], @None exn),
                  Info (Some (py "en")) None None)) in Ht.
      unfold ok in Ht. injection Ht as <- <-. split; reflexivity. }
    destruct Hsi as [-> ->]. vm_compute. reflexivity.
Defined.


(** The other side of the frame: when [--output] is another spelling of
    the input, the run overwrites the input with the subtitles. *)
Lemma main_output_names_input :
  let E :=
    example_env
      (ok (([Segment (Some (py "hello")) (Some f0_0) (Some (F64.of_Z 1))],
            None),
           Info (Some (py "en")) None None)) in
  let a := default_args (py "in.mp4") (py "./in.mp4") in
  (main E a example_world).1 = 0 /\
  w_files (main E a example_world).2 !! py "/work/in.mp4"
    = Some (File (py "utf-8") nl
              (unlines [py "WEBVTT"; []; py "1";
                        py "00:00:00.000 --> 00:00:01.000"; py "hello"; []])).
Proof. split; vm_compute; reflexivity. Qed.

Lemma main_success_files_witness :
  let E :=
    example_env
      (ok (([Segment (Some (py "hello")) (Some f0_0) (Some (F64.of_Z 1))],
            None),
           Info (Some (py "en")) None None)) in
  let a :=
    Args (py "in.mp4") (py "out.vtt") (Some (py "/work/out.vtt")) None
      (py "small") (py "cpu") (py "int8") 5 false in
  exists (i : info) (n : nat),
    w_files (main E a example_world).2 =
      <[py "/work/out.vtt" :=
          File (py "utf-8") nl (metadata_file_of E a i n)]>
        (w_files example_world).
Proof.
  intros E a.
  destruct (main_success_files E a example_world (main E a example_world).2)
    as (segs & i & _ & _ & _ & Hmeta); [vm_compute; reflexivity|].
  destruct Hmeta as (_ & Hsame & _); [reflexivity|].
  exists i, (length (build_cues segs)). apply Hsame. reflexivity.
Defined.
